(** * Tree of Thought solver: a shallow embedding of
    [Skills/Agentic_AI/Reasoning_Models/tree_of_thought.py].

    The embedding follows the Python source statement by statement.
    - [SearchNode] is the dataclass; scores are binary64 floats, compared
      with the IEEE comparisons the interpreter uses.
    - The generator and the evaluator are the two injected collaborators.
      They may be stateful (a language model behind them), so each call
      threads an abstract world [W]; they are assumed to return normally.
    - [self.nodes_explored] is the one attribute [solve] mutates; it lives
      in the run state together with the world and a chronological trace of
      what the traversal did (printed lines, collaborator calls with their
      results, nodes constructed).
    - The [while stack:] loop of [_dfs] is iterated with fuel; it is shown
      to terminate for every input.
    - [MockLLM], [LLMGenerator] and [LLMEvaluator] are embedded over text of
      code points below 256, with the prompts of the source character for
      character; a language model replies or raises in its world, and
      [float(text)] is a parameter of the evaluator, instantiated by the
      correctly rounded decimal conversion on concrete runs. *)

From Stdlib Require Import ZArith List String Ascii Bool Lia Floats.
From Stdlib Require Import Permutation Sorted DecimalString.
Import ListNotations.

Set Warnings "-inexact-float,-register-all".
Set Implicit Arguments.

Local Open Scope Z_scope.
Local Open Scope list_scope.

(** ** Strings *)

(** The separator of ["\n".join(...)]. *)
Definition nl : string := String (ascii_of_nat 10) EmptyString.

(** [sep.join(parts)]. *)
Definition join (sep : string) (parts : list string) : string :=
  String.concat sep parts.

(** ** SearchNode *)

Inductive SearchNode : Type := mkNode {
  state : string;
  parent : option SearchNode;
  score : float;
  depth : Z;
  path_history : list string
}.

(** [SearchNode.get_full_path]: ["\n".join(self.path_history + [self.state])]. *)
Definition get_full_path (n : SearchNode) : string :=
  join nl (path_history n ++ [state n]).

(** The initial node built by [solve]. *)
Definition root : SearchNode :=
  mkNode "Start" None 0.5%float 0 [].

(** The literals of the traversal code: [score >= 0.9], [score < 0.3] and
    the slice [next_queue[:5]]. The source writes them inline. *)
Definition success_threshold : float := 0.9%float.
Definition prune_threshold : float := 0.3%float.
Definition beam_width : nat := 5%nat.

(** [node.state if node.state != "Start" else ""]: the state handed to the
    generator. *)
Definition generator_state (n : SearchNode) : string :=
  if String.eqb (state n) "Start" then EmptyString else state n.

(** ** [next_queue.sort(key=lambda x: x.score, reverse=True)]

    The stable sort by descending score. [list.sort] only ever asks whether
    one key is [<] another, and is specified for keys on which that is a
    total order. On such keys (no NaN among the scores) the stable
    descending sort of a list is unique and is the one below. With a NaN
    among the keys the result of [list.sort] is a permutation that depends
    on the interpreter's run detection; what is stated about the order of a
    frontier is stated for runs in which no evaluation returned NaN. *)
Fixpoint insert_desc (x : SearchNode) (l : list SearchNode) : list SearchNode :=
  match l with
  | [] => [x]
  | y :: ys =>
      if PrimFloat.ltb (score x) (score y) then y :: insert_desc x ys
      else x :: y :: ys
  end.

Fixpoint sort_desc (l : list SearchNode) : list SearchNode :=
  match l with
  | [] => []
  | x :: xs => insert_desc x (sort_desc xs)
  end.

(** ** The solver object *)

Record TreeOfThoughtSolver : Type := mkSolver {
  strategy : string;
  max_depth : Z;
  branching_factor : Z;
  nodes_explored : Z
}.

Definition set_nodes_explored (s : TreeOfThoughtSolver) (k : Z) :=
  mkSolver (strategy s) (max_depth s) (branching_factor s) k.

(** *** Construction

    A call [TreeOfThoughtSolver(...)] is modelled by its keyword arguments.
    [KwOther] is a keyword other than [strategy], [max_depth] and
    [branching_factor]. [llm], [evaluator] and [generator] select the
    collaborators, which the embedding takes as parameters of the traversal;
    any keyword outside the signature of [__init__] makes the call raise
    [TypeError], with the message of CPython 3.10 and later (earlier
    versions leave out the class name). *)
Inductive exn : Type :=
| ValueError (msg : string)
| TypeError (msg : string).






(** ** Effects of a run *)

Inductive event : Type :=
| EvPrint (level : Z) (candidates : nat)
| EvGenerate (st problem : string) (n : Z) (thoughts : list string)
| EvEvaluate (full_state problem : string) (sc : float)
| EvNode (child : SearchNode).

(** The dictionary returned by [solve]. *)
Inductive outcome : Type :=
| Solved (solution : string) (final_score : float) (reached : Z)
         (explored : Z) (duration : float)
| Failed (reason : string) (explored : Z) (duration : float).

Inductive result : Type :=
| Returns (o : outcome)
| Raises (e : exn).

(** An early [return node] against falling through to the next statement. *)
Inductive flow (A : Type) : Type :=
| Return (n : SearchNode)
| Next (a : A).
Arguments Return {A} n.
Arguments Next {A} a.

(** The [SearchNode(state=thought, parent=node, score=score, depth=d,
    path_history=node.path_history + [node.state])] of both traversals. *)
Definition make_child (node : SearchNode) (thought : string) (sc : float)
  (d : Z) : SearchNode :=
  mkNode thought (Some node) sc d (path_history node ++ [state node]).

(** [node.get_full_path() + "\n" + thought] *)
Definition full_state_of (node : SearchNode) (thought : string) : string :=
  String.append (get_full_path node) (String.append nl thought).

(** ** Comparing scores

    [PrimFloat.ltb] and [PrimFloat.leb] are specified through [SFcompare];
    on floats that are not NaN it is the lexicographic order of the key
    below (sign class, exponent, mantissa). *)
Definition lex3 (a b : Z * Z * Z) : comparison :=
  let '(a1, a2, a3) := a in
  let '(b1, b2, b3) := b in
  match a1 ?= b1 with
  | Eq => match a2 ?= b2 with
          | Eq => a3 ?= b3
          | c => c
          end
  | c => c
  end.

Definition rank (f : spec_float) : option (Z * Z * Z) :=
  match f with
  | S754_nan => None
  | S754_zero _ => Some (0, 0, 0)
  | S754_infinity s => Some (if s then -2 else 2, 0, 0)
  | S754_finite s m e =>
      Some (if s then (-1, - e, Z.neg m) else (1, e, Z.pos m))
  end.

Definition fkey (x : float) : option (Z * Z * Z) := rank (Prim2SF x).

(** ** Reasoning chains and traces *)

(** The nodes a traversal can hold: the root, or a child of such a node
    built by [make_child] one level deeper from a score that passed the
    prune test. *)
Inductive chain_ok : SearchNode -> Prop :=
| chain_root : chain_ok root
| chain_child (p : SearchNode) (thought : string) (sc : float) :
    chain_ok p ->
    PrimFloat.ltb sc prune_threshold = false ->
    chain_ok (make_child p thought sc (depth p + 1)).

(** The nodes reached by following [parent], nearest first. *)
Fixpoint ancestors (n : SearchNode) : list SearchNode :=
  match n with
  | mkNode _ (Some p) _ _ _ => p :: ancestors p
  | mkNode _ None _ _ _ => []
  end.

Definition is_evaluation (e : event) : bool :=
  match e with
  | EvEvaluate _ _ _ => true
  | _ => false
  end.

Definition is_pruned_evaluation (e : event) : bool :=
  match e with
  | EvEvaluate _ _ sc => PrimFloat.ltb sc prune_threshold
  | _ => false
  end.

Definition is_construction (e : event) : bool :=
  match e with
  | EvNode _ => true
  | _ => false
  end.

Definition count_events (f : event -> bool) (tr : list event) : nat :=
  List.length (filter f tr).

(** How many evaluator calls a trace records, how many of them scored under
    the prune threshold, and how many nodes were constructed. *)
Definition evaluations : list event -> nat := count_events is_evaluation.
Definition pruned_evaluations : list event -> nat :=
  count_events is_pruned_evaluation.
Definition constructions : list event -> nat := count_events is_construction.

(** [n] was constructed during the run that left the trace [tr]. *)
Definition constructed (tr : list event) (n : SearchNode) : Prop :=
  In (EvNode n) tr.

Definition node_ok (tr : list event) (n : SearchNode) : Prop :=
  chain_ok n /\ (n = root \/ constructed tr n).

(** What holds of a constructed node [c]: it is a child, one level below a
    node of the run, with that node's history extended by that node's state,
    and its score is the result of an evaluator call on its full path that
    passed the prune test. *)
Definition built_ok (problem : string) (tr : list event) (c : SearchNode)
  : Prop :=
  exists p thought,
    c = make_child p thought (score c) (depth p + 1) /\
    node_ok tr p /\
    PrimFloat.ltb (score c) prune_threshold = false /\
    In (EvEvaluate (get_full_path c) problem (score c)) tr.

(** Every evaluation recorded in [tr] stayed under the success threshold. *)
Definition evals_below (tr : list event) : Prop :=
  forall fs p sc,
    In (EvEvaluate fs p sc) tr -> PrimFloat.leb success_threshold sc = false.

(** [s] is the line [l], or starts with the line [l]. *)
Definition first_line_is (l s : string) : Prop :=
  s = l \/ exists rest, s = String.append l (String.append nl rest).

Definition same_config (s s' : TreeOfThoughtSolver) : Prop :=
  strategy s' = strategy s /\ max_depth s' = max_depth s /\
  branching_factor s' = branching_factor s.

(** The score of [n] is not under the prune threshold. *)
Definition kept (n : SearchNode) : Prop :=
  PrimFloat.ltb (score n) prune_threshold = false.

(** [c] is a child of [p] built in the run that left the trace [tr]: one
    level deeper, with [p]'s history extended by [p]'s state, scored by an
    evaluator call on its full path, which is the newline-joined history
    followed by its own state. *)
Definition child_of (problem : string) (tr : list event) (c p : SearchNode)
  : Prop :=
  parent c = Some p /\
  (p = root \/ constructed tr p) /\
  depth c = depth p + 1 /\
  path_history c = path_history p ++ [state p] /\
  In (EvEvaluate (get_full_path c) problem (score c)) tr /\
  get_full_path c = join nl (path_history c ++ [state c]) /\
  get_full_path c =
    String.append (get_full_path p) (String.append nl (state c)).

(** The score of [n] is not NaN: it compares with itself. *)
Definition comparable (n : SearchNode) : Prop :=
  PrimFloat.leb (score n) (score n) = true.

(** [a] may stand before [b] in a list sorted by descending score. *)
Definition ge_score (a b : SearchNode) : Prop :=
  PrimFloat.leb (score b) (score a) = true.

(** The score of [n] ties with [v]. *)
Definition ties (v : float) (n : SearchNode) : bool :=
  PrimFloat.leb v (score n) && PrimFloat.leb (score n) v.

(** [needle in hay] *)
Definition contains (needle hay : string) : bool :=
  match String.index 0 needle hay with
  | Some _ => true
  | None => false
  end.

(** The score of [n] is under the success threshold. *)
Definition below_success (n : SearchNode) : Prop :=
  PrimFloat.leb success_threshold (score n) = false.

(** ** The language-model collaborators

    Text is a sequence of code points below 256; on those, the whitespace
    of [str.strip], the case mapping of [str.lower] and the digits of the
    pattern class [\d] are as below. *)

(** [c.isspace()] *)
Definition is_space (c : ascii) : bool :=
  let k := nat_of_ascii c in
  ((9 <=? k) && (k <=? 13) || (28 <=? k) && (k <=? 32)
   || (k =? 133) || (k =? 160))%nat.

(** [c.lower()] *)
Definition lower_char (c : ascii) : ascii :=
  let k := nat_of_ascii c in
  if ((65 <=? k) && (k <=? 90)
      || (192 <=? k) && (k <=? 222) && negb (k =? 215))%nat
  then ascii_of_nat (k + 32) else c.

(** [s.lower()] *)
Fixpoint lower (s : string) : string :=
  match s with
  | EmptyString => EmptyString
  | String c s' => String (lower_char c) (lower s')
  end.

(** [s.lstrip()], [s.rstrip()] and [s.strip()] *)
Fixpoint lstrip (s : string) : string :=
  match s with
  | EmptyString => EmptyString
  | String c s' => if is_space c then lstrip s' else s
  end.

Fixpoint rstrip (s : string) : string :=
  match s with
  | EmptyString => EmptyString
  | String c s' =>
      match rstrip s' with
      | EmptyString => if is_space c then EmptyString else String c EmptyString
      | String d t => String c (String d t)
      end
  end.

Definition strip (s : string) : string := rstrip (lstrip s).

(** [s.split(sep)] for a separator of one character; [split_lines] is
    [s.split('\n')]. *)
Fixpoint split_on (sep : ascii) (s : string) : list string :=
  match s with
  | EmptyString => [EmptyString]
  | String c s' =>
      if Ascii.eqb c sep then EmptyString :: split_on sep s'
      else
        match split_on sep s' with
        | [] => [String c EmptyString]
        | line :: rest => String c line :: rest
        end
  end.

Definition split_lines (s : string) : list string :=
  split_on (ascii_of_nat 10) s.

(** The truth value of a string: it is not empty. *)
Definition nonempty (s : string) : bool :=
  match s with
  | EmptyString => false
  | String _ _ => true
  end.

(** [l[:n]]: a negative [n] counts from the end. *)
Definition slice_to (A : Type) (n : Z) (l : list A) : list A :=
  if 0 <=? n then firstn (Z.to_nat n) l
  else firstn (List.length l - Z.to_nat (- n)) l.

(** [str(n)] for an integer. *)
Definition str_of_int (n : Z) : string := NilZero.string_of_int (Z.to_int n).

(** What a call of a language model may raise: an instance of a class
    derived from [Exception], or one of the other classes under
    [BaseException] ([KeyboardInterrupt], [SystemExit], [GeneratorExit]). *)
Inductive raised : Type :=
| OfException (class_name message : string)
| OfBaseException (class_name : string).

(** [except Exception:] catches the former and lets the latter through. *)
Definition caught_by_except_Exception (e : raised) : bool :=
  match e with
  | OfException _ _ => true
  | OfBaseException _ => false
  end.

(** An [LLMAdapter]: [generate(prompt, temperature)] returns a text or
    raises, in a world [W]. *)
Definition LLMAdapter (W : Type) : Type :=
  string -> float -> W -> (string + raised) * W.

(** [MockLLM.generate] *)
Definition MockLLM_generate (prompt : string) (temperature : float) : string :=
  if contains "evaluate" (lower prompt) then "0.8"
  else if contains "generate" (lower prompt)
       then join nl ["Step 1"; "Step 2"; "Step 3"]%string
       else "Generic thought".

Definition MockLLM (W : Type) : LLMAdapter W :=
  fun prompt temperature w => (inl (MockLLM_generate prompt temperature), w).

(** Eight spaces: the indentation of the prompt templates. *)
Definition indent : string := "        ".

(** The f-string of [LLMGenerator.generate_thoughts]. *)
Definition generator_prompt (state problem : string) (n : Z) : string :=
  String.concat EmptyString
    [nl; indent; "You are an intelligent problem solver. "; nl;
     indent; nl;
     indent; "Problem: "; problem; nl;
     indent; nl;
     indent; "Current State:"; nl;
     indent; state; nl;
     indent; nl;
     indent; "Generate "; str_of_int n;
     " distinct, valid next steps (thoughts) to move closer to the solution.";
     nl;
     indent; "Provide each thought on a new line."; nl;
     indent]%string.

(** [LLMGenerator.generate_thoughts]; an exception of the model
    propagates. *)
Definition LLMGenerator_generate_thoughts (W : Type) (llm : LLMAdapter W)
  (state problem : string) (n : Z) (w : W) : (list string + raised) * W :=
  match llm (generator_prompt state problem n) 0.7%float w with
  | (inl response, w') =>
      let thoughts :=
        map strip
            (filter (fun line => nonempty (strip line)) (split_lines response)) in
      (inl (slice_to n thoughts), w')
  | (inr e, w') => (inr e, w')
  end.

(** The f-string of [LLMEvaluator.evaluate]. *)
Definition evaluator_prompt (state problem : string) : string :=
  String.concat EmptyString
    [nl; indent;
     "Evaluate the following reasoning step towards solving the problem. "; nl;
     indent; nl;
     indent; "Problem: "; problem; nl;
     indent; nl;
     indent; "Current Reasoning State:"; nl;
     indent; state; nl;
     indent; nl;
     indent; "Assess whether this step is:"; nl;
     indent; "- Impossible/Wrong (0.1)"; nl;
     indent; "- Unlikely to work (0.3)"; nl;
     indent; "- Plausible (0.5)"; nl;
     indent; "- Promising (0.7)"; nl;
     indent; "- Correct/Solved (1.0)"; nl;
     indent; nl;
     indent; "Return ONLY the numeric score (0.0 to 1.0)."; nl;
     indent]%string.

(** Every character of [s] satisfies [p]. *)
Fixpoint all_chars (p : ascii -> bool) (s : string) : bool :=
  match s with
  | EmptyString => true
  | String c s' => p c && all_chars p s'
  end.

Definition not_newline (c : ascii) : bool := negb (Ascii.eqb c (ascii_of_nat 10)).

(** [\d] *)
Definition is_digit (c : ascii) : bool :=
  let k := nat_of_ascii c in ((48 <=? k) && (k <=? 57))%nat.

(** The longest prefix of digits: what a greedy [\d+] consumes. *)
Fixpoint take_digits (s : string) : string :=
  match s with
  | EmptyString => EmptyString
  | String c s' => if is_digit c then String c (take_digits s') else EmptyString
  end.

(** The pattern [0\.\d+|1\.0|1] matched at the start of [s]: the
    alternatives are tried in order. After a leading "0" only the first can
    match, after a leading "1" only the other two. *)
Definition match_here (s : string) : option string :=
  match s with
  | EmptyString => None
  | String c rest =>
      if Ascii.eqb c "0" then
        match rest with
        | EmptyString => None
        | String d rest' =>
            if Ascii.eqb d "." then
              match take_digits rest' with
              | EmptyString => None
              | String d1 digits => Some (String c (String d (String d1 digits)))
              end
            else None
        end
      else if Ascii.eqb c "1" then
        if String.prefix ".0" rest then Some "1.0"%string else Some "1"%string
      else None
  end.

(** The texts the pattern can match. *)
Definition score_text (m : string) : Prop :=
  m = "1"%string \/ m = "1.0"%string \/
  exists digits,
    digits <> EmptyString /\ all_chars is_digit digits = true /\
    m = String "0" (String "." digits).

(** [re.search(r"0\.\d+|1\.0|1", s)]: the match at the leftmost position
    that has one, as [match.group(0)]. *)
Fixpoint search_score (s : string) : option string :=
  match match_here s with
  | Some m => Some m
  | None =>
      match s with
      | EmptyString => None
      | String _ s' => search_score s'
      end
  end.

(** A character other than "0" and "1": no match of the pattern starts
    with it. *)
Definition no_score_start (c : ascii) : bool :=
  negb (Ascii.eqb c "0") && negb (Ascii.eqb c "1").

(** The text does not go on with a digit. *)
Definition digits_end (s : string) : bool :=
  match s with
  | EmptyString => true
  | String c _ => negb (is_digit c)
  end.

(** [LLMEvaluator.evaluate]; [to_float] is [float(text)]. The [try] covers
    the call of the model: what [except Exception] catches gives the
    fallback 0.5, anything else propagates. *)
Definition LLMEvaluator_evaluate (W : Type) (to_float : string -> float)
  (llm : LLMAdapter W) (state problem : string) (w : W)
  : (float + raised) * W :=
  match llm (evaluator_prompt state problem) 0.1%float w with
  | (inl response, w') =>
      match search_score (strip response) with
      | Some m => (inl (to_float m), w')
      | None => (inl 0.5%float, w')
      end
  | (inr e, w') =>
      if caught_by_except_Exception e then (inl 0.5%float, w')
      else (inr e, w')
  end.

(** [SearchNode.__lt__]: [self.score > other.score]. *)
Definition node_lt (self other : SearchNode) : bool :=
  PrimFloat.ltb (score other) (score self).

(** [needle] occurs in [s] as a substring. *)
Definition occurs (needle s : string) : Prop :=
  exists before after,
    s = String.append before (String.append needle after).

(** The value of a string of decimal digits, after [acc]. *)
Fixpoint digits_value (acc : Z) (s : string) : Z :=
  match s with
  | EmptyString => acc
  | String c s' => digits_value (10 * acc + (Z.of_nat (nat_of_ascii c) - 48)) s'
  end.

(** The binary64 float nearest to [n / d] (ties to even), for [0 <= n] and
    [0 < d]. *)
Definition nearest_ratio (n d : Z) : float :=
  if n =? 0 then 0%float
  else SF2Prim (SFdiv prec emax (S754_finite false (Z.to_pos n) 0)
                                (S754_finite false (Z.to_pos d) 0)).

(** [float(text)] for a text of decimal digits with an optional point, as
    the pattern of [LLMEvaluator] matches them: the conversion is correctly
    rounded. *)
Definition decimal_float (text : string) : float :=
  match split_on "." text with
  | whole :: fraction :: _ =>
      nearest_ratio (digits_value 0 (String.append whole fraction))
                    (10 ^ Z.of_nat (String.length fraction))
  | _ => nearest_ratio (digits_value 0 text) 1
  end.

(** The collaborators of [TreeOfThoughtSolver()] constructed without
    arguments: [LLMGenerator] and [LLMEvaluator] over [MockLLM], which
    never raises. *)
Definition default_generate_thoughts
  (state problem : string) (n : Z) (w : unit) : list string * unit :=
  match LLMGenerator_generate_thoughts (@MockLLM unit) state problem n w with
  | (inl thoughts, w') => (thoughts, w')
  | (inr _, w') => ([], w')
  end.

Definition default_evaluate (to_float : string -> float)
  (state problem : string) (w : unit) : float * unit :=
  match LLMEvaluator_evaluate to_float (@MockLLM unit) state problem w with
  | (inl sc, w') => (sc, w')
  | (inr _, w') => (0.5%float, w')
  end.

(** The fixed text of the generator prompt between its interpolated
    values, without the whitespace next to them. *)
Definition prompt_to_problem : string :=
  String.concat EmptyString
    [nl; indent; "You are an intelligent problem solver. "; nl;
     indent; nl; indent; "Problem:"]%string.

Definition prompt_to_state : string :=
  String.concat EmptyString
    [indent; nl; indent; "Current State:"; nl; "       "]%string.

Definition prompt_to_count : string :=
  String.concat EmptyString [indent; nl; indent; "Generate"]%string.

Definition prompt_rest : string :=
  String.concat EmptyString
    ["distinct, valid next steps (thoughts) to move closer to the solution.";
     nl; indent; "Provide each thought on a new line."; nl; indent]%string.

(** The characters of a printed integer: digits and the minus sign. *)
Definition is_int_char (c : ascii) : bool := is_digit c || Ascii.eqb c "-".

(** ** Scenarios

    Deterministic collaborators over a trivial world, used to run the
    solver on concrete inputs. *)

(** A generator that never proposes a thought. *)
Definition gen_none (st problem : string) (n : Z) (w : unit)
  : list string * unit := ([], w).

(** An evaluator that scores every path [v]. *)
Definition eval_const (v : float) (full problem : string) (w : unit)
  : float * unit := (v, w).

(** "A" and "DONE" from the root, nothing deeper; a path containing "DONE"
    scores 1.0, any other 0.4. *)
Definition gen_done (st problem : string) (n : Z) (w : unit)
  : list string * unit :=
  if String.eqb st "" then (["A"; "DONE"]%string, w) else ([], w).

Definition eval_done (full problem : string) (w : unit) : float * unit :=
  if contains "DONE" full then (1.0%float, w) else (0.4%float, w).

(** As [gen_done], with "WIN" proposed after "A"; a path containing "WIN"
    scores 0.95. *)
Definition gen_detour (st problem : string) (n : Z) (w : unit)
  : list string * unit :=
  if String.eqb st "" then (["A"; "DONE"]%string, w)
  else if String.eqb st "A" then (["WIN"]%string, w) else ([], w).

Definition eval_detour (full problem : string) (w : unit) : float * unit :=
  if contains "WIN" full then (0.95%float, w)
  else if contains "DONE" full then (1.0%float, w) else (0.4%float, w).

(** "A" and "B" from the root; [eval_two] scores "B" above "A", both over
    the success threshold; [eval_prune] scores "A" under the prune
    threshold. *)
Definition gen_two (st problem : string) (n : Z) (w : unit)
  : list string * unit :=
  if String.eqb st "" then (["A"; "B"]%string, w) else ([], w).

Definition eval_two (full problem : string) (w : unit) : float * unit :=
  if contains "B" full then (1.0%float, w)
  else if contains "A" full then (0.95%float, w) else (0.4%float, w).

Definition eval_prune (full problem : string) (w : unit) : float * unit :=
  if contains "A" full then (0.1%float, w) else (0.5%float, w).


Definition eval_many (full problem : string) (w : unit) : float * unit :=
  if contains "A" full || contains "C" full then (0.4%float, w)
  else if contains "B" full || contains "E" full then (0.8%float, w)
  else if contains "D" full then (0.6%float, w)
  else if contains "F" full then (0.5%float, w)
  else (0.7%float, w).

(** A generator that proposes the thought "Start" from the empty state and
    names the state it was given otherwise. *)
Definition gen_echo (st problem : string) (n : Z) (w : unit)
  : list string * unit :=
  if String.eqb st "" then (["Start"]%string, w)
  else ([String.append "after " st], w).

(** The first [n] of "A", "B", "C", from every state. *)
Definition gen_firstn (st problem : string) (n : Z) (w : unit)
  : list string * unit :=
  (firstn (Z.to_nat n) ["A"; "B"; "C"]%string, w).

(** A model that always replies [reply], and one that always raises [e]. *)
Definition llm_reply (reply : string) : LLMAdapter unit :=
  fun prompt temperature w => (inl reply, w).

Definition llm_raises (e : raised) : LLMAdapter unit :=
  fun prompt temperature w => (inr e, w).

(** The traces these runs leave. *)
Definition detour_trace : list event :=
  [EvGenerate "" "p" 2 ["A"; "DONE"]%string;
   EvEvaluate (join nl ["Start"; "DONE"]%string) "p" 1.0%float;
   EvNode (make_child root "DONE" 1.0%float 1);
   EvEvaluate (join nl ["Start"; "A"]%string) "p" 0.4%float;
   EvNode (make_child root "A" 0.4%float 1);
   EvGenerate "A" "p" 2 ["WIN"]%string;
   EvEvaluate (join nl ["Start"; "A"; "WIN"]%string) "p" 0.95%float;
   EvNode (make_child (make_child root "A" 0.4%float 1) "WIN" 0.95%float 2)].

Definition two_trace : list event :=
  [EvPrint 0 1;
   EvGenerate "" "p" 2 ["A"; "B"]%string;
   EvEvaluate (join nl ["Start"; "A"]%string) "p" 0.95%float;
   EvNode (make_child root "A" 0.95%float 1)].

Definition prune_trace : list event :=
  [EvPrint 0 1;
   EvGenerate "" "p" 2 ["A"; "B"]%string;
   EvEvaluate (join nl ["Start"; "A"]%string) "p" 0.1%float;
   EvEvaluate (join nl ["Start"; "B"]%string) "p" 0.5%float;
   EvNode (make_child root "B" 0.5%float 1)].


Definition echo_child : SearchNode := make_child root "Start" 0.5%float 1.

Definition echo_bfs_trace : list event :=
  [EvPrint 0 1;
   EvGenerate "" "p" 1 ["Start"]%string;
   EvEvaluate (join nl ["Start"; "Start"]%string) "p" 0.5%float;
   EvNode echo_child;
   EvPrint 1 1;
   EvGenerate "" "p" 1 ["Start"]%string;
   EvEvaluate (join nl ["Start"; "Start"; "Start"]%string) "p" 0.5%float;
   EvNode (make_child echo_child "Start" 0.5%float 2)].

Definition echo_dfs_trace : list event :=
  [EvGenerate "" "p" 1 ["Start"]%string;
   EvEvaluate (join nl ["Start"; "Start"]%string) "p" 0.5%float;
   EvNode echo_child;
   EvGenerate "" "p" 1 ["Start"]%string;
   EvEvaluate (join nl ["Start"; "Start"; "Start"]%string) "p" 0.5%float;
   EvNode (make_child echo_child "Start" 0.5%float 2)].

(** [gen_two] with every path scored 0.4, depth first: two children are
    built and none is promoted. *)
Definition low_trace : list event :=
  [EvGenerate "" "p" 2 ["A"; "B"]%string;
   EvEvaluate (join nl ["Start"; "B"]%string) "p" 0.4%float;
   EvNode (make_child root "B" 0.4%float 1);
   EvEvaluate (join nl ["Start"; "A"]%string) "p" 0.4%float;
   EvNode (make_child root "A" 0.4%float 1);
   EvGenerate "A" "p" 2 [];
   EvGenerate "B" "p" 2 []].

(** [gen_two] under [eval_many], depth first with [max_depth = 1]: "B" is
    evaluated first and popped last. *)
Definition best_trace : list event :=
  [EvGenerate "" "p" 2 ["A"; "B"]%string;
   EvEvaluate (join nl ["Start"; "B"]%string) "p" 0.8%float;
   EvNode (make_child root "B" 0.8%float 1);
   EvEvaluate (join nl ["Start"; "A"]%string) "p" 0.4%float;
   EvNode (make_child root "A" 0.4%float 1);
   EvGenerate "A" "p" 2 [];
   EvGenerate "B" "p" 2 []].

(** [gen_firstn] with every path scored 0.5, breadth first for one
    level. *)
Definition firstn_trace : list event :=
  [EvPrint 0 1;
   EvGenerate "" "p" 2 ["A"; "B"]%string;
   EvEvaluate (join nl ["Start"; "A"]%string) "p" 0.5%float;
   EvNode (make_child root "A" 0.5%float 1);
   EvEvaluate (join nl ["Start"; "B"]%string) "p" 0.5%float;
   EvNode (make_child root "B" 0.5%float 1)].

(** The problem of the example run at the end of the module. *)
Definition demo_problem : string :=
  "Plan a 3-step synthesis for Aspirin starting from Benzene.".

(** The thoughts of [MockLLM] for a generator prompt. *)
Definition mock_steps : list string := ["Step 1"; "Step 2"; "Step 3"]%string.

(** The node reached from the root by [k] thoughts "Step 1" scored [v]. *)
Fixpoint step_chain (v : float) (k : nat) : SearchNode :=
  match k with
  | O => root
  | S j => make_child (step_chain v j) "Step 1" v (Z.of_nat j + 1)
  end.

(** The children built for [node] at [level] from [thoughts] scored [v]. *)
Definition children_of (v : float) (level : Z) (thoughts : list string)
  (node : SearchNode) : list SearchNode :=
  map (fun thought => make_child node thought v (level + 1)) thoughts.

(** A node under the success threshold whose state does not make the mock
    model take a generator prompt for an evaluation. *)
Definition plain_node (n : SearchNode) : Prop :=
  below_success n /\
  contains "evaluate" (lower (generator_state n)) = false.

Section Solver.

Variable W : Type.
(** [self.generator.generate_thoughts(state, problem, n)] *)
Variable generate_thoughts : string -> string -> Z -> W -> list string * W.
(** [self.evaluator.evaluate(state, problem)] *)
Variable evaluate : string -> string -> W -> float * W.

Record Run : Type := mkRun {
  self : TreeOfThoughtSolver;
  world : W;
  trace : list event
}.

Definition log (e : event) (r : Run) : Run :=
  mkRun (self r) (world r) (trace r ++ [e]).

(** [self.nodes_explored += 1] *)
Definition count_node (r : Run) : Run :=
  mkRun (set_nodes_explored (self r) (nodes_explored (self r) + 1))
        (world r) (trace r).

Definition call_generate (st problem : string) (n : Z) (r : Run)
  : list string * Run :=
  let (thoughts, w) := generate_thoughts st problem n (world r) in
  (thoughts, mkRun (self r) w (trace r ++ [EvGenerate st problem n thoughts])).

Definition call_evaluate (full_state problem : string) (r : Run)
  : float * Run :=
  let (sc, w) := evaluate full_state problem (world r) in
  (sc, mkRun (self r) w (trace r ++ [EvEvaluate full_state problem sc])).

(** *** [_bfs] *)

(** The statements the two [for thought in ...] loops share: count the
    candidate, evaluate its full path, drop it below the prune threshold,
    otherwise build the child at depth [d]. *)
Definition expand_thought (problem : string) (node : SearchNode)
  (thought : string) (d : Z) (r : Run) : option SearchNode * Run :=
  let r1 := count_node r in
  let full_state := full_state_of node thought in
  let (sc, r2) := call_evaluate full_state problem r1 in
  if PrimFloat.ltb sc prune_threshold then (None, r2)
  else
    let child := make_child node thought sc d in
    (Some child, log (EvNode child) r2).

(** [for thought in thoughts:] of [_bfs]; the child's depth is [depth + 1]
    for the loop variable [depth]. *)
Fixpoint bfs_thoughts (problem : string) (node : SearchNode) (level : Z)
  (thoughts : list string) (next_queue : list SearchNode) (r : Run)
  : flow (list SearchNode) * Run :=
  match thoughts with
  | [] => (Next next_queue, r)
  | thought :: rest =>
      match expand_thought problem node thought (level + 1) r with
      | (None, r2) => bfs_thoughts problem node level rest next_queue r2
      | (Some child, r3) =>
          let next_queue' := next_queue ++ [child] in
          if PrimFloat.leb success_threshold (score child) then (Return child, r3)
          else bfs_thoughts problem node level rest next_queue' r3
      end
  end.

(** [for node in queue:] of [_bfs]. *)
Fixpoint bfs_queue (problem : string) (level : Z) (queue : list SearchNode)
  (next_queue : list SearchNode) (r : Run) : flow (list SearchNode) * Run :=
  match queue with
  | [] => (Next next_queue, r)
  | node :: rest =>
      if PrimFloat.leb success_threshold (score node) then (Return node, r)
      else
        let (thoughts, r1) :=
          call_generate (generator_state node) problem
                        (branching_factor (self r)) r in
        match bfs_thoughts problem node level thoughts next_queue r1 with
        | (Return child, r2) => (Return child, r2)
        | (Next next_queue', r2) => bfs_queue problem level rest next_queue' r2
        end
  end.

(** One pass of [for depth in range(self.max_depth):] up to the new
    [queue = next_queue[:5]]. *)
Definition bfs_level (problem : string) (level : Z) (queue : list SearchNode)
  (r : Run) : flow (list SearchNode) * Run :=
  let r0 := log (EvPrint level (List.length queue)) r in
  match bfs_queue problem level queue [] r0 with
  | (Return n, r1) => (Return n, r1)
  | (Next next_queue, r1) => (Next (firstn beam_width (sort_desc next_queue)), r1)
  end.

(** The level loop with its [break], followed by
    [return queue[0] if queue else None]. *)
Fixpoint bfs_levels (problem : string) (levels : list Z)
  (queue : list SearchNode) (r : Run) : option SearchNode * Run :=
  match levels with
  | [] => (hd_error queue, r)
  | level :: rest =>
      match bfs_level problem level queue r with
      | (Return n, r1) => (Some n, r1)
      | (Next queue', r1) =>
          match queue' with
          | [] => (hd_error queue', r1)
          | _ :: _ => bfs_levels problem rest queue' r1
          end
      end
  end.

(** [range(n)] *)
Definition range (n : Z) : list Z :=
  map Z.of_nat (seq 0 (Z.to_nat n)).

Definition bfs (root0 : SearchNode) (problem : string) (r : Run)
  : option SearchNode * Run :=
  bfs_levels problem (range (max_depth (self r))) [root0] r.

(** *** [_dfs] *)

(** [for thought in reversed(thoughts):] of [_dfs]; [thoughts] is the
    sequence already reversed, the head of [stack] is its top. *)
Fixpoint dfs_push (problem : string) (node : SearchNode)
  (thoughts : list string) (stack : list SearchNode) (r : Run)
  : list SearchNode * Run :=
  match thoughts with
  | [] => (stack, r)
  | thought :: rest =>
      match expand_thought problem node thought (depth node + 1) r with
      | (None, r2) => dfs_push problem node rest stack r2
      | (Some child, r3) => dfs_push problem node rest (child :: stack) r3
      end
  end.

(** The body of [while stack:] for the popped [node]. *)
Definition dfs_iter (problem : string) (node : SearchNode)
  (stack : list SearchNode) (best_node : SearchNode) (r : Run)
  : flow (list SearchNode * SearchNode) * Run :=
  if Z.ltb (max_depth (self r)) (depth node) then (Next (stack, best_node), r)
  else
    let best_node' :=
      if PrimFloat.ltb (score best_node) (score node) then node
      else best_node in
    if PrimFloat.leb success_threshold (score node) then (Return node, r)
    else
      let (thoughts, r1) :=
        call_generate (generator_state node) problem
                      (branching_factor (self r)) r in
      let (stack', r2) := dfs_push problem node (rev thoughts) stack r1 in
      (Next (stack', best_node'), r2).

(** [while stack: ...] then [return best_node]. [None] is out of fuel. *)
Fixpoint dfs_loop (fuel : nat) (problem : string) (stack : list SearchNode)
  (best_node : SearchNode) (r : Run) : option (SearchNode * Run) :=
  match fuel with
  | O => None
  | S fuel' =>
      match stack with
      | [] => Some (best_node, r)
      | node :: stack' =>
          match dfs_iter problem node stack' best_node r with
          | (Return n, r1) => Some (n, r1)
          | (Next (stack'', best_node'), r1) =>
              dfs_loop fuel' problem stack'' best_node' r1
          end
      end
  end.

Definition dfs (fuel : nat) (root0 : SearchNode) (problem : string) (r : Run)
  : option (SearchNode * Run) :=
  dfs_loop fuel problem [root0] root0 r.

(** *** [solve] *)

(** The run state in which [solve] starts its traversal. *)
Definition start (s : TreeOfThoughtSolver) (w : W) : Run :=
  mkRun (set_nodes_explored s 0) w [].

Definition failure_reason : string := "Max depth or no solution found".

(** The dictionary assembled at the end of [solve]; a [SearchNode] is a
    truthy object, so [if result_node:] tests for [None]. *)
Definition report (result_node : option SearchNode) (r : Run)
  (duration : float) : outcome :=
  match result_node with
  | Some n =>
      Solved (get_full_path n) (score n) (depth n)
             (nodes_explored (self r)) duration
  | None => Failed failure_reason (nodes_explored (self r)) duration
  end.

(** [solve(problem)] on the solver [s] in world [w]; [t0] and [t1] are the
    two readings of [time.time()]. The trace starts empty. *)
Definition solve (fuel : nat) (s : TreeOfThoughtSolver) (problem : string)
  (w : W) (t0 t1 : float) : option (result * Run) :=
  let r := start s w in
  if String.eqb (strategy s) "bfs" then
    let (result_node, r') := bfs root problem r in
    Some (Returns (report result_node r' (PrimFloat.sub t1 t0)), r')
  else if String.eqb (strategy s) "dfs" then
    match dfs fuel root problem r with
    | Some (n, r') =>
        Some (Returns (report (Some n) r' (PrimFloat.sub t1 t0)), r')
    | None => None
    end
  else
    Some (Raises (ValueError (String.append "Unknown strategy: " (strategy s))), r).

(** *** Invariants of a run *)

Definition run_inv (problem : string) (r : Run) : Prop :=
  (forall c, constructed (trace r) c -> built_ok problem (trace r) c) /\
  nodes_explored (self r) = Z.of_nat (evaluations (trace r)) /\
  evaluations (trace r) =
    (pruned_evaluations (trace r) + constructions (trace r))%nat.

(** [r'] continues [r]: same configuration, longer trace. *)
Definition extends (r r' : Run) : Prop :=
  same_config (self r) (self r') /\
  exists more, trace r' = trace r ++ more.

(** Every thought of the sequence is evaluated below the prune threshold,
    the evaluator being called on them in order from world [w]. *)
Fixpoint all_pruned (problem : string) (node : SearchNode)
  (thoughts : list string) (w : W) : bool :=
  match thoughts with
  | [] => true
  | thought :: rest =>
      let (sc, w') := evaluate (full_state_of node thought) problem w in
      PrimFloat.ltb sc prune_threshold && all_pruned problem node rest w'
  end.

(** The expansion of the root creates no child; [order] is the order in
    which the traversal walks the generated thoughts. *)
Definition no_child_of_root (problem : string) (n : Z) (w : W)
  (order : list string -> list string) : bool :=
  let (thoughts, w') := generate_thoughts EmptyString problem n w in
  all_pruned problem root (order thoughts) w'.

(** The nodes of a frontier at depth [d], and those of a stack. *)
Definition level_ok (d : Z) (tr : list event) (q : list SearchNode) : Prop :=
  Forall (fun n => node_ok tr n /\ depth n = d) q.

Definition stack_ok (tr : list event) (stack : list SearchNode) : Prop :=
  Forall (node_ok tr) stack.

(** From every state whose solver has [max_depth = bound], the loop started
    on [stack] returns. *)
Definition terminates (problem : string) (bound : Z) (stack : list SearchNode)
  : Prop :=
  forall (best_node : SearchNode) (r : Run),
    max_depth (self r) = bound ->
    exists fuel res, dfs_loop fuel problem stack best_node r = Some res.

(** [bfs_frontier problem r0 k queue r]: started in [r0], [_bfs] has
    completed [k] passes of its level loop and holds [queue] in state [r]. *)
Inductive bfs_frontier (problem : string) (r0 : Run)
  : nat -> list SearchNode -> Run -> Prop :=
| frontier_root : bfs_frontier problem r0 0 [root] r0
| frontier_next (k : nat) (queue queue' : list SearchNode) (r r' : Run) :
    bfs_frontier problem r0 k queue r ->
    Z.of_nat k < max_depth (self r0) ->
    queue <> [] ->
    bfs_level problem (Z.of_nat k) queue r = (Next queue', r') ->
    bfs_frontier problem r0 (S k) queue' r'.

(** [dfs_state problem r0 stack best r]: started in [r0], [_dfs] is at the
    test of its [while] with [stack], [best_node = best] and state [r]. *)
Inductive dfs_state (problem : string) (r0 : Run)
  : list SearchNode -> SearchNode -> Run -> Prop :=
| dfs_start : dfs_state problem r0 [root] root r0
| dfs_next (node : SearchNode) (stack stack' : list SearchNode)
    (best best' : SearchNode) (r r' : Run) :
    dfs_state problem r0 (node :: stack) best r ->
    dfs_iter problem node stack best r = (Next (stack', best'), r') ->
    dfs_state problem r0 stack' best' r'.

(** What a returned dictionary says about the node it reports. *)
Definition reported (tr : list event) (s : TreeOfThoughtSolver) (o : outcome)
  : Prop :=
  match o with
  | Solved sol sc d k _ =>
      exists n, node_ok tr n /\ sol = get_full_path n /\ sc = score n /\
                d = depth n /\ k = nodes_explored s
  | Failed reason k _ => reason = failure_reason /\ k = nodes_explored s
  end.

(** The success test of [_bfs] on a fresh child: either the loop returns the
    child, whose evaluation is the last one of the trace, or no evaluation of
    the trace has reached the threshold. *)
Definition bfs_flow_ok (problem : string) (fl : flow (list SearchNode))
  (r' : Run) : Prop :=
  match fl with
  | Return c =>
      exists pre,
        trace r' =
          pre ++ [EvEvaluate (get_full_path c) problem (score c); EvNode c] /\
        evals_below pre /\
        PrimFloat.leb success_threshold (score c) = true
  | Next q => evals_below (trace r') /\ Forall below_success q
  end.


(** No evaluation scores above the root: [score > best_node.score] fails
    for every candidate while [best_node] is the root. *)
Definition never_above_root : Prop :=
  forall full_state problem w,
    PrimFloat.ltb (score root) (fst (evaluate full_state problem w)) = false.

(** The generator returns at most the [n] thoughts it is asked for. *)
Definition generator_honours_n : Prop :=
  forall st p n w,
    (List.length (fst (generate_thoughts st p n w)) <= Z.to_nat n)%nat.

(** At the test of the [while] of [_dfs]: every node of the run within
    [bound] is still on the stack, or does not outscore [best]. *)
Definition seen_ok (bound : Z) (tr : list event) (stack : list SearchNode)
  (best : SearchNode) : Prop :=
  forall c,
    c = root \/ constructed tr c ->
    depth c <= bound ->
    In c stack \/ PrimFloat.ltb (score best) (score c) = false.

(** What a traversal may leave in its trace when it hands [problem] and
    [n] to its collaborators, builds nodes down to depth [hi] and, if
    [prints], announces levels below [hi] with their candidates. *)
Definition event_ok (problem : string) (n hi : Z) (prints : bool) (e : event)
  : Prop :=
  match e with
  | EvPrint level k =>
      prints = true /\ 0 <= level < hi /\ (1 <= k <= beam_width)%nat
  | EvGenerate st p m thoughts => p = problem /\ m = n
  | EvEvaluate fs p sc => p = problem
  | EvNode c => 1 <= depth c <= hi
  end.

(** * Properties *)

(** ** The order of scores *)

Lemma SFcompare_rank (a b : spec_float) :
  SFcompare a b =
  match rank a, rank b with
  | Some ka, Some kb => Some (lex3 ka kb)
  | _, _ => None
  end.
Proof.
  destruct a as [sa | sa | | sa ma ea], b as [sb | sb | | sb mb eb];
    simpl; try reflexivity;
    try (destruct sa; reflexivity); try (destruct sb; reflexivity);
    try (destruct sa, sb; reflexivity).
  destruct sa, sb; simpl; try reflexivity.
  rewrite Z.compare_opp, (Z.compare_antisym ea eb).
  destruct (ea ?= eb); simpl; reflexivity.
Qed.

Lemma ltb_key (x y : float) :
  PrimFloat.ltb x y =
  match fkey x, fkey y with
  | Some a, Some b => match lex3 a b with Lt => true | _ => false end
  | _, _ => false
  end.
Proof.
  rewrite ltb_spec. unfold SFltb, fkey. rewrite SFcompare_rank.
  destruct (rank (Prim2SF x)), (rank (Prim2SF y)); reflexivity.
Qed.

Lemma leb_key (x y : float) :
  PrimFloat.leb x y =
  match fkey x, fkey y with
  | Some a, Some b => match lex3 a b with Gt => false | _ => true end
  | _, _ => false
  end.
Proof.
  rewrite leb_spec. unfold SFleb, fkey. rewrite SFcompare_rank.
  destruct (rank (Prim2SF x)), (rank (Prim2SF y)); reflexivity.
Qed.

Ltac lex3_solve :=
  unfold lex3;
  repeat match goal with
         | p : (Z * Z * Z)%type |- _ => destruct p as [[? ?] ?]
         end;
  repeat match goal with
         | |- context [?a ?= ?b] => destruct (Z.compare_spec a b)
         | H : context [?a ?= ?b] |- _ => destruct (Z.compare_spec a b)
         end;
  try discriminate; try reflexivity; try lia.

Lemma lex3_refl (a : Z * Z * Z) : lex3 a a = Eq.
Proof. lex3_solve. Qed.

Lemma lex3_antisym (a b : Z * Z * Z) : lex3 b a = CompOpp (lex3 a b).
Proof. lex3_solve. Qed.

Lemma lex3_lt_trans (a b c : Z * Z * Z) :
  lex3 a b = Lt -> lex3 b c <> Gt -> lex3 a c = Lt.
Proof. intros H1 H2. revert H1 H2. lex3_solve; intros; try congruence. Qed.


Lemma ltb_irrefl (x : float) : PrimFloat.ltb x x = false.
Proof.
  rewrite ltb_key. destruct (fkey x) as [a|]; [|reflexivity].
  now rewrite lex3_refl.
Qed.

Lemma ltb_not_leb (x y : float) :
  PrimFloat.ltb x y = true -> PrimFloat.leb y x = false.
Proof.
  rewrite ltb_key, leb_key.
  destruct (fkey x) as [a|], (fkey y) as [b|]; try discriminate.
  rewrite (lex3_antisym a b). destruct (lex3 a b); simpl; congruence.
Qed.

Lemma ltb_leb_trans (x y z : float) :
  PrimFloat.ltb x y = true -> PrimFloat.leb y z = true ->
  PrimFloat.ltb x z = true.
Proof.
  rewrite !ltb_key, leb_key.
  destruct (fkey x) as [a|], (fkey y) as [b|], (fkey z) as [c|];
    try discriminate.
  intros H1 H2.
  rewrite (@lex3_lt_trans a b c); auto.
  - destruct (lex3 a b); congruence.
  - destruct (lex3 b c); congruence.
Qed.


Lemma ltb_leb (x y : float) :
  PrimFloat.ltb x y = true -> PrimFloat.leb x y = true.
Proof.
  rewrite ltb_key, leb_key.
  destruct (fkey x) as [a|], (fkey y) as [b|]; try discriminate.
  destruct (lex3 a b); congruence.
Qed.

Lemma ltb_trans (x y z : float) :
  PrimFloat.ltb x y = true -> PrimFloat.ltb y z = true ->
  PrimFloat.ltb x z = true.
Proof.
  intros H1 H2. apply ltb_leb_trans with (y := y); [exact H1|].
  now apply ltb_leb.
Qed.

Lemma ltb_asym (x y : float) :
  PrimFloat.ltb x y = true -> PrimFloat.ltb y x = false.
Proof.
  intros H. destruct (PrimFloat.ltb y x) eqn:Hyx; [|reflexivity].
  apply ltb_leb in Hyx. apply ltb_not_leb in H. congruence.
Qed.

(** Floats that are not NaN are comparable. *)
Lemma leb_total (x y : float) :
  PrimFloat.leb x x = true -> PrimFloat.leb y y = true ->
  PrimFloat.ltb x y = false -> PrimFloat.leb y x = true.
Proof.
  rewrite ltb_key, !leb_key.
  destruct (fkey x) as [a|], (fkey y) as [b|]; try discriminate.
  intros _ _. rewrite (lex3_antisym a b).
  destruct (lex3 a b); simpl; congruence.
Qed.

(** A score under the prune threshold is under the success threshold. *)
Lemma pruned_below_success (sc : float) :
  PrimFloat.ltb sc prune_threshold = true ->
  PrimFloat.leb success_threshold sc = false.
Proof.
  intros H. apply ltb_not_leb.
  apply ltb_leb_trans with (y := prune_threshold); auto.
Qed.

(** ** Strings and paths *)

Lemma append_assoc (a b c : string) :
  String.append (String.append a b) c = String.append a (String.append b c).
Proof.
  induction a as [|ch a IH]; simpl; [reflexivity|now rewrite IH].
Qed.

Lemma join_snoc (sep : string) (l : list string) (x y : string) :
  join sep (l ++ [x; y]) =
  String.append (join sep (l ++ [x])) (String.append sep y).
Proof.
  unfold join. induction l as [|a l IH].
  - reflexivity.
  - change ((a :: l) ++ [x; y]) with (a :: (l ++ [x; y])).
    change ((a :: l) ++ [x]) with (a :: (l ++ [x])).
    destruct l as [|b l].
    + simpl. now rewrite !append_assoc.
    + change (String.concat sep (a :: (b :: l) ++ [x; y]))
        with (String.append a (String.append sep
                (String.concat sep ((b :: l) ++ [x; y])))).
      change (String.concat sep (a :: (b :: l) ++ [x]))
        with (String.append a (String.append sep
                (String.concat sep ((b :: l) ++ [x])))).
      rewrite IH. now rewrite !append_assoc.
Qed.

(** The full path of a child is the string that was evaluated for it. *)
Lemma full_path_child (p : SearchNode) (thought : string) (sc : float) (d : Z) :
  get_full_path (make_child p thought sc d) = full_state_of p thought.
Proof.
  unfold get_full_path, full_state_of, make_child. simpl.
  rewrite <- app_assoc. simpl. apply join_snoc.
Qed.

(** ** Chains *)

Lemma root_kept : PrimFloat.ltb (score root) prune_threshold = false.
Proof. reflexivity. Qed.

Lemma root_below_success : PrimFloat.leb success_threshold (score root) = false.
Proof. reflexivity. Qed.

Lemma chain_ok_kept (n : SearchNode) :
  chain_ok n -> PrimFloat.ltb (score n) prune_threshold = false.
Proof.
  intros H. destruct H as [|p thought sc Hp Hsc]; [apply root_kept|exact Hsc].
Qed.

Lemma chain_ok_depth (n : SearchNode) :
  chain_ok n -> depth n = Z.of_nat (List.length (path_history n)).
Proof.
  induction 1 as [|p thought sc Hp IH Hsc]; [reflexivity|].
  simpl. rewrite length_app, IH. simpl. lia.
Qed.

Lemma chain_ok_ancestors (n : SearchNode) :
  chain_ok n -> Forall chain_ok (ancestors n).
Proof.
  induction 1 as [|p thought sc Hp IH Hsc]; simpl; [constructor|].
  constructor; assumption.
Qed.

Lemma chain_ok_ancestors_depth (n : SearchNode) :
  chain_ok n -> Forall (fun a => 0 <= depth a < depth n) (ancestors n).
Proof.
  induction 1 as [|p thought sc Hp IH Hsc]; simpl; [constructor|].
  constructor.
  - rewrite (chain_ok_depth Hp). lia.
  - eapply Forall_impl; [|exact IH]. simpl. intros a Ha. lia.
Qed.

Lemma chain_ok_history (n : SearchNode) :
  chain_ok n -> path_history n = rev (map state (ancestors n)).
Proof.
  induction 1 as [|p thought sc Hp IH Hsc]; simpl; [reflexivity|].
  now rewrite IH.
Qed.

Lemma chain_ok_first_line (n : SearchNode) :
  chain_ok n -> first_line_is "Start" (get_full_path n).
Proof.
  induction 1 as [|p thought sc Hp IH Hsc].
  - left. reflexivity.
  - right. rewrite full_path_child. unfold full_state_of.
    destruct IH as [-> | [rest ->]].
    + now exists thought.
    + exists (String.append rest (String.append nl thought)).
      now rewrite !append_assoc.
Qed.

(** ** Traces *)

Lemma count_events_app (f : event -> bool) (a b : list event) :
  count_events f (a ++ b) = (count_events f a + count_events f b)%nat.
Proof. unfold count_events. now rewrite filter_app, length_app. Qed.

(** The three counts of a trace extended by [more], when the counts of
    [more] are known. *)
Lemma counts_app (tr more : list event) (e p c : nat) (k : Z) :
  k = Z.of_nat (evaluations tr) ->
  evaluations tr = (pruned_evaluations tr + constructions tr)%nat ->
  evaluations more = e ->
  pruned_evaluations more = p ->
  constructions more = c ->
  e = (p + c)%nat ->
  k + Z.of_nat e = Z.of_nat (evaluations (tr ++ more)) /\
  evaluations (tr ++ more) =
    (pruned_evaluations (tr ++ more) + constructions (tr ++ more))%nat.
Proof.
  unfold evaluations, pruned_evaluations, constructions.
  intros Hk Hsplit He Hp Hc Hepc. rewrite !count_events_app. lia.
Qed.

Lemma node_ok_mono (tr more : list event) (n : SearchNode) :
  node_ok tr n -> node_ok (tr ++ more) n.
Proof.
  intros [Hc [Hr | Hin]]; split; auto.
  right. unfold constructed in *. apply in_or_app. now left.
Qed.

Lemma built_ok_mono (problem : string) (tr more : list event) (c : SearchNode) :
  built_ok problem tr c -> built_ok problem (tr ++ more) c.
Proof.
  intros (p & thought & Hc & Hp & Hk & Hin).
  exists p, thought.
  split; [exact Hc|]. split; [now apply node_ok_mono|].
  split; [exact Hk|]. apply in_or_app. now left.
Qed.

Lemma same_config_refl (s : TreeOfThoughtSolver) : same_config s s.
Proof. now repeat split. Qed.

Lemma same_config_trans (a b c : TreeOfThoughtSolver) :
  same_config a b -> same_config b c -> same_config a c.
Proof.
  intros (H1 & H2 & H3) (H4 & H5 & H6).
  repeat split; congruence.
Qed.

Lemma extends_refl (r : Run) : extends r r.
Proof.
  split; [apply same_config_refl|]. exists []. now rewrite app_nil_r.
Qed.

Lemma extends_trans (a b c : Run) : extends a b -> extends b c -> extends a c.
Proof.
  intros [Hs1 [m1 H1]] [Hs2 [m2 H2]]. split.
  - eapply same_config_trans; eauto.
  - exists (m1 ++ m2). now rewrite H2, H1, app_assoc.
Qed.

Lemma extends_node_ok (r r' : Run) (n : SearchNode) :
  extends r r' -> node_ok (trace r) n -> node_ok (trace r') n.
Proof. intros [_ [more ->]]. apply node_ok_mono. Qed.

(** ** One candidate *)

Lemma call_generate_spec (st problem : string) (n : Z) (r r' : Run)
  (thoughts : list string) :
  call_generate st problem n r = (thoughts, r') ->
  generate_thoughts st problem n (world r) = (thoughts, world r') /\
  self r' = self r /\
  trace r' = trace r ++ [EvGenerate st problem n thoughts].
Proof.
  unfold call_generate.
  destruct (generate_thoughts st problem n (world r)) as [ts w].
  intros H. inversion H; subst. simpl. auto.
Qed.

Lemma expand_thought_spec (problem : string) (node : SearchNode)
  (thought : string) (d : Z) (r r' : Run) (oc : option SearchNode) :
  expand_thought problem node thought d r = (oc, r') ->
  exists sc,
    evaluate (full_state_of node thought) problem (world r) = (sc, world r') /\
    same_config (self r) (self r') /\
    nodes_explored (self r') = nodes_explored (self r) + 1 /\
    match oc with
    | None =>
        PrimFloat.ltb sc prune_threshold = true /\
        trace r' = trace r ++ [EvEvaluate (full_state_of node thought) problem sc]
    | Some c =>
        PrimFloat.ltb sc prune_threshold = false /\
        c = make_child node thought sc d /\
        trace r' =
          trace r ++ [EvEvaluate (full_state_of node thought) problem sc; EvNode c]
    end.
Proof.
  unfold expand_thought, call_evaluate, count_node, log. simpl.
  destruct (evaluate (full_state_of node thought) problem (world r)) as [sc w].
  destruct (PrimFloat.ltb sc prune_threshold) eqn:Hk;
    intros [= <- <-]; simpl; exists sc.
  - repeat split; auto.
  - repeat split; auto. now rewrite <- app_assoc.
Qed.

Lemma expand_thought_inv (problem : string) (node : SearchNode)
  (thought : string) (d : Z) (r r' : Run) (oc : option SearchNode) :
  run_inv problem r ->
  node_ok (trace r) node ->
  d = depth node + 1 ->
  expand_thought problem node thought d r = (oc, r') ->
  run_inv problem r' /\ extends r r' /\
  forall c, oc = Some c -> node_ok (trace r') c /\ depth c = d.
Proof.
  intros (Hbuilt & Hcount & Hsplit) Hnode Hd H.
  apply expand_thought_spec in H.
  destruct H as (sc & _ & Hcfg & Hexp & Hoc).
  destruct oc as [c|].
  - destruct Hoc as (Hk & Hc & Htr).
    assert (Hnew : built_ok problem (trace r') c).
    { exists node, thought. rewrite Htr. subst c. simpl.
      split; [now subst d|]. split; [now apply node_ok_mono|].
      split; [exact Hk|]. rewrite full_path_child.
      apply in_or_app. right. now left. }
    assert (Hcounts := @counts_app (trace r)
              [EvEvaluate (full_state_of node thought) problem sc; EvNode c]
              1%nat 0%nat 1%nat _ Hcount Hsplit).
    rewrite <- Htr in Hcounts.
    destruct Hcounts as [Hc1 Hc2]; try reflexivity.
    { unfold pruned_evaluations, count_events. simpl. now rewrite Hk. }
    split; [split; [|split]|split].
    + intros c' Hc'. unfold constructed in Hc'. rewrite Htr in Hc'.
      apply in_app_or in Hc'. destruct Hc' as [Hold | Hnow].
      * rewrite Htr. apply built_ok_mono. now apply Hbuilt.
      * destruct Hnow as [Hnow | [Hnow | []]]; [discriminate|].
        injection Hnow as <-. exact Hnew.
    + now rewrite Hexp.
    + exact Hc2.
    + split; [exact Hcfg|]. eexists. exact Htr.
    + intros c' [= <-]. split.
      * split.
        -- subst c d. apply chain_child; [apply Hnode|exact Hk].
        -- right. unfold constructed. rewrite Htr.
           apply in_or_app. right. right. now left.
      * now subst c.
  - destruct Hoc as (Hk & Htr).
    assert (Hcounts := @counts_app (trace r)
              [EvEvaluate (full_state_of node thought) problem sc]
              1%nat 1%nat 0%nat _ Hcount Hsplit).
    rewrite <- Htr in Hcounts.
    destruct Hcounts as [Hc1 Hc2]; try reflexivity.
    { unfold pruned_evaluations, count_events. simpl. now rewrite Hk. }
    split; [split; [|split]|split].
    + intros c' Hc'. unfold constructed in Hc'. rewrite Htr in Hc'.
      apply in_app_or in Hc'. destruct Hc' as [Hold | [Hnow | []]];
        [|discriminate].
      rewrite Htr. apply built_ok_mono. now apply Hbuilt.
    + now rewrite Hexp.
    + exact Hc2.
    + split; [exact Hcfg|]. eexists. exact Htr.
    + intros c' [=].
Qed.

(** An event that is neither an evaluation nor a construction keeps the
    invariant. *)
Lemma run_inv_log (problem : string) (e : event) (r r' : Run) :
  run_inv problem r ->
  is_evaluation e = false ->
  is_construction e = false ->
  self r' = self r ->
  trace r' = trace r ++ [e] ->
  run_inv problem r' /\ extends r r'.
Proof.
  intros (Hbuilt & Hcount & Hsplit) He Hc Hself Htr.
  assert (Hcounts := @counts_app (trace r) [e] 0%nat 0%nat 0%nat _ Hcount Hsplit).
  rewrite <- Htr in Hcounts.
  destruct Hcounts as [Hc1 Hc2]; try reflexivity.
  { unfold evaluations, count_events. simpl. now rewrite He. }
  { unfold pruned_evaluations, count_events. simpl.
    destruct e; try reflexivity; discriminate. }
  { unfold constructions, count_events. simpl. now rewrite Hc. }
  split; [split; [|split]|split].
  - intros c Hin. unfold constructed in Hin. rewrite Htr in Hin.
    apply in_app_or in Hin. destruct Hin as [Hold | [Hnow | []]].
    + rewrite Htr. apply built_ok_mono. now apply Hbuilt.
    + subst e. discriminate.
  - rewrite Hself. rewrite <- Hc1. lia.
  - exact Hc2.
  - rewrite Hself. apply same_config_refl.
  - eexists. exact Htr.
Qed.

Lemma call_generate_inv (problem st : string) (n : Z) (r r' : Run)
  (thoughts : list string) :
  run_inv problem r ->
  call_generate st problem n r = (thoughts, r') ->
  run_inv problem r' /\ extends r r'.
Proof.
  intros Hinv H. apply call_generate_spec in H.
  destruct H as (_ & Hself & Htr).
  apply (@run_inv_log problem (EvGenerate st problem n thoughts) r r');
    auto.
Qed.

Lemma log_print_inv (problem : string) (level : Z) (k : nat) (r : Run) :
  run_inv problem r ->
  run_inv problem (log (EvPrint level k) r) /\ extends r (log (EvPrint level k) r).
Proof.
  intros Hinv.
  apply (@run_inv_log problem (EvPrint level k) r (log (EvPrint level k) r));
    auto.
Qed.

(** ** The sort and the beam *)

Lemma insert_desc_perm (x : SearchNode) (l : list SearchNode) :
  Permutation (insert_desc x l) (x :: l).
Proof.
  induction l as [|y ys IH]; simpl; [reflexivity|].
  destruct (PrimFloat.ltb (score x) (score y)).
  - rewrite IH. apply perm_swap.
  - reflexivity.
Qed.

Lemma sort_desc_perm (l : list SearchNode) : Permutation (sort_desc l) l.
Proof.
  induction l as [|x xs IH]; simpl; [reflexivity|].
  rewrite insert_desc_perm. now constructor.
Qed.

Lemma Forall_firstn (A : Type) (P : A -> Prop) (k : nat) (l : list A) :
  Forall P l -> Forall P (firstn k l).
Proof.
  intros H. apply Forall_forall. intros x Hx.
  rewrite Forall_forall in H. apply H.
  rewrite <- (firstn_skipn k l). apply in_or_app. now left.
Qed.

Lemma Forall_beam (P : SearchNode -> Prop) (l : list SearchNode) :
  Forall P l -> Forall P (firstn beam_width (sort_desc l)).
Proof.
  intros H. apply Forall_firstn.
  eapply Permutation_Forall; [|exact H].
  apply Permutation_sym, sort_desc_perm.
Qed.

(** ** Structure of the nodes held by [_bfs] *)

Lemma level_ok_extends (d : Z) (r r' : Run) (q : list SearchNode) :
  extends r r' -> level_ok d (trace r) q -> level_ok d (trace r') q.
Proof.
  intros He. apply Forall_impl. intros n [Hn Hd].
  split; [eapply extends_node_ok; eauto|exact Hd].
Qed.

Lemma bfs_thoughts_inv (problem : string) (node : SearchNode) (level : Z)
  (thoughts : list string) :
  forall (next_queue : list SearchNode) (r r' : Run) (fl : flow (list SearchNode)),
    run_inv problem r ->
    node_ok (trace r) node ->
    depth node = level ->
    level_ok (level + 1) (trace r) next_queue ->
    bfs_thoughts problem node level thoughts next_queue r = (fl, r') ->
    run_inv problem r' /\ extends r r' /\
    match fl with
    | Return c => node_ok (trace r') c
    | Next q => level_ok (level + 1) (trace r') q
    end.
Proof.
  induction thoughts as [|thought rest IH]; intros nq r r' fl Hinv Hnode Hd Hq H.
  - simpl in H. injection H as <- <-.
    split; [exact Hinv|]. split; [apply extends_refl|exact Hq].
  - simpl in H.
    destruct (expand_thought problem node thought (level + 1) r) as [oc r1] eqn:Hex.
    destruct (expand_thought_inv thought Hinv Hnode (eq_sym (f_equal (fun z => z + 1) Hd)) Hex)
      as (Hinv1 & Hext1 & Hoc).
    destruct oc as [child|].
    + destruct (Hoc child eq_refl) as [Hchild Hcd].
      destruct (PrimFloat.leb success_threshold (score child)).
      * injection H as <- <-. auto.
      * apply IH in H; auto.
        -- destruct H as (Hinv2 & Hext2 & Hfl).
           split; [exact Hinv2|]. split; [eapply extends_trans; eauto|exact Hfl].
        -- eapply extends_node_ok; eauto.
        -- apply Forall_app. split.
           ++ eapply level_ok_extends; eauto.
           ++ constructor; [|constructor]. auto.
    + apply IH in H; auto.
      * destruct H as (Hinv2 & Hext2 & Hfl).
        split; [exact Hinv2|]. split; [eapply extends_trans; eauto|exact Hfl].
      * eapply extends_node_ok; eauto.
      * eapply level_ok_extends; eauto.
Qed.

Lemma bfs_queue_inv (problem : string) (level : Z) (queue : list SearchNode) :
  forall (next_queue : list SearchNode) (r r' : Run) (fl : flow (list SearchNode)),
    run_inv problem r ->
    level_ok level (trace r) queue ->
    level_ok (level + 1) (trace r) next_queue ->
    bfs_queue problem level queue next_queue r = (fl, r') ->
    run_inv problem r' /\ extends r r' /\
    match fl with
    | Return c => node_ok (trace r') c
    | Next q => level_ok (level + 1) (trace r') q
    end.
Proof.
  induction queue as [|node rest IH]; intros nq r r' fl Hinv Hqueue Hnq H.
  - simpl in H. injection H as <- <-.
    split; [exact Hinv|]. split; [apply extends_refl|exact Hnq].
  - simpl in H. apply Forall_cons_iff in Hqueue.
    destruct Hqueue as [[Hnode Hd] Hrest].
    destruct (PrimFloat.leb success_threshold (score node)).
    { injection H as <- <-. split; [exact Hinv|]. split; [apply extends_refl|exact Hnode]. }
    destruct (call_generate (generator_state node) problem
                (branching_factor (self r)) r) as [thoughts r1] eqn:Hgen.
    destruct (call_generate_inv _ _ Hinv Hgen) as [Hinv1 Hext1].
    destruct (bfs_thoughts problem node level thoughts nq r1)
      as [fl2 r2] eqn:Hth.
    destruct (bfs_thoughts_inv thoughts Hinv1 (extends_node_ok Hext1 Hnode) Hd
                (level_ok_extends Hext1 Hnq) Hth) as (Hinv2 & Hext2 & Hfl2).
    destruct fl2 as [child | nq'].
    + injection H as <- <-.
      split; [exact Hinv2|]. split; [eapply extends_trans; eauto|exact Hfl2].
    + apply IH in H; auto.
      * destruct H as (Hinv3 & Hext3 & Hfl).
        split; [exact Hinv3|].
        split; [eapply extends_trans; [|exact Hext3]; eapply extends_trans; eauto|exact Hfl].
      * eapply level_ok_extends; [|exact Hrest]. eapply extends_trans; eauto.
Qed.

Lemma bfs_level_inv (problem : string) (level : Z) (queue : list SearchNode)
  (r r' : Run) (fl : flow (list SearchNode)) :
  run_inv problem r ->
  level_ok level (trace r) queue ->
  bfs_level problem level queue r = (fl, r') ->
  run_inv problem r' /\ extends r r' /\
  match fl with
  | Return c => node_ok (trace r') c
  | Next q => level_ok (level + 1) (trace r') q
  end.
Proof.
  intros Hinv Hqueue H. unfold bfs_level in H.
  destruct (log_print_inv level (List.length queue) Hinv) as [Hinv0 Hext0].
  destruct (bfs_queue problem level queue [] (log (EvPrint level (List.length queue)) r))
    as [fl1 r1] eqn:Hq.
  destruct (bfs_queue_inv Hinv0 (level_ok_extends Hext0 Hqueue)
              (Forall_nil _) Hq) as (Hinv1 & Hext1 & Hfl1).
  destruct fl1 as [c | nq]; injection H as <- <-.
  - split; [exact Hinv1|]. split; [eapply extends_trans; eauto|exact Hfl1].
  - split; [exact Hinv1|]. split; [eapply extends_trans; eauto|].
    now apply Forall_beam.
Qed.

Lemma bfs_levels_inv (problem : string) (m : nat) :
  forall (k : nat) (queue : list SearchNode) (r r' : Run) (res : option SearchNode),
    run_inv problem r ->
    level_ok (Z.of_nat k) (trace r) queue ->
    bfs_levels problem (map Z.of_nat (seq k m)) queue r = (res, r') ->
    run_inv problem r' /\ extends r r' /\
    match res with
    | Some n => node_ok (trace r') n
    | None => True
    end.
Proof.
  induction m as [|m IH]; intros k queue r r' res Hinv Hqueue H.
  - simpl in H. injection H as <- <-.
    split; [exact Hinv|]. split; [apply extends_refl|].
    destruct queue as [|n q]; simpl; [exact I|].
    apply Forall_cons_iff in Hqueue. apply Hqueue.
  - simpl in H.
    destruct (bfs_level problem (Z.of_nat k) queue r) as [fl r1] eqn:Hl.
    destruct (bfs_level_inv Hinv Hqueue Hl) as (Hinv1 & Hext1 & Hfl).
    destruct fl as [n | queue'].
    + injection H as <- <-. auto.
    + destruct queue' as [|n q].
      * injection H as <- <-. auto.
      * apply IH in H; auto.
        -- destruct H as (Hinv2 & Hext2 & Hres).
           split; [exact Hinv2|]. split; [eapply extends_trans; eauto|exact Hres].
        -- replace (Z.of_nat (S k)) with (Z.of_nat k + 1) by lia. exact Hfl.
Qed.

(** ** Structure of the nodes held by [_dfs] *)

Lemma stack_ok_extends (r r' : Run) (stack : list SearchNode) :
  extends r r' -> stack_ok (trace r) stack -> stack_ok (trace r') stack.
Proof.
  intros He. apply Forall_impl. intros n Hn. eapply extends_node_ok; eauto.
Qed.

Lemma dfs_push_inv (problem : string) (node : SearchNode)
  (thoughts : list string) :
  forall (stack stack' : list SearchNode) (r r' : Run),
    run_inv problem r ->
    node_ok (trace r) node ->
    stack_ok (trace r) stack ->
    dfs_push problem node thoughts stack r = (stack', r') ->
    run_inv problem r' /\ extends r r' /\ stack_ok (trace r') stack'.
Proof.
  induction thoughts as [|thought rest IH];
    intros stack stack' r r' Hinv Hnode Hstack H.
  - simpl in H. injection H as <- <-.
    split; [exact Hinv|]. split; [apply extends_refl|exact Hstack].
  - simpl in H.
    destruct (expand_thought problem node thought (depth node + 1) r)
      as [oc r1] eqn:Hex.
    destruct (expand_thought_inv thought Hinv Hnode eq_refl Hex)
      as (Hinv1 & Hext1 & Hoc).
    destruct oc as [child|].
    + destruct (Hoc child eq_refl) as [Hchild _].
      apply IH in H; auto.
      * destruct H as (Hinv2 & Hext2 & Hst).
        split; [exact Hinv2|]. split; [eapply extends_trans; eauto|exact Hst].
      * eapply extends_node_ok; eauto.
      * constructor; [exact Hchild|]. eapply stack_ok_extends; eauto.
    + apply IH in H; auto.
      * destruct H as (Hinv2 & Hext2 & Hst).
        split; [exact Hinv2|]. split; [eapply extends_trans; eauto|exact Hst].
      * eapply extends_node_ok; eauto.
      * eapply stack_ok_extends; eauto.
Qed.

Lemma dfs_iter_inv (problem : string) (node : SearchNode)
  (stack : list SearchNode) (best_node : SearchNode) (r r' : Run)
  (fl : flow (list SearchNode * SearchNode)) :
  run_inv problem r ->
  node_ok (trace r) node ->
  stack_ok (trace r) stack ->
  node_ok (trace r) best_node ->
  dfs_iter problem node stack best_node r = (fl, r') ->
  run_inv problem r' /\ extends r r' /\
  match fl with
  | Return n => node_ok (trace r') n
  | Next (stack', best') =>
      stack_ok (trace r') stack' /\ node_ok (trace r') best'
  end.
Proof.
  intros Hinv Hnode Hstack Hbest H. unfold dfs_iter in H.
  destruct (Z.ltb (max_depth (self r)) (depth node)).
  { injection H as <- <-. split; [exact Hinv|].
    split; [apply extends_refl|]. split; assumption. }
  destruct (PrimFloat.leb success_threshold (score node)).
  { injection H as <- <-. split; [exact Hinv|].
    split; [apply extends_refl|assumption]. }
  destruct (call_generate (generator_state node) problem
              (branching_factor (self r)) r) as [thoughts r1] eqn:Hgen.
  destruct (call_generate_inv _ _ Hinv Hgen) as [Hinv1 Hext1].
  destruct (dfs_push problem node (rev thoughts) stack r1) as [stack' r2] eqn:Hpush.
  eapply dfs_push_inv in Hpush;
    [|exact Hinv1|eapply extends_node_ok; eauto|eapply stack_ok_extends; eauto].
  destruct Hpush as (Hinv2 & Hext2 & Hst).
  injection H as <- <-.
  assert (Hext : extends r r2) by (eapply extends_trans; eauto).
  split; [exact Hinv2|]. split; [exact Hext|]. split; [exact Hst|].
  destruct (PrimFloat.ltb (score best_node) (score node));
    eapply extends_node_ok; eauto.
Qed.

Lemma dfs_loop_inv (problem : string) (fuel : nat) :
  forall (stack : list SearchNode) (best_node n : SearchNode) (r r' : Run),
    run_inv problem r ->
    stack_ok (trace r) stack ->
    node_ok (trace r) best_node ->
    dfs_loop fuel problem stack best_node r = Some (n, r') ->
    run_inv problem r' /\ extends r r' /\ node_ok (trace r') n.
Proof.
  induction fuel as [|fuel IH]; intros stack best n r r' Hinv Hstack Hbest H.
  - discriminate.
  - simpl in H. destruct stack as [|node stack].
    + injection H as <- <-. split; [exact Hinv|].
      split; [apply extends_refl|exact Hbest].
    + apply Forall_cons_iff in Hstack. destruct Hstack as [Hnode Hstack].
      destruct (dfs_iter problem node stack best r) as [fl r1] eqn:Hit.
      eapply dfs_iter_inv in Hit; eauto.
      destruct Hit as (Hinv1 & Hext1 & Hfl).
      destruct fl as [m | [stack' best']].
      * injection H as <- <-. auto.
      * destruct Hfl as [Hst Hb]. apply IH in H; auto.
        destruct H as (Hinv2 & Hext2 & Hn).
        split; [exact Hinv2|]. split; [eapply extends_trans; eauto|exact Hn].
Qed.

(** ** Termination of [_dfs] *)

Lemma dfs_loop_fuel_mono (problem : string) (fuel : nat) :
  forall (extra : nat) (stack : list SearchNode) (best_node : SearchNode)
         (r : Run) (res : SearchNode * Run),
    dfs_loop fuel problem stack best_node r = Some res ->
    dfs_loop (fuel + extra) problem stack best_node r = Some res.
Proof.
  induction fuel as [|fuel IH]; intros extra stack best r res H.
  - discriminate.
  - simpl in *. destruct stack as [|node stack]; [exact H|].
    destruct (dfs_iter problem node stack best r) as [[m | [stack' best']] r1];
      [exact H|]. now apply IH.
Qed.

Lemma dfs_push_shape (problem : string) (node : SearchNode)
  (thoughts : list string) :
  forall (stack stack' : list SearchNode) (r r' : Run),
    dfs_push problem node thoughts stack r = (stack', r') ->
    same_config (self r) (self r') /\
    exists children,
      stack' = children ++ stack /\
      Forall (fun c => depth c = depth node + 1) children.
Proof.
  induction thoughts as [|thought rest IH]; intros stack stack' r r' H.
  - simpl in H. injection H as <- <-.
    split; [apply same_config_refl|]. exists []. split; [reflexivity|constructor].
  - simpl in H.
    destruct (expand_thought problem node thought (depth node + 1) r)
      as [oc r1] eqn:Hex.
    apply expand_thought_spec in Hex.
    destruct Hex as (sc & _ & Hcfg & _ & Hoc).
    destruct oc as [child|]; apply IH in H; destruct H as (Hcfg2 & cs & -> & Hcs).
    + destruct Hoc as (_ & -> & _).
      split; [eapply same_config_trans; eauto|].
      exists (cs ++ [make_child node thought sc (depth node + 1)]).
      split; [now rewrite <- app_assoc|].
      apply Forall_app. split; [exact Hcs|]. constructor; [reflexivity|constructor].
    + split; [eapply same_config_trans; eauto|].
      exists cs. split; [reflexivity|exact Hcs].
Qed.

Lemma dfs_node_terminates (problem : string) (bound : Z) (k : nat) :
  forall (node : SearchNode) (rest : list SearchNode),
    bound - depth node < Z.of_nat k ->
    terminates problem bound rest ->
    terminates problem bound (node :: rest).
Proof.
  induction k as [|k IH]; intros node rest Hk Hrest best r Hb.
  - destruct (Hrest best r Hb) as (fuel & res & Hres).
    exists (S fuel), res. simpl. unfold dfs_iter.
    replace (Z.ltb (max_depth (self r)) (depth node)) with true
      by (symmetry; apply Z.ltb_lt; lia).
    exact Hres.
  - unfold terminates in *.
    assert (Hstep : forall fl r1,
               dfs_iter problem node rest best r = (fl, r1) ->
               exists fuel res,
                 match fl with
                 | Return n => Some (n, r1)
                 | Next (stack'', best') => dfs_loop fuel problem stack'' best' r1
                 end = Some res).
    { intros fl r1 Hit. unfold dfs_iter in Hit.
      destruct (Z.ltb (max_depth (self r)) (depth node)) eqn:Hskip.
      { injection Hit as <- <-. apply Hrest. exact Hb. }
      destruct (PrimFloat.leb success_threshold (score node)).
      { injection Hit as <- <-. exists O. eexists. reflexivity. }
      destruct (call_generate (generator_state node) problem
                  (branching_factor (self r)) r) as [thoughts r0] eqn:Hgen.
      apply call_generate_spec in Hgen. destruct Hgen as (_ & Hself & _).
      destruct (dfs_push problem node (rev thoughts) rest r0)
        as [stack' r2] eqn:Hpush.
      apply dfs_push_shape in Hpush.
      destruct Hpush as ((_ & Hmd & _) & cs & -> & Hcs).
      injection Hit as <- <-.
      assert (Hb2 : max_depth (self r2) = bound) by congruence.
      clear - IH Hrest Hk Hcs Hb2 Hskip Hb.
      apply Z.ltb_ge in Hskip.
      revert r2 Hb2.
      generalize (if PrimFloat.ltb (score best) (score node) then node else best).
      induction cs as [|c cs IHcs]; intros b r2 Hb2.
      - simpl. apply Hrest. exact Hb2.
      - apply Forall_cons_iff in Hcs. destruct Hcs as [Hc Hcs].
        simpl. apply (IH c (cs ++ rest)); [lia| |exact Hb2].
        intros b' r' Hb'. apply IHcs; assumption. }
    destruct (dfs_iter problem node rest best r) as [fl r1] eqn:Hit.
    destruct (Hstep fl r1 eq_refl) as (fuel & res & Hres).
    exists (S fuel), res. simpl. rewrite Hit.
    destruct fl as [n | [stack'' best']]; exact Hres.
Qed.

Lemma dfs_stack_terminates (problem : string) (bound : Z)
  (stack : list SearchNode) : terminates problem bound stack.
Proof.
  induction stack as [|node rest IH].
  - intros best r _. exists 1%nat. eexists. reflexivity.
  - apply (@dfs_node_terminates problem bound
             (Z.to_nat (bound - depth node + 1) + 1)); [lia|exact IH].
Qed.

(** ** The states a run goes through *)

Lemma start_inv (problem : string) (s : TreeOfThoughtSolver) (w : W) :
  run_inv problem (start s w).
Proof.
  split; [|split]; try reflexivity.
  intros c [].
Qed.

Lemma root_node_ok (tr : list event) : node_ok tr root.
Proof. split; [apply chain_root|now left]. Qed.

Lemma bfs_frontier_inv (problem : string) (r0 : Run) (k : nat)
  (queue : list SearchNode) (r : Run) :
  run_inv problem r0 ->
  bfs_frontier problem r0 k queue r ->
  run_inv problem r /\ extends r0 r /\ level_ok (Z.of_nat k) (trace r) queue.
Proof.
  intros H0 Hf. induction Hf as [|k queue queue' r r' Hf IH Hk Hne Hl].
  - split; [exact H0|]. split; [apply extends_refl|].
    constructor; [|constructor]. split; [apply root_node_ok|reflexivity].
  - destruct IH as (Hinv & Hext & Hq).
    eapply bfs_level_inv in Hl; eauto.
    destruct Hl as (Hinv' & Hext' & Hq').
    split; [exact Hinv'|]. split; [eapply extends_trans; eauto|].
    replace (Z.of_nat (S k)) with (Z.of_nat k + 1) by lia. exact Hq'.
Qed.

(** The run of [_bfs] continues from each of its frontiers. *)
Lemma bfs_frontier_run (problem : string) (r0 : Run) (k : nat)
  (queue : list SearchNode) (r : Run) :
  bfs_frontier problem r0 k queue r ->
  queue <> [] ->
  forall m,
    bfs_levels problem (map Z.of_nat (seq 0 (k + m))) [root] r0 =
    bfs_levels problem (map Z.of_nat (seq k m)) queue r.
Proof.
  intros Hf. induction Hf as [|k queue queue' r r' Hf IH Hk Hne Hl];
    intros Hq m.
  - reflexivity.
  - replace (S k + m)%nat with (k + S m)%nat by lia.
    rewrite (IH Hne (S m)). cbn [seq map bfs_levels]. rewrite Hl.
    destruct queue' as [|a q]; [now contradiction Hq|reflexivity].
Qed.

Lemma dfs_state_inv (problem : string) (r0 : Run) (stack : list SearchNode)
  (best : SearchNode) (r : Run) :
  run_inv problem r0 ->
  dfs_state problem r0 stack best r ->
  run_inv problem r /\ extends r0 r /\
  stack_ok (trace r) stack /\ node_ok (trace r) best.
Proof.
  intros H0 Hs.
  induction Hs as [|node stack stack' best best' r r' Hs IH Hit].
  - split; [exact H0|]. split; [apply extends_refl|].
    split; [constructor; [apply root_node_ok|constructor]|apply root_node_ok].
  - destruct IH as (Hinv & Hext & Hst & Hb).
    apply Forall_cons_iff in Hst. destruct Hst as [Hnode Hst].
    eapply dfs_iter_inv in Hit; eauto.
    destruct Hit as (Hinv' & Hext' & Hst' & Hb').
    split; [exact Hinv'|]. split; [eapply extends_trans; eauto|].
    split; assumption.
Qed.

Lemma same_config_set (s : TreeOfThoughtSolver) (k : Z) :
  same_config s (set_nodes_explored s k).
Proof. now repeat split. Qed.

(** What every completed call of [solve] satisfies. *)
Lemma solve_inv (fuel : nat) (s : TreeOfThoughtSolver) (problem : string)
  (w : W) (t0 t1 : float) (res : result) (r' : Run) :
  solve fuel s problem w t0 t1 = Some (res, r') ->
  run_inv problem r' /\ same_config s (self r') /\
  match res with
  | Returns o => reported (trace r') (self r') o
  | Raises e =>
      e = ValueError (String.append "Unknown strategy: " (strategy s)) /\
      r' = start s w
  end.
Proof.
  unfold solve. intros H.
  assert (H0 := start_inv problem s w).
  destruct (String.eqb (strategy s) "bfs").
  - destruct (bfs root problem (start s w)) as [rn r1] eqn:Hb.
    injection H as <- <-.
    unfold bfs, range in Hb.
    eapply bfs_levels_inv in Hb; eauto.
    + destruct Hb as (Hinv & [Hcfg _] & Hn).
      split; [exact Hinv|]. split; [exact Hcfg|].
      destruct rn as [n|]; simpl.
      * exists n. repeat split; auto; apply Hn.
      * now split.
    + constructor; [|constructor]. split; [apply root_node_ok|reflexivity].
  - destruct (String.eqb (strategy s) "dfs").
    + destruct (dfs fuel root problem (start s w)) as [[n r1]|] eqn:Hd;
        [|discriminate].
      injection H as <- <-.
      unfold dfs in Hd.
      eapply dfs_loop_inv in Hd; eauto.
      * destruct Hd as (Hinv & [Hcfg _] & Hn).
        split; [exact Hinv|]. split; [exact Hcfg|].
        exists n. repeat split; auto; apply Hn.
      * constructor; [apply root_node_ok|constructor].
      * apply root_node_ok.
    + injection H as <- <-.
      split; [exact H0|]. split; [apply same_config_set|]. now split.
Qed.

Lemma chain_ok_path_kept (n : SearchNode) :
  chain_ok n -> Forall kept (n :: ancestors n).
Proof.
  intros H. constructor; [now apply chain_ok_kept|].
  eapply Forall_impl; [|apply chain_ok_ancestors; exact H].
  intros a. apply chain_ok_kept.
Qed.

Lemma built_ok_parent (problem : string) (tr : list event) (c : SearchNode) :
  built_ok problem tr c ->
  exists p,
    parent c = Some p /\ node_ok tr p /\
    depth c = depth p + 1 /\
    path_history c = path_history p ++ [state p] /\
    get_full_path c = full_state_of p (state c).
Proof.
  intros (p & thought & Hc & Hp & _ & _). exists p.
  rewrite Hc. simpl. repeat split; auto.
  - apply Hp.
  - apply Hp.
  - apply full_path_child.
Qed.

(** X1. Every call of [solve] terminates: with enough fuel for the [while]
    of [_dfs], and with any more, it returns an outcome or raises. *)
Lemma solve_terminates (s : TreeOfThoughtSolver) (problem : string) (w : W)
  (t0 t1 : float) :
  exists fuel, forall extra,
    exists res r', solve (fuel + extra) s problem w t0 t1 = Some (res, r').
Proof.
  unfold solve.
  destruct (String.eqb (strategy s) "bfs").
  - exists O. intros extra.
    destruct (bfs root problem (start s w)) as [rn r1]. eauto.
  - destruct (String.eqb (strategy s) "dfs").
    + destruct (@dfs_stack_terminates problem (max_depth s) [root] root
                  (start s w) eq_refl) as (fuel & [n r1] & Hres).
      exists fuel. intros extra. unfold dfs.
      apply dfs_loop_fuel_mono with (extra := extra) in Hres.
      rewrite Hres. eauto.
    + exists O. intros extra. eauto.
Qed.

(** ** Early termination in [_bfs] *)

Lemma evals_below_app (a b : list event) :
  evals_below a -> evals_below b -> evals_below (a ++ b).
Proof.
  intros Ha Hb fs p sc Hin. apply in_app_or in Hin.
  destruct Hin; [eapply Ha|eapply Hb]; eauto.
Qed.

Lemma evals_below_nil : evals_below [].
Proof. intros fs p sc []. Qed.

Lemma bfs_thoughts_success (problem : string) (node : SearchNode) (level : Z)
  (thoughts : list string) :
  forall (next_queue : list SearchNode) (r r' : Run) (fl : flow (list SearchNode)),
    evals_below (trace r) ->
    Forall below_success next_queue ->
    bfs_thoughts problem node level thoughts next_queue r = (fl, r') ->
    bfs_flow_ok problem fl r'.
Proof.
  induction thoughts as [|thought rest IH]; intros nq r r' fl Hev Hnq H.
  - simpl in H. injection H as <- <-. split; assumption.
  - simpl in H.
    destruct (expand_thought problem node thought (level + 1) r)
      as [oc r1] eqn:Hex.
    apply expand_thought_spec in Hex.
    destruct Hex as (sc & _ & _ & _ & Hoc).
    destruct oc as [child|].
    + destruct Hoc as (_ & Hc & Htr).
      assert (Hsc : score child = sc) by now subst child.
      assert (Hfp : get_full_path child = full_state_of node thought)
        by (subst child; apply full_path_child).
      destruct (PrimFloat.leb success_threshold (score child)) eqn:Hs.
      * injection H as <- <-. exists (trace r).
        rewrite Htr, Hfp, Hsc. repeat split; auto. now rewrite <- Hsc.
      * eapply IH in H; eauto.
        -- rewrite Htr. apply evals_below_app; [exact Hev|].
           intros fs p sc' [Hin | [Hin | []]]; [|discriminate].
           injection Hin as _ _ <-. now rewrite <- Hsc.
        -- apply Forall_app. split; [exact Hnq|].
           constructor; [exact Hs|constructor].
    + destruct Hoc as (Hk & Htr).
      eapply IH in H; eauto.
      rewrite Htr. apply evals_below_app; [exact Hev|].
      intros fs p sc' [Hin | []]. injection Hin as _ _ <-.
      now apply pruned_below_success.
Qed.

Lemma bfs_queue_success (problem : string) (level : Z)
  (queue : list SearchNode) :
  forall (next_queue : list SearchNode) (r r' : Run) (fl : flow (list SearchNode)),
    evals_below (trace r) ->
    Forall below_success queue ->
    Forall below_success next_queue ->
    bfs_queue problem level queue next_queue r = (fl, r') ->
    bfs_flow_ok problem fl r'.
Proof.
  induction queue as [|node rest IH]; intros nq r r' fl Hev Hq Hnq H.
  - simpl in H. injection H as <- <-. split; assumption.
  - simpl in H. apply Forall_cons_iff in Hq. destruct Hq as [Hnode Hrest].
    unfold below_success in Hnode. rewrite Hnode in H.
    destruct (call_generate (generator_state node) problem
                (branching_factor (self r)) r) as [thoughts r1] eqn:Hgen.
    apply call_generate_spec in Hgen. destruct Hgen as (_ & _ & Htr).
    assert (Hev1 : evals_below (trace r1)).
    { rewrite Htr. apply evals_below_app; [exact Hev|].
      intros fs p sc [Hin | []]. discriminate. }
    destruct (bfs_thoughts problem node level thoughts nq r1)
      as [fl2 r2] eqn:Hth.
    eapply bfs_thoughts_success in Hth; eauto.
    destruct fl2 as [child | nq'].
    + injection H as <- <-. exact Hth.
    + destruct Hth as [Hev2 Hnq']. eapply IH in H; eauto.
Qed.

Lemma bfs_level_success (problem : string) (level : Z)
  (queue : list SearchNode) (r r' : Run) (fl : flow (list SearchNode)) :
  evals_below (trace r) ->
  Forall below_success queue ->
  bfs_level problem level queue r = (fl, r') ->
  bfs_flow_ok problem fl r'.
Proof.
  intros Hev Hq H. unfold bfs_level in H.
  destruct (bfs_queue problem level queue []
              (log (EvPrint level (List.length queue)) r)) as [fl1 r1] eqn:Hbq.
  eapply bfs_queue_success in Hbq; eauto.
  - destruct fl1 as [c | nq]; injection H as <- <-; [exact Hbq|].
    destruct Hbq as [Hev1 Hnq]. split; [exact Hev1|now apply Forall_beam].
  - simpl. apply evals_below_app; [exact Hev|].
    intros fs p sc [Hin | []]. discriminate.
Qed.

Lemma bfs_levels_success (problem : string) (levels : list Z) :
  forall (queue : list SearchNode) (r r' : Run) (res : option SearchNode),
    evals_below (trace r) ->
    Forall below_success queue ->
    bfs_levels problem levels queue r = (res, r') ->
    (exists c, res = Some c /\ bfs_flow_ok problem (Return c) r') \/
    (evals_below (trace r') /\ forall n, res = Some n -> below_success n).
Proof.
  induction levels as [|level rest IH]; intros queue r r' res Hev Hq H.
  - simpl in H. injection H as <- <-. right. split; [exact Hev|].
    intros n Hn. destruct queue as [|a q]; [discriminate|].
    injection Hn as <-. now apply Forall_cons_iff in Hq.
  - simpl in H.
    destruct (bfs_level problem level queue r) as [fl r1] eqn:Hl.
    eapply bfs_level_success in Hl; eauto.
    destruct fl as [c | queue'].
    + injection H as <- <-. left. exists c. split; [reflexivity|exact Hl].
    + destruct Hl as [Hev1 Hq1]. destruct queue' as [|a q].
      * injection H as <- <-. right. split; [exact Hev1|]. intros n [=].
      * eapply IH in H; eauto.
Qed.

(** An element that occurs once in a list fixes the split around it. *)
Lemma split_unique (A : Type) (e e' : A) (pre : list A) :
  forall (pre' post post' : list A),
    pre ++ e :: post = pre' ++ e' :: post' ->
    ~ In e pre' -> ~ In e post' ->
    pre = pre' /\ e = e' /\ post = post'.
Proof.
  induction pre as [|a pre IH]; intros pre' post post' H Hpre Hpost.
  - destruct pre' as [|x pre'].
    + injection H as -> ->. auto.
    + injection H as -> _. exfalso. apply Hpre. now left.
  - destruct pre' as [|x pre'].
    + simpl in H. injection H as _ H. exfalso. apply Hpost.
      rewrite <- H. apply in_or_app. right. now left.
    + simpl in H. injection H as -> H.
      apply IH in H.
      * destruct H as (-> & -> & ->). auto.
      * intros Hin. apply Hpre. now right.
      * exact Hpost.
Qed.

(** ** Early termination in [_dfs] *)

Lemma dfs_pop_success (fuel : nat) (problem : string) (node : SearchNode)
  (stack : list SearchNode) (best : SearchNode) (r : Run) :
  depth node <= max_depth (self r) ->
  PrimFloat.leb success_threshold (score node) = true ->
  dfs_loop (S fuel) problem (node :: stack) best r = Some (node, r).
Proof.
  intros Hd Hs. simpl. unfold dfs_iter.
  replace (Z.ltb (max_depth (self r)) (depth node)) with false
    by (symmetry; apply Z.ltb_ge; lia).
  now rewrite Hs.
Qed.

(** A result of the loop from a state of the run is a result of the run. *)
Lemma dfs_state_result (problem : string) (r0 : Run)
  (stack : list SearchNode) (best : SearchNode) (r : Run) :
  dfs_state problem r0 stack best r ->
  forall (fuel : nat) (res : SearchNode * Run),
    dfs_loop fuel problem stack best r = Some res ->
    exists fuel0, dfs_loop fuel0 problem [root] root r0 = Some res.
Proof.
  intros Hs.
  induction Hs as [|node stack stack' best best' r r' Hs IH Hit];
    intros fuel res H.
  - now exists fuel.
  - apply (IH (S fuel)). simpl. now rewrite Hit.
Qed.

(** ** A root whose expansion creates no child *)

Lemma expand_thought_pruned (problem : string) (node : SearchNode)
  (thought : string) (d : Z) (r : Run) (sc : float) (w' : W) :
  evaluate (full_state_of node thought) problem (world r) = (sc, w') ->
  PrimFloat.ltb sc prune_threshold = true ->
  expand_thought problem node thought d r =
    (None,
     mkRun (set_nodes_explored (self r) (nodes_explored (self r) + 1)) w'
           (trace r ++ [EvEvaluate (full_state_of node thought) problem sc])).
Proof.
  intros Hev Hk. unfold expand_thought, call_evaluate, count_node. simpl.
  now rewrite Hev, Hk.
Qed.

Lemma constructions_snoc_evaluate (tr : list event) (fs p : string)
  (sc : float) :
  constructions (tr ++ [EvEvaluate fs p sc]) = constructions tr.
Proof.
  unfold constructions. rewrite count_events_app.
  unfold count_events. simpl. lia.
Qed.

Lemma bfs_thoughts_all_pruned (problem : string) (node : SearchNode)
  (level : Z) (thoughts : list string) :
  forall (next_queue : list SearchNode) (r : Run),
    all_pruned problem node thoughts (world r) = true ->
    exists r',
      bfs_thoughts problem node level thoughts next_queue r =
        (Next next_queue, r') /\
      nodes_explored (self r') =
        nodes_explored (self r) + Z.of_nat (List.length thoughts) /\
      constructions (trace r') = constructions (trace r).
Proof.
  induction thoughts as [|thought rest IH]; intros nq r Hall.
  - exists r. simpl. repeat split; auto. lia.
  - simpl in Hall.
    destruct (evaluate (full_state_of node thought) problem (world r))
      as [sc w'] eqn:Hev.
    apply andb_prop in Hall. destruct Hall as [Hk Hall].
    simpl. rewrite (@expand_thought_pruned problem node thought _ r sc w' Hev Hk).
    match goal with |- context [bfs_thoughts _ _ _ _ _ ?r1] =>
      destruct (IH nq r1 Hall) as (r' & Hb & Hn & Hc) end.
    exists r'. split; [exact Hb|]. split.
    + rewrite Hn. simpl. lia.
    + rewrite Hc. simpl. apply constructions_snoc_evaluate.
Qed.

Lemma dfs_push_all_pruned (problem : string) (node : SearchNode)
  (thoughts : list string) :
  forall (stack : list SearchNode) (r : Run),
    all_pruned problem node thoughts (world r) = true ->
    exists r',
      dfs_push problem node thoughts stack r = (stack, r') /\
      nodes_explored (self r') =
        nodes_explored (self r) + Z.of_nat (List.length thoughts) /\
      constructions (trace r') = constructions (trace r).
Proof.
  induction thoughts as [|thought rest IH]; intros stack r Hall.
  - exists r. simpl. repeat split; auto. lia.
  - simpl in Hall.
    destruct (evaluate (full_state_of node thought) problem (world r))
      as [sc w'] eqn:Hev.
    apply andb_prop in Hall. destruct Hall as [Hk Hall].
    simpl. rewrite (@expand_thought_pruned problem node thought _ r sc w' Hev Hk).
    match goal with |- context [dfs_push _ _ _ _ ?r1] =>
      destruct (IH stack r1 Hall) as (r' & Hb & Hn & Hc) end.
    exists r'. split; [exact Hb|]. split.
    + rewrite Hn. simpl. lia.
    + rewrite Hc. simpl. apply constructions_snoc_evaluate.
Qed.

(** ** The sort is a stable descending sort *)





(** ** The root expanded without a child *)

Lemma generator_state_root : generator_state root = EmptyString.
Proof. reflexivity. Qed.

Lemma bfs_thoughts_config (problem : string) (node : SearchNode) (level : Z)
  (thoughts : list string) :
  forall (next_queue : list SearchNode) (r r' : Run) (fl : flow (list SearchNode)),
    bfs_thoughts problem node level thoughts next_queue r = (fl, r') ->
    same_config (self r) (self r').
Proof.
  induction thoughts as [|thought rest IH]; intros nq r r' fl H.
  - simpl in H. injection H as _ <-. apply same_config_refl.
  - simpl in H.
    destruct (expand_thought problem node thought (level + 1) r)
      as [oc r1] eqn:Hex.
    apply expand_thought_spec in Hex. destruct Hex as (sc & _ & Hcfg & _ & _).
    destruct oc as [child|].
    + destruct (PrimFloat.leb success_threshold (score child)).
      * injection H as _ <-. exact Hcfg.
      * apply IH in H. eapply same_config_trans; eauto.
    + apply IH in H. eapply same_config_trans; eauto.
Qed.

Lemma constructions_snoc_generate (tr : list event) (st p : string) (n : Z)
  (ts : list string) :
  constructions (tr ++ [EvGenerate st p n ts]) = constructions tr.
Proof.
  unfold constructions. rewrite count_events_app.
  unfold count_events. simpl. lia.
Qed.

Lemma constructions_snoc_print (tr : list event) (level : Z) (k : nat) :
  constructions (tr ++ [EvPrint level k]) = constructions tr.
Proof.
  unfold constructions. rewrite count_events_app.
  unfold count_events. simpl. lia.
Qed.

(** [_dfs] from the root when the expansion of the root, if any, creates no
    child: the loop ends after one pass with [best_node] still the root. *)
Lemma dfs_root_without_child (problem : string) (r : Run) (fuel : nat) :
  (0 <= max_depth (self r) ->
   no_child_of_root problem (branching_factor (self r)) (world r)
     (@rev string) = true) ->
  exists r',
    dfs (S (S fuel)) root problem r = Some (root, r') /\
    same_config (self r) (self r') /\
    constructions (trace r') = constructions (trace r).
Proof.
  intros Hno. unfold dfs. cbn [dfs_loop]. unfold dfs_iter.
  change (depth root) with 0.
  destruct (Z.ltb (max_depth (self r)) 0) eqn:Hskip.
  - exists r. split; [reflexivity|]. split; [apply same_config_refl|reflexivity].
  - apply Z.ltb_ge in Hskip. specialize (Hno Hskip).
    rewrite root_below_success, generator_state_root.
    unfold no_child_of_root in Hno. unfold call_generate.
    destruct (generate_thoughts "" problem (branching_factor (self r)) (world r))
      as [thoughts w1].
    match goal with |- context [dfs_push _ _ _ _ ?r1] =>
      destruct (@dfs_push_all_pruned problem root (rev thoughts) [] r1 Hno)
        as (r' & Hpush & _ & Hc) end.
    rewrite Hpush. exists r'. split; [reflexivity|]. split.
    + apply dfs_push_shape in Hpush. apply Hpush.
    + rewrite Hc. cbn [trace]. apply constructions_snoc_generate.
Qed.

(** [_bfs] from the root when the first level creates no child: the frontier
    is empty after the first pass and the result is [None]. *)
Lemma bfs_root_without_child (problem : string) (r : Run) :
  1 <= max_depth (self r) ->
  no_child_of_root problem (branching_factor (self r)) (world r)
    (fun l => l) = true ->
  exists r',
    bfs root problem r = (None, r') /\
    same_config (self r) (self r') /\
    constructions (trace r') = constructions (trace r).
Proof.
  intros Hd Hno. unfold bfs, range.
  destruct (Z.to_nat (max_depth (self r))) as [|m] eqn:Hm; [lia|].
  cbn [seq map bfs_levels]. unfold bfs_level. cbn [bfs_queue].
  rewrite root_below_success, generator_state_root.
  unfold no_child_of_root in Hno. unfold call_generate, log. cbn [self world trace].
  destruct (generate_thoughts "" problem (branching_factor (self r)) (world r))
    as [thoughts w1].
  match goal with |- context [bfs_thoughts _ _ _ _ _ ?r1] =>
    destruct (@bfs_thoughts_all_pruned problem root (Z.of_nat 0) thoughts [] r1 Hno)
      as (r' & Hb & _ & Hc);
    assert (Hcfg : same_config (self r1) (self r'))
      by (eapply bfs_thoughts_config; eauto)
  end.
  rewrite Hb. exists r'. split; [reflexivity|]. split.
  - exact Hcfg.
  - rewrite Hc. cbn [trace].
    now rewrite constructions_snoc_generate, constructions_snoc_print.
Qed.

(** * The claims *)

(** C5. A candidate evaluated below the prune threshold never becomes a
    [SearchNode]: every node of a breadth-first frontier, of the depth-first
    stack (and its best node), every node constructed during a call of
    [solve] and every node on the returned solution path has a score that is
    not below the threshold, the score being the one the evaluator returned
    for the node's full path. Pruned candidates show only in
    [nodes_explored], which counts the pruned evaluations and the
    constructed nodes together. *)
Theorem pruned_candidates_leave_no_node (s : TreeOfThoughtSolver)
  (problem : string) (w : W) :
  (forall k queue r,
      bfs_frontier problem (start s w) k queue r -> Forall kept queue) /\
  (forall stack best r,
      dfs_state problem (start s w) stack best r ->
      Forall kept stack /\ kept best) /\
  (forall fuel t0 t1 res r',
      solve fuel s problem w t0 t1 = Some (res, r') ->
      (forall c, constructed (trace r') c ->
         kept c /\
         In (EvEvaluate (get_full_path c) problem (score c)) (trace r')) /\
      (forall sol sc d k dur,
         res = Returns (Solved sol sc d k dur) ->
         exists n,
           sol = get_full_path n /\ sc = score n /\
           Forall kept (n :: ancestors n)) /\
      nodes_explored (self r') =
        Z.of_nat (pruned_evaluations (trace r') + constructions (trace r')) /\
      forall o, res = Returns o ->
        match o with
        | Solved _ _ _ k _ | Failed _ k _ => k = nodes_explored (self r')
        end).
Proof.
  split; [|split].
  - intros k queue r Hf.
    apply bfs_frontier_inv in Hf; [|apply start_inv].
    destruct Hf as (_ & _ & Hq).
    eapply Forall_impl; [|exact Hq].
    intros n [[Hn _] _]. now apply chain_ok_kept.
  - intros stack best r Hs.
    apply dfs_state_inv in Hs; [|apply start_inv].
    destruct Hs as (_ & _ & Hst & Hb). split.
    + eapply Forall_impl; [|exact Hst]. intros n [Hn _]. now apply chain_ok_kept.
    + apply chain_ok_kept, Hb.
  - intros fuel t0 t1 res r' H. apply solve_inv in H.
    destruct H as ((Hbuilt & Hcount & Hsplit) & _ & Hres).
    split; [|split; [|split]].
    + intros c Hc. destruct (Hbuilt c Hc) as (p & thought & _ & _ & Hk & Hin).
      split; assumption.
    + intros sol sc d k dur ->. simpl in Hres.
      destruct Hres as (n & [Hn _] & -> & -> & _).
      exists n. repeat split. now apply chain_ok_path_kept.
    + now rewrite Hcount, Hsplit.
    + intros o ->. simpl in Hres. destruct o as [sol sc d k dur | reason k dur].
      * destruct Hres as (n & _ & _ & _ & _ & Hk). exact Hk.
      * apply Hres.
Qed.

(** C7. Every [SearchNode] constructed during a call of [solve], in either
    traversal, is a child of the root or of a node constructed in the same
    call: its depth is its parent's depth plus one, its [path_history] is its
    parent's [path_history] with the parent's state appended, its score is
    the value the evaluator returned for its full path (nothing changes it
    afterwards: the node reported by [solve] carries it), and
    [get_full_path] is the newline-joined [path_history] followed by the
    node's own state, that is the parent's full path, a newline and the
    state. *)
Theorem constructed_nodes_are_well_formed (fuel : nat)
  (s : TreeOfThoughtSolver) (problem : string) (w : W) (t0 t1 : float)
  (res : result) (r' : Run) :
  solve fuel s problem w t0 t1 = Some (res, r') ->
  (forall c, constructed (trace r') c ->
     exists p, child_of problem (trace r') c p) /\
  (forall sol sc d k dur,
     res = Returns (Solved sol sc d k dur) ->
     exists n,
       (n = root \/ constructed (trace r') n) /\
       sol = get_full_path n /\ sc = score n /\ d = depth n /\
       d = Z.of_nat (List.length (ancestors n)) /\
       Forall (fun a => 0 <= depth a < d) (ancestors n)).
Proof.
  intros H. apply solve_inv in H.
  destruct H as ((Hbuilt & _ & _) & _ & Hres). split.
  - intros c Hc. specialize (Hbuilt c Hc).
    destruct (built_ok_parent Hbuilt) as (p & Hp & Hnode & Hd & Hh & Hf).
    destruct Hbuilt as (_ & _ & _ & _ & _ & Hin).
    exists p. unfold child_of. repeat split; auto. apply Hnode.
  - intros sol sc d k dur ->. simpl in Hres.
    destruct Hres as (n & [Hn Hc] & -> & -> & -> & _).
    exists n. repeat split; auto.
    + rewrite (chain_ok_depth Hn), (chain_ok_history Hn).
      now rewrite length_rev, length_map.
    + now apply chain_ok_ancestors_depth.
Qed.

(** [solve] in depth mode when the expansion of the root creates no child. *)
Lemma solve_dfs_root_without_child (fuel : nat) (s : TreeOfThoughtSolver)
  (problem : string) (w : W) (t0 t1 : float) :
  strategy s = "dfs"%string ->
  no_child_of_root problem (branching_factor s) w (@rev string) = true ->
  exists r',
    solve (S (S fuel)) s problem w t0 t1 =
      Some (Returns (Solved "Start" 0.5%float 0
                       (nodes_explored (self r')) (PrimFloat.sub t1 t0)), r') /\
    constructions (trace r') = 0%nat.
Proof.
  intros Hs Hno. unfold solve. rewrite Hs.
  replace (String.eqb "dfs" "bfs") with false by reflexivity.
  replace (String.eqb "dfs" "dfs") with true by reflexivity.
  destruct (@dfs_root_without_child problem (start s w) fuel (fun _ => Hno))
    as (r' & Hd & _ & Hc).
  rewrite Hd. exists r'. split; [reflexivity|exact Hc].
Qed.

(** Candidates that do not score above the root leave [best_node] alone. *)
Lemma dfs_push_low (problem : string) (node : SearchNode)
  (thoughts : list string) :
  never_above_root ->
  forall (stack stack' : list SearchNode) (r r' : Run),
    Forall (fun c => PrimFloat.ltb (score root) (score c) = false) stack ->
    dfs_push problem node thoughts stack r = (stack', r') ->
    Forall (fun c => PrimFloat.ltb (score root) (score c) = false) stack'.
Proof.
  intros Hlow. induction thoughts as [|thought rest IH];
    intros stack stack' r r' Hst H.
  - simpl in H. now injection H as <- _.
  - cbn [dfs_push] in H.
    destruct (expand_thought problem node thought (depth node + 1) r)
      as [oc r1] eqn:Hex.
    apply expand_thought_spec in Hex.
    destruct Hex as (sc & Hev & _ & _ & Hoc).
    destruct oc as [child|]; [|now apply IH in H].
    destruct Hoc as (_ & -> & _). apply IH in H; [exact H|].
    constructor; [|exact Hst].
    cbn [make_child score].
    replace sc
      with (fst (evaluate (full_state_of node thought) problem (world r)))
      by now rewrite Hev.
    apply Hlow.
Qed.

Lemma dfs_loop_low (problem : string) (fuel : nat) :
  never_above_root ->
  forall (stack : list SearchNode) (n : SearchNode) (r r' : Run),
    Forall (fun c => PrimFloat.ltb (score root) (score c) = false) stack ->
    dfs_loop fuel problem stack root r = Some (n, r') ->
    n = root.
Proof.
  intros Hlow. induction fuel as [|fuel IH]; intros stack n r r' Hst H.
  - discriminate.
  - cbn [dfs_loop] in H. destruct stack as [|node stack].
    + now injection H as <- _.
    + apply Forall_cons_iff in Hst. destruct Hst as [Hnode Hst].
      unfold dfs_iter in H.
      destruct (Z.ltb (max_depth (self r)) (depth node)).
      { now apply IH in H. }
      rewrite Hnode in H.
      destruct (PrimFloat.leb success_threshold (score node)) eqn:Hs.
      { exfalso.
        assert (Hlt : PrimFloat.ltb (score root) (score node) = true)
          by (apply ltb_leb_trans with (y := success_threshold);
              [reflexivity|exact Hs]).
        congruence. }
      destruct (call_generate (generator_state node) problem
                  (branching_factor (self r)) r) as [thoughts r1].
      destruct (dfs_push problem node (rev thoughts) stack r1)
        as [stack' r2] eqn:Hpush.
      apply dfs_push_low in Hpush; [|exact Hlow|exact Hst].
      now apply IH in H.
Qed.

(** C1 (amended). A search that exhausts with no node beyond the root
    identified as best returns normally in both modes, with outcomes that
    differ. In breadth mode, once a level leaves an empty frontier (in
    particular when the expansion of the root creates no child) the outcome
    is [failed] with reason "Max depth or no solution found". In depth mode
    the outcome is never [failed]: whenever the stack empties with
    [best_node] still the root, whether or not children were created,
    [_dfs] returns the root and the outcome is [solved] with solution
    "Start", score 0.5 and depth 0. That is so when the expansion of the
    root creates no child, and whenever no candidate scores above 0.5. *)
Theorem exhausted_root_outcome (fuel : nat) (s : TreeOfThoughtSolver)
  (problem : string) (w : W) (t0 t1 : float) :
  (strategy s = "bfs"%string ->
   1 <= max_depth s ->
   no_child_of_root problem (branching_factor s) w (fun l => l) = true ->
   exists r',
     solve fuel s problem w t0 t1 =
       Some (Returns (Failed "Max depth or no solution found"
                        (nodes_explored (self r')) (PrimFloat.sub t1 t0)), r') /\
     constructions (trace r') = 0%nat) /\
  (strategy s = "bfs"%string ->
   forall j r,
     bfs_frontier problem (start s w) (S j) [] r ->
     solve fuel s problem w t0 t1 =
       Some (Returns (Failed "Max depth or no solution found"
                        (nodes_explored (self r)) (PrimFloat.sub t1 t0)), r)) /\
  (strategy s = "dfs"%string ->
   no_child_of_root problem (branching_factor s) w (@rev string) = true ->
   exists r',
     solve (S (S fuel)) s problem w t0 t1 =
       Some (Returns (Solved "Start" 0.5%float 0
                        (nodes_explored (self r')) (PrimFloat.sub t1 t0)), r') /\
     constructions (trace r') = 0%nat) /\
  (strategy s = "dfs"%string ->
   forall r,
     dfs_state problem (start s w) [] root r ->
     exists fuel0, forall extra,
       solve (fuel0 + extra) s problem w t0 t1 =
         Some (Returns (Solved "Start" 0.5%float 0
                          (nodes_explored (self r)) (PrimFloat.sub t1 t0)), r)) /\
  (strategy s = "dfs"%string ->
   never_above_root ->
   exists fuel0, forall extra,
     exists r',
       solve (fuel0 + extra) s problem w t0 t1 =
         Some (Returns (Solved "Start" 0.5%float 0
                          (nodes_explored (self r')) (PrimFloat.sub t1 t0)),
               r')) /\
  (strategy s = "dfs"%string ->
   forall res r',
     solve fuel s problem w t0 t1 = Some (res, r') ->
     exists sol sc d k dur, res = Returns (Solved sol sc d k dur)).
Proof.
  split; [|split; [|split; [|split; [|split]]]].
  - intros Hs Hd Hno. unfold solve. rewrite Hs.
    replace (String.eqb "bfs" "bfs") with true by reflexivity.
    destruct (@bfs_root_without_child problem (start s w) Hd Hno)
      as (r' & Hb & _ & Hc).
    rewrite Hb. exists r'. split; [reflexivity|exact Hc].
  - intros Hs j r Hf. unfold solve. rewrite Hs.
    replace (String.eqb "bfs" "bfs") with true by reflexivity.
    inversion Hf as [|k queue queue' r1 r2 Hprev Hk Hne Hl]; subst.
    unfold bfs, range.
    cbn [start self max_depth set_nodes_explored] in Hk |- *.
    replace (Z.to_nat (max_depth s))
      with (j + S (Z.to_nat (max_depth s) - j - 1))%nat by lia.
    rewrite (bfs_frontier_run Hprev Hne).
    cbn [seq map bfs_levels]. rewrite Hl. reflexivity.
  - intros Hs Hno. now apply solve_dfs_root_without_child.
  - intros Hs r Hst.
    assert (Hend : dfs_loop 1 problem [] root r = Some (root, r))
      by reflexivity.
    destruct (dfs_state_result Hst _ Hend) as [fuel0 Hrun].
    exists fuel0. intros extra. unfold solve. rewrite Hs.
    replace (String.eqb "dfs" "bfs") with false by reflexivity.
    replace (String.eqb "dfs" "dfs") with true by reflexivity.
    unfold dfs. apply dfs_loop_fuel_mono with (extra := extra) in Hrun.
    rewrite Hrun. reflexivity.
  - intros Hs Hlow.
    destruct (@dfs_stack_terminates problem (max_depth s) [root] root
                (start s w) eq_refl) as (fuel0 & [n r1] & Hres).
    assert (Hn : n = root).
    { apply (@dfs_loop_low problem fuel0 Hlow [root] n (start s w) r1);
        [|exact Hres].
      constructor; [apply ltb_irrefl|constructor]. }
    subst n. exists fuel0. intros extra. exists r1. unfold solve. rewrite Hs.
    replace (String.eqb "dfs" "bfs") with false by reflexivity.
    replace (String.eqb "dfs" "dfs") with true by reflexivity.
    unfold dfs. apply dfs_loop_fuel_mono with (extra := extra) in Hres.
    rewrite Hres. reflexivity.
  - intros Hs res r' H. unfold solve in H. rewrite Hs in H.
    replace (String.eqb "dfs" "bfs") with false in H by reflexivity.
    replace (String.eqb "dfs" "dfs") with true in H by reflexivity.
    destruct (dfs fuel root problem (start s w)) as [[n r1]|];
      [|discriminate].
    injection H as <- _. unfold report. eauto 6.
Qed.

(** C9. The solution string of every solved outcome has the root's marker
    "Start" as its first line: it is "Start" alone or "Start", a newline and
    the rest of the chain. In depth mode a search whose root expansion
    creates no child reports the bare string "Start" as its solution. *)
Theorem solution_begins_with_start (s : TreeOfThoughtSolver)
  (problem : string) (w : W) (t0 t1 : float) :
  (forall fuel sol sc d k dur r',
      solve fuel s problem w t0 t1 = Some (Returns (Solved sol sc d k dur), r') ->
      first_line_is "Start" sol) /\
  (strategy s = "dfs"%string ->
   no_child_of_root problem (branching_factor s) w (@rev string) = true ->
   forall fuel, exists sc d k dur r',
     solve (S (S fuel)) s problem w t0 t1 =
       Some (Returns (Solved "Start" sc d k dur), r')).
Proof.
  split.
  - intros fuel sol sc d k dur r' H. apply solve_inv in H.
    destruct H as (_ & _ & (n & [Hn _] & -> & _)).
    now apply chain_ok_first_line.
  - intros Hs Hno fuel.
    destruct (solve_dfs_root_without_child fuel s problem w t0 t1 Hs Hno)
      as (r' & Hsolve & _).
    rewrite Hsolve. eauto 6.
Qed.

(** C8. With a strategy that is neither "bfs" nor "dfs", [solve] raises
    [ValueError] before any exploration: the trace of the call is empty (no
    generator call, no evaluator call, no node constructed), the world of the
    collaborators is untouched, and the solver is left with its
    configuration, so that a later call behaves as on the original solver. *)
Theorem unknown_strategy_fails_fast (fuel : nat) (s : TreeOfThoughtSolver)
  (problem : string) (w : W) (t0 t1 : float) :
  strategy s <> "bfs"%string ->
  strategy s <> "dfs"%string ->
  exists r',
    solve fuel s problem w t0 t1 =
      Some (Raises (ValueError (String.append "Unknown strategy: " (strategy s))),
            r') /\
    trace r' = [] /\
    world r' = w /\
    same_config s (self r') /\
    nodes_explored (self r') = 0 /\
    forall fuel' problem' w' t0' t1',
      solve fuel' (self r') problem' w' t0' t1' =
      solve fuel' s problem' w' t0' t1'.
Proof.
  intros Hb Hd. exists (start s w).
  apply String.eqb_neq in Hb. apply String.eqb_neq in Hd.
  split; [unfold solve; now rewrite Hb, Hd|].
  repeat split; reflexivity.
Qed.






Lemma expand_thought_kept (problem : string) (node : SearchNode)
  (thought : string) (d : Z) (r : Run) (sc : float) (w' : W) :
  evaluate (full_state_of node thought) problem (world r) = (sc, w') ->
  PrimFloat.ltb sc prune_threshold = false ->
  expand_thought problem node thought d r =
    (Some (make_child node thought sc d),
     mkRun (set_nodes_explored (self r) (nodes_explored (self r) + 1)) w'
           (trace r ++ [EvEvaluate (full_state_of node thought) problem sc;
                        EvNode (make_child node thought sc d)])).
Proof.
  intros Hev Hk. unfold expand_thought, call_evaluate, count_node, log.
  cbn [self world trace]. rewrite Hev, Hk. cbn [self world trace].
  now rewrite <- app_assoc.
Qed.

(** C3 (amended). In breadth mode, an evaluation that reaches the success
    threshold ends the search at once: it is the first evaluation of the
    call to reach the threshold, nothing follows it in the trace but the
    construction of its node, and the outcome is [solved] with the evaluated
    path and score. In depth mode the threshold is tested when a node is
    popped: as soon as the popped node lies within [max_depth] and scores at
    least the threshold, [solve] returns it, leaving the rest of the stack
    unexplored. *)
Theorem early_termination (s : TreeOfThoughtSolver) (problem : string)
  (w : W) (t0 t1 : float) :
  (strategy s = "bfs"%string ->
   forall fuel res r' pre post fs p sc,
     solve fuel s problem w t0 t1 = Some (res, r') ->
     trace r' = pre ++ EvEvaluate fs p sc :: post ->
     PrimFloat.leb success_threshold sc = true ->
     evals_below pre /\
     exists c,
       post = [EvNode c] /\ fs = get_full_path c /\ sc = score c /\
       p = problem /\
       res = Returns (Solved fs sc (depth c) (nodes_explored (self r'))
                        (PrimFloat.sub t1 t0))) /\
  (strategy s = "dfs"%string ->
   forall node stack best r,
     dfs_state problem (start s w) (node :: stack) best r ->
     depth node <= max_depth s ->
     PrimFloat.leb success_threshold (score node) = true ->
     exists fuel, forall extra,
       solve (fuel + extra) s problem w t0 t1 =
         Some (Returns (Solved (get_full_path node) (score node) (depth node)
                          (nodes_explored (self r)) (PrimFloat.sub t1 t0)),
               r)).
Proof.
  split.
  - intros Hs fuel res r' pre post fs p sc H Htr Hsc.
    unfold solve in H. rewrite Hs in H.
    replace (String.eqb "bfs" "bfs") with true in H by reflexivity.
    destruct (bfs root problem (start s w)) as [rn r1] eqn:Hb.
    injection H as <- <-. unfold bfs in Hb.
    apply bfs_levels_success in Hb;
      [|apply evals_below_nil
       |constructor; [exact root_below_success|constructor]].
    destruct Hb as [(c & -> & pre' & Htr' & Hpre' & Hc) | [Hev _]].
    + rewrite Htr' in Htr. symmetry in Htr.
      apply split_unique in Htr.
      * destruct Htr as (-> & He & ->). injection He as -> -> ->.
        split; [exact Hpre'|]. exists c. repeat split.
      * intros Hin. apply Hpre' in Hin. congruence.
      * intros [Hin | []]. discriminate.
    + exfalso. assert (Hin : In (EvEvaluate fs p sc) (trace r1)).
      { rewrite Htr. apply in_or_app. right. now left. }
      apply Hev in Hin. congruence.
  - intros Hs node stack best r Hst Hd Hsc.
    assert (Hinv := dfs_state_inv (start_inv problem s w) Hst).
    destruct Hinv as (_ & [(_ & Hmd & _) _] & _).
    assert (Hpop : dfs_loop 1 problem (node :: stack) best r = Some (node, r)).
    { apply dfs_pop_success; [|exact Hsc]. rewrite Hmd. exact Hd. }
    destruct (dfs_state_result Hst _ Hpop) as [fuel0 Hrun].
    exists fuel0. intros extra. unfold solve. rewrite Hs.
    replace (String.eqb "dfs" "bfs") with false by reflexivity.
    replace (String.eqb "dfs" "dfs") with true by reflexivity.
    unfold dfs. apply dfs_loop_fuel_mono with (extra := extra) in Hrun.
    rewrite Hrun. reflexivity.
Qed.

(** C4. With an evaluator that scores a path containing "DONE" at 1.0 and
    any other path at 0.4, a generator that returns ["A", "DONE"] for the
    root, [branching_factor = 2], [max_depth = 5] and the breadth strategy,
    [solve] returns a solved outcome whose solution is "Start", newline,
    "DONE" (it ends in "DONE"), with depth 1 and [nodes_explored = 2]. *)
Theorem done_scenario (fuel : nat) (s : TreeOfThoughtSolver)
  (problem : string) (w : W) (t0 t1 : float) :
  strategy s = "bfs"%string ->
  max_depth s = 5 ->
  branching_factor s = 2 ->
  (forall p n w0,
      fst (generate_thoughts EmptyString p n w0) = ["A"; "DONE"]%string) ->
  (forall full p w0,
      fst (evaluate full p w0) =
      if contains "DONE" full then 1.0%float else 0.4%float) ->
  exists r' sol,
    solve fuel s problem w t0 t1 =
      Some (Returns (Solved sol 1.0%float 1 2 (PrimFloat.sub t1 t0)), r') /\
    sol = String.append "Start" (String.append nl "DONE") /\
    (exists before, sol = String.append before "DONE") /\
    nodes_explored (self r') = 2 /\
    evaluations (trace r') = 2%nat.
Proof.
  intros Hs Hmd Hbf Hgen Heval.
  assert (Hl : exists r',
             bfs_level problem 0 [root] (start s w) =
               (Return (make_child root "DONE" 1.0%float 1), r') /\
             nodes_explored (self r') = 2 /\
             evaluations (trace r') = 2%nat).
  { unfold bfs_level. cbn [bfs_queue].
    rewrite root_below_success, generator_state_root.
    unfold call_generate, log. cbn [self world trace].
    destruct (generate_thoughts "" problem
                (branching_factor (self (start s w))) (world (start s w)))
      as [thoughts w1] eqn:Hg.
    assert (Hth : thoughts = ["A"; "DONE"]%string).
    { rewrite <- (Hgen problem (branching_factor (self (start s w)))
                    (world (start s w))). now rewrite Hg. }
    subst thoughts. cbn [bfs_thoughts].
    match goal with |- context [expand_thought _ _ "A" _ ?r] =>
      destruct (evaluate (full_state_of root "A") problem (world r))
        as [sc1 w2] eqn:He1;
      assert (Hsc1 := Heval (full_state_of root "A") problem (world r));
      rewrite He1 in Hsc1; cbn [fst] in Hsc1; vm_compute in Hsc1; subst sc1;
      rewrite (@expand_thought_kept problem root "A" (0 + 1) r _ w2 He1 eq_refl)
    end.
    cbn [score make_child].
    replace (PrimFloat.leb success_threshold 0.4%float) with false
      by reflexivity.
    cbn [bfs_thoughts].
    match goal with |- context [expand_thought _ _ "DONE" _ ?r] =>
      destruct (evaluate (full_state_of root "DONE") problem (world r))
        as [sc2 w3] eqn:He2;
      assert (Hsc2 := Heval (full_state_of root "DONE") problem (world r));
      rewrite He2 in Hsc2; cbn [fst] in Hsc2; vm_compute in Hsc2; subst sc2;
      rewrite (@expand_thought_kept problem root "DONE" (0 + 1) r _ w3 He2 eq_refl)
    end.
    cbn [score make_child].
    replace (PrimFloat.leb success_threshold 1.0%float) with true
      by reflexivity.
    eexists. split; [reflexivity|]. split; reflexivity. }
  destruct Hl as (r' & Hl & Hn & He).
  exists r'. eexists. unfold solve. rewrite Hs.
  replace (String.eqb "bfs" "bfs") with true by reflexivity.
  unfold bfs, range. change (max_depth (self (start s w))) with (max_depth s).
  rewrite Hmd. change (Z.to_nat 5) with 5%nat.
  cbn [seq map bfs_levels]. change (Z.of_nat 0) with 0. rewrite Hl.
  unfold report. rewrite Hn.
  split; [reflexivity|]. split; [reflexivity|].
  split; [now exists (String.append "Start" nl)|]. split; [reflexivity|exact He].
Qed.

(** ** The depth of the reported node *)

Lemma bfs_thoughts_depth (problem : string) (node : SearchNode) (level : Z)
  (thoughts : list string) :
  forall (next_queue : list SearchNode) (r r' : Run) (fl : flow (list SearchNode)),
    Forall (fun n => depth n = level + 1) next_queue ->
    bfs_thoughts problem node level thoughts next_queue r = (fl, r') ->
    match fl with
    | Return c =>
        depth c = level + 1 /\
        PrimFloat.leb success_threshold (score c) = true
    | Next q => Forall (fun n => depth n = level + 1) q
    end.
Proof.
  induction thoughts as [|thought rest IH]; intros nq r r' fl Hnq H.
  - simpl in H. injection H as <- <-. exact Hnq.
  - simpl in H.
    destruct (expand_thought problem node thought (level + 1) r)
      as [oc r1] eqn:Hex.
    apply expand_thought_spec in Hex.
    destruct Hex as (sc & _ & _ & _ & Hoc).
    destruct oc as [child|]; [|now apply IH in H].
    destruct Hoc as (_ & Hc & _).
    assert (Hd : depth child = level + 1) by now subst child.
    destruct (PrimFloat.leb success_threshold (score child)) eqn:Hs.
    + injection H as <- <-. now split.
    + apply IH in H; [exact H|].
      apply Forall_app. split; [exact Hnq|]. now constructor.
Qed.

Lemma bfs_queue_depth (problem : string) (level : Z)
  (queue : list SearchNode) :
  forall (next_queue : list SearchNode) (r r' : Run) (fl : flow (list SearchNode)),
    Forall (fun n => depth n = level) queue ->
    Forall (fun n => depth n = level + 1) next_queue ->
    bfs_queue problem level queue next_queue r = (fl, r') ->
    match fl with
    | Return c =>
        level <= depth c <= level + 1 /\
        PrimFloat.leb success_threshold (score c) = true
    | Next q => Forall (fun n => depth n = level + 1) q
    end.
Proof.
  induction queue as [|node rest IH]; intros nq r r' fl Hq Hnq H.
  - simpl in H. injection H as <- <-. exact Hnq.
  - simpl in H. apply Forall_cons_iff in Hq. destruct Hq as [Hnode Hrest].
    destruct (PrimFloat.leb success_threshold (score node)) eqn:Hs.
    { injection H as <- <-. split; [lia|exact Hs]. }
    destruct (call_generate (generator_state node) problem
                (branching_factor (self r)) r) as [thoughts r1].
    destruct (bfs_thoughts problem node level thoughts nq r1)
      as [fl2 r2] eqn:Hth.
    apply bfs_thoughts_depth in Hth; [|exact Hnq].
    destruct fl2 as [child | nq'].
    + injection H as <- <-. destruct Hth as [Hd Hsc]. split; [lia|exact Hsc].
    + now apply IH in H.
Qed.

Lemma bfs_levels_depth (problem : string) (m : nat) :
  forall (k : nat) (queue : list SearchNode) (r r' : Run) (n : SearchNode),
    Forall (fun n => depth n = Z.of_nat k) queue ->
    bfs_levels problem (map Z.of_nat (seq k m)) queue r = (Some n, r') ->
    Z.of_nat k <= depth n <= Z.of_nat (k + m) /\
    (PrimFloat.leb success_threshold (score n) = false ->
     depth n = Z.of_nat (k + m)).
Proof.
  induction m as [|m IH]; intros k queue r r' n Hq H.
  - simpl in H. injection H as Hn <-.
    destruct queue as [|a q]; [discriminate|]. injection Hn as <-.
    apply Forall_cons_iff in Hq. destruct Hq as [Ha _].
    replace (k + 0)%nat with k by lia. lia.
  - simpl in H. unfold bfs_level in H.
    destruct (bfs_queue problem (Z.of_nat k) queue []
                (log (EvPrint (Z.of_nat k) (List.length queue)) r))
      as [fl r1] eqn:Hbq.
    apply bfs_queue_depth in Hbq; [|exact Hq|constructor].
    destruct fl as [c | nq].
    + injection H as <- <-. destruct Hbq as [Hd Hsc].
      split; [lia|]. intros Hs. congruence.
    + destruct (firstn beam_width (sort_desc nq)) as [|a q] eqn:Hbeam;
        [discriminate|].
      apply IH in H.
      * replace (k + S m)%nat with (S k + m)%nat by lia.
        destruct H as [Hd Hs]. split; [lia|exact Hs].
      * rewrite <- Hbeam. apply Forall_beam.
        replace (Z.of_nat (S k)) with (Z.of_nat k + 1) by lia. exact Hbq.
Qed.

Lemma dfs_iter_config (problem : string) (node : SearchNode)
  (stack : list SearchNode) (best_node : SearchNode) (r r' : Run)
  (fl : flow (list SearchNode * SearchNode)) :
  dfs_iter problem node stack best_node r = (fl, r') ->
  same_config (self r) (self r').
Proof.
  unfold dfs_iter. intros H.
  destruct (Z.ltb (max_depth (self r)) (depth node)).
  { injection H as <- <-. apply same_config_refl. }
  destruct (PrimFloat.leb success_threshold (score node)).
  { injection H as <- <-. apply same_config_refl. }
  destruct (call_generate (generator_state node) problem
              (branching_factor (self r)) r) as [thoughts r1] eqn:Hgen.
  apply call_generate_spec in Hgen. destruct Hgen as (_ & Hself & _).
  destruct (dfs_push problem node (rev thoughts) stack r1)
    as [stack' r2] eqn:Hpush.
  apply dfs_push_shape in Hpush. destruct Hpush as [Hcfg _].
  injection H as <- <-. now rewrite <- Hself.
Qed.

Lemma dfs_loop_depth (problem : string) (bound : Z) (fuel : nat) :
  forall (stack : list SearchNode) (best_node n : SearchNode) (r r' : Run),
    max_depth (self r) = bound ->
    Forall (fun c => 0 <= depth c) stack ->
    0 <= depth best_node <= Z.max 0 bound ->
    dfs_loop fuel problem stack best_node r = Some (n, r') ->
    0 <= depth n <= Z.max 0 bound.
Proof.
  induction fuel as [|fuel IH]; intros stack best n r r' Hb Hst Hbest H.
  - discriminate.
  - simpl in H. destruct stack as [|node stack].
    + injection H as <- <-. exact Hbest.
    + apply Forall_cons_iff in Hst. destruct Hst as [Hnode Hst].
      destruct (dfs_iter problem node stack best r) as [fl r1] eqn:Hit.
      assert (Hcfg := dfs_iter_config _ _ _ _ _ Hit).
      destruct Hcfg as (_ & Hmd & _).
      unfold dfs_iter in Hit.
      destruct (Z.ltb (max_depth (self r)) (depth node)) eqn:Hlt.
      { injection Hit as <- <-. now apply IH in H. }
      apply Z.ltb_ge in Hlt.
      destruct (PrimFloat.leb success_threshold (score node)).
      { injection Hit as <- <-. injection H as <- <-. lia. }
      destruct (call_generate (generator_state node) problem
                  (branching_factor (self r)) r) as [thoughts r1'].
      destruct (dfs_push problem node (rev thoughts) stack r1')
        as [stack' r2] eqn:Hpush.
      apply dfs_push_shape in Hpush.
      destruct Hpush as (_ & children & -> & Hch).
      injection Hit as <- <-. apply IH in H; auto.
      * congruence.
      * apply Forall_app. split; [|exact Hst].
        eapply Forall_impl; [|exact Hch]. intros c Hc. simpl in Hc. lia.
      * destruct (PrimFloat.ltb (score best) (score node)); lia.
Qed.

(** X8. The depth [solve] reports lies between 0 and [max_depth] (0 for a
    negative [max_depth]). A breadth-first outcome whose score is under the
    success threshold comes from the last level: its depth is exactly
    [max_depth]. *)
Theorem reported_depth_is_bounded (fuel : nat) (s : TreeOfThoughtSolver)
  (problem : string) (w : W) (t0 t1 : float)
  (sol : string) (sc : float) (d k : Z) (dur : float) (r' : Run) :
  solve fuel s problem w t0 t1 = Some (Returns (Solved sol sc d k dur), r') ->
  0 <= d <= Z.max 0 (max_depth s) /\
  (strategy s = "bfs"%string ->
   PrimFloat.leb success_threshold sc = false ->
   d = Z.max 0 (max_depth s)).
Proof.
  unfold solve. intros H.
  destruct (String.eqb (strategy s) "bfs") eqn:Hbfs.
  - destruct (bfs root problem (start s w)) as [rn r1] eqn:Hb.
    destruct rn as [n|]; [|discriminate].
    injection H as _ <- <- _ _ _. unfold bfs, range in Hb.
    apply bfs_levels_depth in Hb; [|constructor; [reflexivity|constructor]].
    cbn [start self max_depth set_nodes_explored] in Hb.
    destruct Hb as [Hd Hs]. split; [lia|]. intros _ Hsc.
    rewrite (Hs Hsc). lia.
  - destruct (String.eqb (strategy s) "dfs"); [|discriminate].
    destruct (dfs fuel root problem (start s w)) as [[n r1]|] eqn:Hd;
      [|discriminate].
    injection H as _ _ <- _ _ _. unfold dfs in Hd.
    apply dfs_loop_depth with (bound := max_depth s) in Hd.
    + split; [exact Hd|]. intros Hs. rewrite Hs in Hbfs. discriminate.
    + reflexivity.
    + constructor; [simpl; lia|constructor].
    + simpl. lia.
Qed.

(** ** The node an exhausted [_dfs] returns *)

Lemma dfs_push_seen (problem : string) (node : SearchNode)
  (thoughts : list string) :
  forall (stack stack' : list SearchNode) (r r' : Run),
    dfs_push problem node thoughts stack r = (stack', r') ->
    incl stack stack' /\
    forall c, constructed (trace r') c ->
              constructed (trace r) c \/ In c stack'.
Proof.
  induction thoughts as [|thought rest IH]; intros stack stack' r r' H.
  - simpl in H. injection H as <- <-. split; [apply incl_refl|auto].
  - simpl in H.
    destruct (expand_thought problem node thought (depth node + 1) r)
      as [oc r1] eqn:Hex.
    apply expand_thought_spec in Hex.
    destruct Hex as (sc & _ & _ & _ & Hoc).
    destruct oc as [child|]; apply IH in H; destruct H as [Hincl Hnew].
    + destruct Hoc as (_ & _ & Htr). split.
      * intros x Hx. apply Hincl. now right.
      * intros c Hc. destruct (Hnew c Hc) as [Hold | Hin]; [|now right].
        unfold constructed in Hold. rewrite Htr in Hold.
        apply in_app_or in Hold.
        destruct Hold as [Hold | [Hev | [Hnode | []]]];
          [now left|discriminate|].
        injection Hnode as <-. right. apply Hincl. now left.
    + destruct Hoc as (_ & Htr). split; [exact Hincl|].
      intros c Hc. destruct (Hnew c Hc) as [Hold | Hin]; [|now right].
      unfold constructed in Hold. rewrite Htr in Hold.
      apply in_app_or in Hold.
      destruct Hold as [Hold | [Hev | []]]; [now left|discriminate].
Qed.

Lemma dfs_iter_seen (problem : string) (bound : Z) (node : SearchNode)
  (stack stack' : list SearchNode) (best best' : SearchNode) (r r' : Run) :
  max_depth (self r) = bound ->
  seen_ok bound (trace r) (node :: stack) best ->
  below_success best ->
  dfs_iter problem node stack best r = (Next (stack', best'), r') ->
  seen_ok bound (trace r') stack' best' /\ below_success best'.
Proof.
  intros Hb Hseen Hbest H. unfold dfs_iter in H.
  destruct (Z.ltb (max_depth (self r)) (depth node)) eqn:Hlt.
  { injection H as <- <- <-. split; [|exact Hbest].
    intros c Hc Hd. destruct (Hseen c Hc Hd) as [[<- | Hin] | Hlow]; auto.
    apply Z.ltb_lt in Hlt. lia. }
  destruct (PrimFloat.leb success_threshold (score node)) eqn:Hs;
    [discriminate|].
  destruct (call_generate (generator_state node) problem
              (branching_factor (self r)) r) as [thoughts r1] eqn:Hgen.
  apply call_generate_spec in Hgen. destruct Hgen as (_ & _ & Htr).
  destruct (dfs_push problem node (rev thoughts) stack r1)
    as [stack2 r2] eqn:Hpush.
  apply dfs_push_seen in Hpush. destruct Hpush as [Hincl Hnew].
  injection H as <- <- <-. split.
  - intros c Hc Hd.
    assert (Hold : c = root \/ constructed (trace r) c \/ In c stack2).
    { destruct Hc as [-> | Hc]; [now left|]. right.
      destruct (Hnew c Hc) as [Hin | Hin]; [|now right].
      left. unfold constructed in Hin. rewrite Htr in Hin.
      apply in_app_or in Hin. destruct Hin as [Hin | [Hin | []]];
        [exact Hin|discriminate]. }
    assert (Hc0 : In c stack2 \/ (c = root \/ constructed (trace r) c))
      by tauto.
    destruct Hc0 as [Hin | Hc0]; [now left|].
    destruct (Hseen c Hc0 Hd) as [[<- | Hin] | Hlow].
    + right. destruct (PrimFloat.ltb (score best) (score node)) eqn:Hbn;
        [apply ltb_irrefl|exact Hbn].
    + left. now apply Hincl.
    + right. destruct (PrimFloat.ltb (score best) (score node)) eqn:Hbn;
        [|exact Hlow].
      destruct (PrimFloat.ltb (score node) (score c)) eqn:Hnc; [|reflexivity].
      rewrite (ltb_trans Hbn Hnc) in Hlow. discriminate.
  - destruct (PrimFloat.ltb (score best) (score node)); assumption.
Qed.

Lemma dfs_loop_best (problem : string) (bound : Z) (fuel : nat) :
  forall (stack : list SearchNode) (best n : SearchNode) (r r' : Run),
    max_depth (self r) = bound ->
    seen_ok bound (trace r) stack best ->
    below_success best ->
    dfs_loop fuel problem stack best r = Some (n, r') ->
    PrimFloat.leb success_threshold (score n) = true \/
    forall c, c = root \/ constructed (trace r') c ->
              depth c <= bound ->
              PrimFloat.ltb (score n) (score c) = false.
Proof.
  induction fuel as [|fuel IH]; intros stack best n r r' Hb Hseen Hbest H.
  - discriminate.
  - simpl in H. destruct stack as [|node stack].
    + injection H as <- <-. right. intros c Hc Hd.
      destruct (Hseen c Hc Hd) as [[] | Hlow]. exact Hlow.
    + destruct (dfs_iter problem node stack best r) as [fl r1] eqn:Hit.
      assert (Hcfg := dfs_iter_config _ _ _ _ _ Hit).
      destruct Hcfg as (_ & Hmd & _).
      destruct fl as [m | [stack' best']].
      * injection H as <- <-. left. unfold dfs_iter in Hit.
        destruct (Z.ltb (max_depth (self r)) (depth node)); [discriminate|].
        destruct (PrimFloat.leb success_threshold (score node)) eqn:Hs.
        -- now injection Hit as <- _.
        -- destruct (call_generate (generator_state node) problem
                       (branching_factor (self r)) r) as [thoughts r1'].
           destruct (dfs_push problem node (rev thoughts) stack r1').
           discriminate.
      * destruct (@dfs_iter_seen problem bound node stack stack' best best'
                    r r1 Hb Hseen Hbest Hit) as [Hseen' Hbest'].
        apply IH in H; auto. congruence.
Qed.

(** X9. A depth-first search that ends without a success returns a best
    node: when the reported score is under the success threshold, no node
    of the run within [max_depth], the root included, has a score above it.
    Nodes one level below [max_depth] are constructed and then skipped;
    they do not count. *)
Theorem dfs_exhausted_returns_best (fuel : nat) (s : TreeOfThoughtSolver)
  (problem : string) (w : W) (t0 t1 : float)
  (sol : string) (sc : float) (d k : Z) (dur : float) (r' : Run) :
  strategy s = "dfs"%string ->
  solve fuel s problem w t0 t1 = Some (Returns (Solved sol sc d k dur), r') ->
  PrimFloat.leb success_threshold sc = false ->
  forall c,
    c = root \/ constructed (trace r') c ->
    depth c <= max_depth s ->
    PrimFloat.ltb sc (score c) = false.
Proof.
  intros Hs H Hsc. unfold solve in H. rewrite Hs in H.
  replace (String.eqb "dfs" "bfs") with false in H by reflexivity.
  replace (String.eqb "dfs" "dfs") with true in H by reflexivity.
  destruct (dfs fuel root problem (start s w)) as [[n r1]|] eqn:Hd;
    [|discriminate].
  injection H as _ <- _ _ _ <-. unfold dfs in Hd.
  apply dfs_loop_best with (bound := max_depth s) in Hd.
  - destruct Hd as [Hd | Hd]; [congruence|exact Hd].
  - reflexivity.
  - intros c [-> | []] _. left. now left.
  - exact root_below_success.
Qed.

(** ** What the collaborators are asked *)

Lemma expand_thought_events (problem : string) (n hi : Z) (prints : bool)
  (node : SearchNode) (thought : string) (d : Z) (r r' : Run)
  (oc : option SearchNode) :
  1 <= d <= hi ->
  branching_factor (self r) = n ->
  Forall (event_ok problem n hi prints) (trace r) ->
  expand_thought problem node thought d r = (oc, r') ->
  branching_factor (self r') = n /\
  Forall (event_ok problem n hi prints) (trace r').
Proof.
  intros Hd Hn Htr H. apply expand_thought_spec in H.
  destruct H as (sc & _ & (_ & _ & Hbf) & _ & Hoc).
  split; [congruence|].
  destruct oc as [c|].
  - destruct Hoc as (_ & -> & ->). apply Forall_app. split; [exact Htr|].
    constructor; [reflexivity|]. constructor; [exact Hd|constructor].
  - destruct Hoc as (_ & ->). apply Forall_app. split; [exact Htr|].
    constructor; [reflexivity|constructor].
Qed.

Lemma call_generate_events (problem : string) (n hi : Z) (prints : bool)
  (st : string) (r r' : Run) (thoughts : list string) :
  branching_factor (self r) = n ->
  Forall (event_ok problem n hi prints) (trace r) ->
  call_generate st problem (branching_factor (self r)) r = (thoughts, r') ->
  branching_factor (self r') = n /\
  Forall (event_ok problem n hi prints) (trace r').
Proof.
  intros Hn Htr H. apply call_generate_spec in H.
  destruct H as (_ & Hself & ->). split; [congruence|].
  apply Forall_app. split; [exact Htr|].
  constructor; [|constructor]. now split.
Qed.

Lemma bfs_thoughts_events (problem : string) (n hi : Z) (prints : bool)
  (node : SearchNode) (level : Z) (thoughts : list string) :
  forall (next_queue : list SearchNode) (r r' : Run) (fl : flow (list SearchNode)),
    0 <= level < hi ->
    branching_factor (self r) = n ->
    Forall (event_ok problem n hi prints) (trace r) ->
    bfs_thoughts problem node level thoughts next_queue r = (fl, r') ->
    branching_factor (self r') = n /\
    Forall (event_ok problem n hi prints) (trace r').
Proof.
  induction thoughts as [|thought rest IH]; intros nq r r' fl Hl Hn Htr H.
  - simpl in H. injection H as _ <-. now split.
  - simpl in H.
    destruct (expand_thought problem node thought (level + 1) r)
      as [oc r1] eqn:Hex.
    apply expand_thought_events with (n := n) (hi := hi) (prints := prints)
      in Hex; [|lia|exact Hn|exact Htr].
    destruct Hex as [Hn1 Htr1].
    destruct oc as [child|]; [|now apply IH in H].
    destruct (PrimFloat.leb success_threshold (score child)).
    + injection H as _ <-. now split.
    + now apply IH in H.
Qed.

Lemma bfs_queue_events (problem : string) (n hi : Z) (prints : bool)
  (level : Z) (queue : list SearchNode) :
  forall (next_queue : list SearchNode) (r r' : Run) (fl : flow (list SearchNode)),
    0 <= level < hi ->
    branching_factor (self r) = n ->
    Forall (event_ok problem n hi prints) (trace r) ->
    bfs_queue problem level queue next_queue r = (fl, r') ->
    branching_factor (self r') = n /\
    Forall (event_ok problem n hi prints) (trace r').
Proof.
  induction queue as [|node rest IH]; intros nq r r' fl Hl Hn Htr H.
  - simpl in H. injection H as _ <-. now split.
  - simpl in H.
    destruct (PrimFloat.leb success_threshold (score node)).
    { injection H as _ <-. now split. }
    destruct (call_generate (generator_state node) problem
                (branching_factor (self r)) r) as [thoughts r1] eqn:Hgen.
    apply call_generate_events with (n := n) (hi := hi) (prints := prints)
      in Hgen; [|exact Hn|exact Htr].
    destruct Hgen as [Hn1 Htr1].
    destruct (bfs_thoughts problem node level thoughts nq r1)
      as [fl2 r2] eqn:Hth.
    apply bfs_thoughts_events with (n := n) (hi := hi) (prints := prints)
      in Hth; [|exact Hl|exact Hn1|exact Htr1].
    destruct Hth as [Hn2 Htr2].
    destruct fl2 as [child | nq'].
    + injection H as _ <-. now split.
    + now apply IH in H.
Qed.

Lemma bfs_levels_events (problem : string) (n hi : Z) (m : nat) :
  forall (k : nat) (queue : list SearchNode) (r r' : Run)
         (res : option SearchNode),
    Z.of_nat (k + m) <= hi ->
    (1 <= List.length queue <= beam_width)%nat ->
    branching_factor (self r) = n ->
    Forall (event_ok problem n hi true) (trace r) ->
    bfs_levels problem (map Z.of_nat (seq k m)) queue r = (res, r') ->
    Forall (event_ok problem n hi true) (trace r').
Proof.
  induction m as [|m IH]; intros k queue r r' res Hk Hlen Hn Htr H.
  - simpl in H. now injection H as _ <-.
  - simpl in H. unfold bfs_level in H.
    destruct (bfs_queue problem (Z.of_nat k) queue []
                (log (EvPrint (Z.of_nat k) (List.length queue)) r))
      as [fl r1] eqn:Hbq.
    apply bfs_queue_events with (n := n) (hi := hi) (prints := true) in Hbq;
      [|lia|exact Hn|].
    + destruct Hbq as [Hn1 Htr1]. destruct fl as [c | nq].
      * now injection H as _ <-.
      * destruct (firstn beam_width (sort_desc nq)) as [|a q] eqn:Hbeam.
        -- now injection H as _ <-.
        -- apply IH in H; auto; [lia|].
           rewrite <- Hbeam. split; [rewrite Hbeam; simpl; lia|].
           apply (firstn_le_length beam_width).
    + simpl. apply Forall_app. split; [exact Htr|].
      constructor; [|constructor]. split; [reflexivity|]. split; [lia|exact Hlen].
Qed.

Lemma dfs_push_events (problem : string) (n hi : Z) (node : SearchNode)
  (thoughts : list string) :
  forall (stack stack' : list SearchNode) (r r' : Run),
    1 <= depth node + 1 <= hi ->
    branching_factor (self r) = n ->
    Forall (event_ok problem n hi false) (trace r) ->
    dfs_push problem node thoughts stack r = (stack', r') ->
    branching_factor (self r') = n /\
    Forall (event_ok problem n hi false) (trace r').
Proof.
  induction thoughts as [|thought rest IH]; intros stack stack' r r' Hd Hn Htr H.
  - simpl in H. injection H as _ <-. now split.
  - simpl in H.
    destruct (expand_thought problem node thought (depth node + 1) r)
      as [oc r1] eqn:Hex.
    apply expand_thought_events with (n := n) (hi := hi) (prints := false)
      in Hex; [|exact Hd|exact Hn|exact Htr].
    destruct Hex as [Hn1 Htr1].
    destruct oc as [child|]; now apply IH in H.
Qed.

Lemma dfs_loop_events (problem : string) (n hi : Z) (fuel : nat) :
  forall (stack : list SearchNode) (best res : SearchNode) (r r' : Run),
    max_depth (self r) + 1 = hi ->
    Forall (fun c => 0 <= depth c) stack ->
    branching_factor (self r) = n ->
    Forall (event_ok problem n hi false) (trace r) ->
    dfs_loop fuel problem stack best r = Some (res, r') ->
    Forall (event_ok problem n hi false) (trace r').
Proof.
  induction fuel as [|fuel IH]; intros stack best res r r' Hhi Hst Hn Htr H.
  - discriminate.
  - simpl in H. destruct stack as [|node stack].
    + now injection H as _ <-.
    + apply Forall_cons_iff in Hst. destruct Hst as [Hnode Hst].
      destruct (dfs_iter problem node stack best r) as [fl r1] eqn:Hit.
      assert (Hcfg := dfs_iter_config _ _ _ _ _ Hit).
      destruct Hcfg as (_ & Hmd & _).
      unfold dfs_iter in Hit.
      destruct (Z.ltb (max_depth (self r)) (depth node)) eqn:Hlt.
      { injection Hit as <- <-. now apply IH in H. }
      apply Z.ltb_ge in Hlt.
      destruct (PrimFloat.leb success_threshold (score node)).
      { injection Hit as <- <-. now injection H as _ <-. }
      destruct (call_generate (generator_state node) problem
                  (branching_factor (self r)) r) as [thoughts r1'] eqn:Hgen.
      apply call_generate_events with (n := n) (hi := hi) (prints := false)
        in Hgen; [|exact Hn|exact Htr].
      destruct Hgen as [Hn1 Htr1].
      destruct (dfs_push problem node (rev thoughts) stack r1')
        as [stack' r2] eqn:Hpush.
      assert (Hshape := dfs_push_shape _ _ _ _ _ Hpush).
      destruct Hshape as (_ & children & -> & Hch).
      apply dfs_push_events with (n := n) (hi := hi) in Hpush;
        [|lia|exact Hn1|exact Htr1].
      destruct Hpush as [Hn2 Htr2].
      injection Hit as <- <-. apply IH in H; auto.
      * congruence.
      * apply Forall_app. split; [|exact Hst].
        eapply Forall_impl; [|exact Hch]. intros c Hc. simpl in Hc. lia.
Qed.

(** X10. What [solve] asks of its collaborators and builds: every call of
    the generator and of the evaluator receives the problem as given, every
    call of the generator asks for [branching_factor] thoughts, and every
    constructed node has a depth of at least 1. Breadth first, nodes go down
    to [max_depth], and each printed line announces a level below
    [max_depth] with 1 to 5 candidates. Depth first, nothing is printed and
    nodes go down to [max_depth + 1]: the children of a node at [max_depth]
    are evaluated and constructed before they are skipped. *)
Theorem trace_respects_configuration (fuel : nat) (s : TreeOfThoughtSolver)
  (problem : string) (w : W) (t0 t1 : float) (res : result) (r' : Run) :
  solve fuel s problem w t0 t1 = Some (res, r') ->
  Forall (event_ok problem (branching_factor s)
            (if String.eqb (strategy s) "bfs" then max_depth s
             else max_depth s + 1)
            (String.eqb (strategy s) "bfs"))
         (trace r').
Proof.
  unfold solve. intros H.
  destruct (String.eqb (strategy s) "bfs").
  - destruct (bfs root problem (start s w)) as [rn r1] eqn:Hb.
    injection H as _ <-. unfold bfs, range in Hb.
    cbn [start self max_depth set_nodes_explored] in Hb.
    destruct (Z.to_nat (max_depth s)) as [|m] eqn:Hm.
    { simpl in Hb. injection Hb as _ <-. constructor. }
    apply bfs_levels_events with (n := branching_factor s) (hi := max_depth s)
      in Hb; [exact Hb|lia|unfold beam_width; simpl; lia|reflexivity|constructor].
  - destruct (String.eqb (strategy s) "dfs").
    + destruct (dfs fuel root problem (start s w)) as [[n r1]|] eqn:Hd;
        [|discriminate].
      injection H as _ <-. unfold dfs in Hd.
      apply dfs_loop_events
        with (n := branching_factor s) (hi := max_depth s + 1) in Hd;
        [exact Hd|reflexivity| |reflexivity|constructor].
      constructor; [simpl; lia|constructor].
    + injection H as _ <-. constructor.
Qed.

(** ** No level to search *)

(** X11. With nothing to search, [solve] reports the root as the solution
    without a call of a collaborator: breadth first when [max_depth <= 0]
    (no pass of the level loop, then [queue[0]] is the root), depth first
    when [max_depth < 0] (the root is popped and skipped). The outcome is
    [solved] with solution "Start", score 0.5, depth 0 and no node
    explored; the world is untouched. *)
Theorem nothing_to_search_reports_start (fuel : nat) (s : TreeOfThoughtSolver)
  (problem : string) (w : W) (t0 t1 : float) :
  strategy s = "bfs"%string /\ max_depth s <= 0 \/
  strategy s = "dfs"%string /\ max_depth s < 0 ->
  solve (2 + fuel) s problem w t0 t1 =
    Some (Returns (Solved "Start" 0.5 0 0 (PrimFloat.sub t1 t0)), start s w).
Proof.
  intros [[Hs Hd] | [Hs Hd]]; unfold solve; rewrite Hs.
  - replace (String.eqb "bfs" "bfs") with true by reflexivity.
    unfold bfs, range. cbn [start self max_depth set_nodes_explored].
    replace (Z.to_nat (max_depth s)) with 0%nat by lia. reflexivity.
  - replace (String.eqb "dfs" "bfs") with false by reflexivity.
    replace (String.eqb "dfs" "dfs") with true by reflexivity.
    unfold dfs. cbn [Nat.add dfs_loop]. unfold dfs_iter.
    cbn [start self max_depth set_nodes_explored root depth].
    replace (Z.ltb (max_depth s) 0) with true
      by (symmetry; apply Z.ltb_lt; exact Hd).
    reflexivity.
Qed.

(** ** What a failure means *)

Lemma bfs_levels_none (problem : string) (r0 : Run) (m : nat) :
  forall (k : nat) (queue : list SearchNode) (r r' : Run),
    bfs_frontier problem r0 k queue r ->
    queue <> [] ->
    Z.of_nat (k + m) <= max_depth (self r0) ->
    bfs_levels problem (map Z.of_nat (seq k m)) queue r = (None, r') ->
    exists j, bfs_frontier problem r0 (S j) [] r'.
Proof.
  induction m as [|m IH]; intros k queue r r' Hf Hne Hk H.
  - simpl in H. destruct queue as [|a q]; [now contradiction Hne|].
    discriminate.
  - cbn [seq map bfs_levels] in H.
    destruct (bfs_level problem (Z.of_nat k) queue r) as [fl r1] eqn:Hl.
    destruct fl as [n | queue']; [discriminate|].
    assert (Hnext : bfs_frontier problem r0 (S k) queue' r1)
      by (eapply frontier_next; eauto; lia).
    destruct queue' as [|a q].
    + injection H as <-. now exists k.
    + apply (IH (S k)) in H; auto; [discriminate|lia].
Qed.

(** X14. What a failed outcome means. Breadth first, [solve] reports a
    failure exactly when a level completes with an empty frontier: no
    thought was proposed for its nodes, or every candidate was pruned. The
    run stops there. Depth first, [solve] never reports a failure. *)
Theorem failure_means_empty_level (fuel : nat) (s : TreeOfThoughtSolver)
  (problem : string) (w : W) (t0 t1 : float) :
  (strategy s = "bfs"%string ->
   forall reason k dur r',
     solve fuel s problem w t0 t1 = Some (Returns (Failed reason k dur), r') ->
     exists j, bfs_frontier problem (start s w) (S j) [] r') /\
  (strategy s = "bfs"%string ->
   forall j r,
     bfs_frontier problem (start s w) (S j) [] r ->
     solve fuel s problem w t0 t1 =
       Some (Returns (Failed failure_reason (nodes_explored (self r))
                        (PrimFloat.sub t1 t0)), r)) /\
  (strategy s = "dfs"%string ->
   forall res r',
     solve fuel s problem w t0 t1 = Some (res, r') ->
     exists sol sc d k dur, res = Returns (Solved sol sc d k dur)).
Proof.
  split; [|split].
  - intros Hs reason k dur r' H. unfold solve in H. rewrite Hs in H.
    replace (String.eqb "bfs" "bfs") with true in H by reflexivity.
    destruct (bfs root problem (start s w)) as [rn r1] eqn:Hb.
    destruct rn as [n|]; [discriminate|]. injection H as _ _ _ <-.
    unfold bfs, range in Hb.
    cbn [start self max_depth set_nodes_explored] in Hb.
    destruct (Z.to_nat (max_depth s)) as [|m] eqn:Hm; [discriminate|].
    apply bfs_levels_none with (r0 := start s w) in Hb;
      [exact Hb|apply frontier_root|discriminate|].
    cbn [start self max_depth set_nodes_explored Nat.add]. lia.
  - intros Hs j r Hf. unfold solve. rewrite Hs.
    replace (String.eqb "bfs" "bfs") with true by reflexivity.
    inversion Hf as [|k queue queue' r1 r2 Hprev Hk Hne Hl]; subst.
    unfold bfs, range.
    cbn [start self max_depth set_nodes_explored] in Hk |- *.
    replace (Z.to_nat (max_depth s))
      with (j + S (Z.to_nat (max_depth s) - j - 1))%nat by lia.
    rewrite (bfs_frontier_run Hprev Hne).
    cbn [seq map bfs_levels]. rewrite Hl. reflexivity.
  - intros Hs res r' H. unfold solve in H. rewrite Hs in H.
    replace (String.eqb "dfs" "bfs") with false in H by reflexivity.
    replace (String.eqb "dfs" "dfs") with true in H by reflexivity.
    destruct (dfs fuel root problem (start s w)) as [[n r1]|];
      [|discriminate].
    injection H as <- _. unfold report. eauto 6.
Qed.

(** ** The cost of a breadth-first search *)

Lemma bfs_thoughts_count (problem : string) (node : SearchNode) (level : Z)
  (thoughts : list string) :
  forall (next_queue : list SearchNode) (r r' : Run) (fl : flow (list SearchNode)),
    bfs_thoughts problem node level thoughts next_queue r = (fl, r') ->
    nodes_explored (self r') <=
      nodes_explored (self r) + Z.of_nat (List.length thoughts).
Proof.
  induction thoughts as [|thought rest IH]; intros nq r r' fl H.
  - simpl in H. injection H as _ <-. simpl. lia.
  - cbn [bfs_thoughts] in H.
    destruct (expand_thought problem node thought (level + 1) r)
      as [oc r1] eqn:Hex.
    apply expand_thought_spec in Hex.
    destruct Hex as (sc & _ & _ & Hcount & _).
    cbn [List.length].
    destruct oc as [child|].
    + destruct (PrimFloat.leb success_threshold (score child)).
      * injection H as _ <-. lia.
      * apply IH in H. lia.
    + apply IH in H. lia.
Qed.

Lemma bfs_queue_count (problem : string) (bf level : Z)
  (queue : list SearchNode) :
  generator_honours_n ->
  forall (next_queue : list SearchNode) (r r' : Run) (fl : flow (list SearchNode)),
    branching_factor (self r) = bf ->
    bfs_queue problem level queue next_queue r = (fl, r') ->
    branching_factor (self r') = bf /\
    nodes_explored (self r') <=
      nodes_explored (self r) +
      Z.of_nat (List.length queue) * Z.of_nat (Z.to_nat bf).
Proof.
  intros Hgen. induction queue as [|node rest IH]; intros nq r r' fl Hbf H.
  - simpl in H. injection H as _ <-. split; [exact Hbf|]. simpl. lia.
  - cbn [bfs_queue] in H.
    destruct (PrimFloat.leb success_threshold (score node)).
    { injection H as _ <-. split; [exact Hbf|]. nia. }
    destruct (call_generate (generator_state node) problem
                (branching_factor (self r)) r) as [thoughts r1] eqn:Hcall.
    apply call_generate_spec in Hcall. destruct Hcall as (Hth & Hself & _).
    assert (Hlen : (List.length thoughts <= Z.to_nat bf)%nat).
    { rewrite <- Hbf.
      replace thoughts
        with (fst (generate_thoughts (generator_state node) problem
                     (branching_factor (self r)) (world r)))
        by now rewrite Hth.
      apply Hgen. }
    destruct (bfs_thoughts problem node level thoughts nq r1)
      as [fl2 r2] eqn:Hbt.
    assert (Hcfg := bfs_thoughts_config _ _ _ _ _ _ Hbt).
    destruct Hcfg as (_ & _ & Hb2).
    apply bfs_thoughts_count in Hbt.
    assert (Hbf2 : branching_factor (self r2) = bf) by congruence.
    rewrite Hself in Hbt. cbn [List.length].
    destruct fl2 as [child | nq'].
    + injection H as _ <-. split; [exact Hbf2|]. nia.
    + apply IH in H; [|exact Hbf2]. destruct H as [Hbf' H].
      split; [exact Hbf'|]. nia.
Qed.

Lemma bfs_levels_count (problem : string) (bf : Z) (m : nat) :
  generator_honours_n ->
  forall (k : nat) (queue : list SearchNode) (r r' : Run)
         (res : option SearchNode),
    branching_factor (self r) = bf ->
    (List.length queue <= beam_width)%nat ->
    bfs_levels problem (map Z.of_nat (seq k m)) queue r = (res, r') ->
    nodes_explored (self r') <=
      nodes_explored (self r) +
      Z.of_nat (Z.to_nat bf) *
      match m with
      | O => 0
      | S m' => Z.of_nat (List.length queue) + 5 * Z.of_nat m'
      end.
Proof.
  intros Hgen. induction m as [|m IH]; intros k queue r r' res Hbf Hlen H.
  - simpl in H. injection H as _ <-. lia.
  - cbn [seq map bfs_levels] in H. unfold bfs_level in H.
    destruct (bfs_queue problem (Z.of_nat k) queue []
                (log (EvPrint (Z.of_nat k) (List.length queue)) r))
      as [fl r1] eqn:Hbq.
    apply bfs_queue_count with (bf := bf) in Hbq; [|exact Hgen|exact Hbf].
    destruct Hbq as [Hbf1 Hcount]. cbn [log self] in Hcount.
    destruct fl as [c | nq].
    + injection H as _ <-. nia.
    + destruct (firstn beam_width (sort_desc nq)) as [|a q] eqn:Hbeam.
      * injection H as _ <-. nia.
      * apply IH in H; [|exact Hbf1|].
        -- destruct m as [|m'']; [nia|].
           assert (Hq : (List.length (a :: q) <= 5)%nat)
             by (rewrite <- Hbeam; apply (firstn_le_length beam_width)).
           nia.
        -- rewrite <- Hbeam. apply (firstn_le_length beam_width).
Qed.

(** X15. With a generator that returns at most the [n] thoughts it is
    asked for, a breadth-first search evaluates at most
    [branching_factor * (5 * max_depth - 4)] candidates: the root's on the
    first level and those of at most five nodes on each further level. The
    beam keeps the cost linear in [max_depth]. *)
Theorem bfs_explores_linearly (fuel : nat) (s : TreeOfThoughtSolver)
  (problem : string) (w : W) (t0 t1 : float) (res : result) (r' : Run) :
  generator_honours_n ->
  strategy s = "bfs"%string ->
  solve fuel s problem w t0 t1 = Some (res, r') ->
  nodes_explored (self r') <=
    Z.max 0 (branching_factor s) * Z.max 0 (5 * max_depth s - 4).
Proof.
  intros Hgen Hs H. unfold solve in H. rewrite Hs in H.
  replace (String.eqb "bfs" "bfs") with true in H by reflexivity.
  destruct (bfs root problem (start s w)) as [rn r1] eqn:Hb.
  injection H as _ <-. unfold bfs, range in Hb.
  apply bfs_levels_count with (bf := branching_factor s) in Hb;
    [|exact Hgen|reflexivity|unfold beam_width; simpl; lia].
  cbn [start self max_depth set_nodes_explored nodes_explored] in Hb.
  replace (Z.of_nat (Z.to_nat (branching_factor s)))
    with (Z.max 0 (branching_factor s)) in Hb by lia.
  destruct (Z.to_nat (max_depth s)) as [|m'] eqn:Hm.
  - replace (Z.max 0 (5 * max_depth s - 4)) with 0 by lia. lia.
  - replace (Z.max 0 (5 * max_depth s - 4)) with (1 + 5 * Z.of_nat m') by lia.
    exact Hb.
Qed.

End Solver.

(** * The claims on concrete runs *)

(** C1, counterexample. In depth mode with a generator that always returns
    the empty sequence, the stack empties with [best_node] still the root,
    and [solve] reports a solved outcome with solution "Start", not a failed
    one. *)
Lemma exhausted_dfs_is_reported_solved :
  no_child_of_root gen_none (eval_const 0.5) "p" 3 tt (@rev string) = true /\
  solve gen_none (eval_const 0.5) 2 (mkSolver "dfs" 5 3 0) "p" tt 0 1 =
    Some (Returns (Solved "Start" 0.5 0 0 1),
          mkRun (mkSolver "dfs" 5 3 0) tt [EvGenerate "" "p" 3 []]) /\
  (forall reason k dur r',
      solve gen_none (eval_const 0.5) 2 (mkSolver "dfs" 5 3 0) "p" tt 0 1 <>
      Some (Returns (Failed reason k dur), r')).
Proof.
  split; [reflexivity|]. split; [reflexivity|].
  intros reason k dur r' H. vm_compute in H. discriminate H.
Qed.

(** C1, witness: in breadth mode two candidates scored 0.1 are both pruned
    and the outcome is failed; in depth mode two candidates scored 0.4
    become children, the stack empties with [best_node] still the root,
    and the outcome is solved with solution "Start". *)
Lemma exhausted_root_outcome_witness :
  (exists r',
      solve gen_two (eval_const 0.1) 0 (mkSolver "bfs" 5 3 0) "p" tt 0 1 =
        Some (Returns (Failed "Max depth or no solution found"
                         (nodes_explored (self r')) (PrimFloat.sub 1 0)), r') /\
      constructions (trace r') = 0%nat) /\
  solve gen_two (eval_const 0.4) 4 (mkSolver "dfs" 5 2 0) "p" tt 0 1 =
    Some (Returns (Solved "Start" 0.5 0 2 1),
          mkRun (mkSolver "dfs" 5 2 2) tt low_trace) /\
  constructions low_trace = 2%nat /\
  dfs_state gen_two (eval_const 0.4) "p" (start (mkSolver "dfs" 5 2 0) tt)
    [] root (mkRun (mkSolver "dfs" 5 2 2) tt low_trace) /\
  (exists fuel0, forall extra,
      solve gen_two (eval_const 0.4) (fuel0 + extra) (mkSolver "dfs" 5 2 0)
            "p" tt 0 1 =
        Some (Returns (Solved "Start" 0.5 0
                         (nodes_explored
                            (self (mkRun (mkSolver "dfs" 5 2 2) tt low_trace)))
                         (PrimFloat.sub 1 0)),
              mkRun (mkSolver "dfs" 5 2 2) tt low_trace)) /\
  (exists fuel0, forall extra,
      exists r',
        solve gen_two (eval_const 0.4) (fuel0 + extra) (mkSolver "dfs" 5 2 0)
              "p" tt 0 1 =
          Some (Returns (Solved "Start" 0.5 0
                           (nodes_explored (self r')) (PrimFloat.sub 1 0)),
                r')).
Proof.
  assert (Hst : dfs_state gen_two (eval_const 0.4) "p"
                  (start (mkSolver "dfs" 5 2 0) tt) [] root
                  (mkRun (mkSolver "dfs" 5 2 2) tt low_trace)).
  { apply dfs_next
      with (node := make_child root "B" 0.4 1) (stack := []) (best := root)
           (r := mkRun (mkSolver "dfs" 5 2 2) tt (firstn 6 low_trace));
      [|reflexivity].
    apply dfs_next
      with (node := make_child root "A" 0.4 1)
           (stack := [make_child root "B" 0.4 1]) (best := root)
           (r := mkRun (mkSolver "dfs" 5 2 2) tt (firstn 5 low_trace));
      [|reflexivity].
    apply dfs_next
      with (node := root) (stack := []) (best := root)
           (r := start (mkSolver "dfs" 5 2 0) tt);
      [apply dfs_start|reflexivity]. }
  split.
  { apply (proj1 (exhausted_root_outcome gen_two (eval_const 0.1) 0
                    (mkSolver "bfs" 5 3 0) "p" tt 0 1));
      [reflexivity | simpl; lia | reflexivity]. }
  split; [reflexivity|]. split; [reflexivity|]. split; [exact Hst|]. split.
  - exact (proj1 (proj2 (proj2 (proj2
             (exhausted_root_outcome gen_two (eval_const 0.4) 0
                (mkSolver "dfs" 5 2 0) "p" tt 0 1))))
             eq_refl _ Hst).
  - exact (proj1 (proj2 (proj2 (proj2 (proj2
             (exhausted_root_outcome gen_two (eval_const 0.4) 0
                (mkSolver "dfs" 5 2 0) "p" tt 0 1)))))
             eq_refl (fun _ _ _ => eq_refl)).
Defined.



(** C3, counterexample. In depth mode the first evaluation of the run below
    reaches the success threshold (the path "Start", "DONE" scores 1.0), yet
    the search goes on with the sibling "A", evaluates two more paths and
    returns the path "Start", "A", "WIN" instead. *)
Lemma dfs_passes_over_first_success :
  solve gen_detour eval_detour 3 (mkSolver "dfs" 5 2 0) "p" tt 0 1 =
    Some (Returns (Solved (join nl ["Start"; "A"; "WIN"]%string) 0.95 2 3 1),
          mkRun (mkSolver "dfs" 5 2 3) tt detour_trace) /\
  nth_error detour_trace 1 =
    Some (EvEvaluate (join nl ["Start"; "DONE"]%string) "p" 1.0) /\
  PrimFloat.leb success_threshold 1.0 = true /\
  evaluations detour_trace = 3%nat /\
  join nl ["Start"; "A"; "WIN"]%string <> join nl ["Start"; "DONE"]%string.
Proof.
  split; [reflexivity|]. split; [reflexivity|]. split; [reflexivity|].
  split; [reflexivity|]. intros H. vm_compute in H. discriminate H.
Qed.

(** C3, witness: in breadth mode "A" (0.95) is returned as soon as it is
    evaluated, although "B" would have scored 1.0. *)
Lemma early_termination_witness :
  solve gen_two eval_two 0 (mkSolver "bfs" 5 2 0) "p" tt 0 1 =
    Some (Returns (Solved (join nl ["Start"; "A"]%string) 0.95 1 1 1),
          mkRun (mkSolver "bfs" 5 2 1) tt two_trace) /\
  evals_below [EvPrint 0 1; EvGenerate "" "p" 2 ["A"; "B"]%string] /\
  fst (eval_two (full_state_of root "B") "p" tt) = 1.0%float /\
  PrimFloat.ltb 0.95 1.0 = true.
Proof.
  split; [reflexivity|]. split; [|split; reflexivity].
  apply (proj1 (proj1 (early_termination gen_two eval_two
                         (mkSolver "bfs" 5 2 0) "p" tt 0 1) eq_refl
                  0%nat
                  (Returns (Solved (join nl ["Start"; "A"]%string) 0.95 1 1 1))
                  (mkRun (mkSolver "bfs" 5 2 1) tt two_trace)
                  [EvPrint 0 1; EvGenerate "" "p" 2 ["A"; "B"]%string]
                  [EvNode (make_child root "A" 0.95%float 1)]
                  (join nl ["Start"; "A"]%string) "p"%string 0.95%float
                  eq_refl eq_refl eq_refl)).
Defined.

(** C4, witness: the scenario with concrete collaborators. *)
Lemma done_scenario_witness :
  exists r' sol,
    solve gen_done eval_done 0 (mkSolver "bfs" 5 2 0) "p" tt 0 1 =
      Some (Returns (Solved sol 1.0 1 2 (PrimFloat.sub 1 0)), r') /\
    sol = String.append "Start" (String.append nl "DONE") /\
    (exists before, sol = String.append before "DONE") /\
    nodes_explored (self r') = 2 /\
    evaluations (trace r') = 2%nat.
Proof.
  apply done_scenario; try reflexivity.
  intros full p w0. unfold eval_done.
  destruct (contains "DONE" full); reflexivity.
Defined.

(** C5, witness: "A" is pruned (0.1), "B" is kept (0.5); two candidates are
    counted, one node is constructed. *)
Lemma pruned_candidates_witness :
  solve gen_two eval_prune 0 (mkSolver "bfs" 1 2 0) "p" tt 0 1 =
    Some (Returns (Solved (join nl ["Start"; "B"]%string) 0.5 1 2 1),
          mkRun (mkSolver "bfs" 1 2 2) tt prune_trace) /\
  2 = Z.of_nat (pruned_evaluations prune_trace + constructions prune_trace) /\
  pruned_evaluations prune_trace = 1%nat /\
  constructions prune_trace = 1%nat /\
  kept (make_child root "B" 0.5%float 1).
Proof.
  assert (Hrun :
            solve gen_two eval_prune 0 (mkSolver "bfs" 1 2 0) "p" tt 0 1 =
            Some (Returns (Solved (join nl ["Start"; "B"]%string) 0.5 1 2 1),
                  mkRun (mkSolver "bfs" 1 2 2) tt prune_trace))
    by reflexivity.
  destruct (pruned_candidates_leave_no_node gen_two eval_prune
              (mkSolver "bfs" 1 2 0) "p" tt) as (_ & _ & H).
  destruct (H _ _ _ _ _ Hrun) as (Hnodes & _ & Hcount & _).
  split; [exact Hrun|]. split; [exact Hcount|].
  split; [reflexivity|]. split; [reflexivity|].
  apply (Hnodes (make_child root "B" 0.5%float 1)).
  do 4 right. left. reflexivity.
Defined.


(** C7, witness: the node built for "B" is a child of the root. *)
Lemma constructed_nodes_witness :
  solve gen_two eval_prune 0 (mkSolver "bfs" 1 2 0) "p" tt 0 1 =
    Some (Returns (Solved (join nl ["Start"; "B"]%string) 0.5 1 2 1),
          mkRun (mkSolver "bfs" 1 2 2) tt prune_trace) /\
  exists p, child_of "p" prune_trace (make_child root "B" 0.5%float 1) p.
Proof.
  assert (Hrun :
            solve gen_two eval_prune 0 (mkSolver "bfs" 1 2 0) "p" tt 0 1 =
            Some (Returns (Solved (join nl ["Start"; "B"]%string) 0.5 1 2 1),
                  mkRun (mkSolver "bfs" 1 2 2) tt prune_trace))
    by reflexivity.
  split; [exact Hrun|].
  apply (proj1 (constructed_nodes_are_well_formed gen_two eval_prune 0
                  (mkSolver "bfs" 1 2 0) "p" tt 0 1 Hrun)
           (make_child root "B" 0.5%float 1)).
  do 4 right. left. reflexivity.
Defined.

(** C8, witness: the strategy "beam" is not recognised. *)
Lemma unknown_strategy_witness :
  exists r',
    solve gen_done eval_done 0 (mkSolver "beam" 5 3 7) "p" tt 0 1 =
      Some (Raises (ValueError "Unknown strategy: beam"), r') /\
    trace r' = [] /\ world r' = tt /\ nodes_explored (self r') = 0.
Proof.
  destruct (unknown_strategy_fails_fast gen_done eval_done 0
              (mkSolver "beam" 5 3 7) "p" tt 0 1)
    as (r' & H1 & H2 & H3 & _ & H5 & _); [discriminate | discriminate |].
  exists r'. auto.
Defined.

(** C9, witness: a breadth-first solution and the bare "Start" of an
    exhausted depth-first search. *)
Lemma solution_begins_with_start_witness :
  first_line_is "Start" (join nl ["Start"; "B"]%string) /\
  exists sc d k dur r',
    solve gen_none (eval_const 0.5) 2 (mkSolver "dfs" 5 3 0) "p" tt 0 1 =
      Some (Returns (Solved "Start" sc d k dur), r').
Proof.
  split.
  - apply (proj1 (solution_begins_with_start gen_two eval_prune
                    (mkSolver "bfs" 1 2 0) "p" tt 0 1)
             0%nat _ 0.5%float 1 2 1%float
             (mkRun (mkSolver "bfs" 1 2 2) tt prune_trace)).
    reflexivity.
  - apply (proj2 (solution_begins_with_start gen_none (eval_const 0.5)
                    (mkSolver "dfs" 5 3 0) "p" tt 0 1) eq_refl eq_refl 0%nat).
Defined.

(** C10. A generator that proposes the thought "Start" yields a non-root
    node whose state is "Start"; the substitution of the root marker tests
    the state text only, so when that node is expanded the generator is
    called with the empty string instead of "Start" (which would have made
    this generator answer "after Start"). Both traversals do so: the second
    generator call of each run below is the expansion of the non-root node
    [echo_child]. *)
Theorem start_thought_is_passed_as_empty :
  parent echo_child = Some root /\
  state echo_child = "Start"%string /\
  generator_state echo_child = EmptyString /\
  gen_echo (state echo_child) "p" 1 tt = (["after Start"]%string, tt) /\
  (forall p sc d h, generator_state (mkNode "Start" (Some p) sc d h) = EmptyString) /\
  solve gen_echo (eval_const 0.5) 0 (mkSolver "bfs" 2 1 0) "p" tt 0 1 =
    Some (Returns (Solved (join nl ["Start"; "Start"; "Start"]%string) 0.5 2 2 1),
          mkRun (mkSolver "bfs" 2 1 2) tt echo_bfs_trace) /\
  nth_error echo_bfs_trace 5 = Some (EvGenerate "" "p" 1 ["Start"]%string) /\
  solve gen_echo (eval_const 0.5) 4 (mkSolver "dfs" 1 1 0) "p" tt 0 1 =
    Some (Returns (Solved "Start" 0.5 0 2 1),
          mkRun (mkSolver "dfs" 1 1 2) tt echo_dfs_trace) /\
  nth_error echo_dfs_trace 3 = Some (EvGenerate "" "p" 1 ["Start"]%string).
Proof. repeat split. Qed.


(** * The language-model collaborators *)

(** ** Stripping and splitting *)

Lemma all_chars_lstrip (p : ascii -> bool) (s : string) :
  all_chars p s = true -> all_chars p (lstrip s) = true.
Proof.
  induction s as [|c s IH]; simpl; [reflexivity|].
  intros H. apply andb_prop in H. destruct H as [Hc Hs].
  destruct (is_space c); [now apply IH|]. simpl. now rewrite Hc, Hs.
Qed.

Lemma all_chars_rstrip (p : ascii -> bool) (s : string) :
  all_chars p s = true -> all_chars p (rstrip s) = true.
Proof.
  induction s as [|c s IH]; simpl; [reflexivity|].
  intros H. apply andb_prop in H. destruct H as [Hc Hs].
  specialize (IH Hs). destruct (rstrip s) as [|d t].
  - destruct (is_space c); simpl; [reflexivity|now rewrite Hc].
  - change (all_chars p (String c (String d t)))
      with (p c && all_chars p (String d t)). now rewrite Hc, IH.
Qed.

Lemma all_chars_strip (p : ascii -> bool) (s : string) :
  all_chars p s = true -> all_chars p (strip s) = true.
Proof. intros H. now apply all_chars_rstrip, all_chars_lstrip. Qed.

(** What [lstrip] leaves does not start with whitespace. *)
Lemma lstrip_head (s : string) :
  lstrip s = EmptyString \/
  exists c t, lstrip s = String c t /\ is_space c = false.
Proof.
  induction s as [|c s IH]; simpl; [now left|].
  destruct (is_space c) eqn:Hc; [exact IH|]. right. now exists c, s.
Qed.

Lemma rstrip_idem (s : string) : rstrip (rstrip s) = rstrip s.
Proof.
  induction s as [|c s IH]; [reflexivity|]. simpl.
  destruct (rstrip s) as [|d t] eqn:Hr.
  - destruct (is_space c) eqn:Hc; [reflexivity|]. simpl. now rewrite Hc.
  - change (rstrip (String c (String d t)))
      with (match rstrip (String d t) with
            | EmptyString =>
                if is_space c then EmptyString else String c EmptyString
            | String d' t' => String c (String d' t')
            end).
    now rewrite IH.
Qed.

(** [rstrip] keeps a first character that is no whitespace. *)
Lemma rstrip_head (c : ascii) (t : string) :
  is_space c = false -> exists t', rstrip (String c t) = String c t'.
Proof.
  intros Hc. simpl. destruct (rstrip t) as [|d u].
  - rewrite Hc. now exists EmptyString.
  - now exists (String d u).
Qed.

Lemma strip_idem (s : string) : strip (strip s) = strip s.
Proof.
  unfold strip. destruct (lstrip_head s) as [-> | (c & t & -> & Hc)];
    [reflexivity|].
  destruct (@rstrip_head c t Hc) as [t' Ht]. rewrite Ht.
  cbn [lstrip]. rewrite Hc, <- Ht. apply rstrip_idem.
Qed.

Lemma split_on_no_separator (sep : ascii) (s : string) :
  Forall (fun line => all_chars (fun c => negb (Ascii.eqb c sep)) line = true)
         (split_on sep s).
Proof.
  induction s as [|c s IH]; simpl.
  - constructor; [reflexivity|constructor].
  - destruct (Ascii.eqb c sep) eqn:Hc.
    + constructor; [reflexivity|exact IH].
    + destruct (split_on sep s) as [|line rest].
      * constructor; [simpl; now rewrite Hc|constructor].
      * apply Forall_cons_iff in IH. destruct IH as [Hl Hr].
        constructor; [simpl; now rewrite Hc, Hl|exact Hr].
Qed.

Lemma nonempty_true (s : string) : nonempty s = true -> s <> EmptyString.
Proof. destruct s; [discriminate|]. intros _ H. discriminate H. Qed.

Lemma slice_to_incl (A : Type) (n : Z) (l : list A) (P : A -> Prop) :
  Forall P l -> Forall P (slice_to n l).
Proof.
  intros H. unfold slice_to. destruct (0 <=? n); now apply Forall_firstn.
Qed.

(** [split] and [join] are inverse to each other on lines without the
    separator. *)
Lemma split_on_nonempty (sep : ascii) (s : string) : split_on sep s <> [].
Proof.
  induction s as [|c s IH]; simpl; [discriminate|].
  destruct (Ascii.eqb c sep); [discriminate|].
  destruct (split_on sep s); discriminate.
Qed.

Lemma split_on_plain (sep : ascii) (line : string) :
  all_chars (fun c => negb (Ascii.eqb c sep)) line = true ->
  split_on sep line = [line].
Proof.
  induction line as [|c line IH]; [reflexivity|].
  cbn [all_chars]. intros H. apply andb_prop in H. destruct H as [Hc Hl].
  apply negb_true_iff in Hc. cbn [split_on]. now rewrite Hc, (IH Hl).
Qed.

Lemma split_on_append (sep : ascii) (line rest : string) :
  all_chars (fun c => negb (Ascii.eqb c sep)) line = true ->
  split_on sep (String.append line (String sep rest)) =
  line :: split_on sep rest.
Proof.
  induction line as [|c line IH].
  - intros _. cbn [String.append split_on]. now rewrite Ascii.eqb_refl.
  - cbn [all_chars]. intros H. apply andb_prop in H. destruct H as [Hc Hl].
    apply negb_true_iff in Hc. cbn [String.append split_on].
    now rewrite Hc, (IH Hl).
Qed.

Lemma split_lines_join (lines : list string) :
  lines <> [] ->
  Forall (fun line => all_chars not_newline line = true) lines ->
  split_lines (join nl lines) = lines.
Proof.
  unfold split_lines, join.
  induction lines as [|x rest IH]; intros Hne Hall; [now contradiction Hne|].
  apply Forall_cons_iff in Hall. destruct Hall as [Hx Hrest].
  destruct rest as [|y rest].
  - cbn [String.concat]. now apply split_on_plain.
  - change (String.concat nl (x :: y :: rest))
      with (String.append x
              (String (ascii_of_nat 10) (String.concat nl (y :: rest)))).
    rewrite (@split_on_append (ascii_of_nat 10) x _ Hx).
    rewrite IH; [reflexivity|discriminate|exact Hrest].
Qed.

Lemma join_split_lines (s : string) : join nl (split_lines s) = s.
Proof.
  unfold split_lines, join. induction s as [|c s IH]; [reflexivity|].
  cbn [split_on]. pose proof (split_on_nonempty (ascii_of_nat 10) s) as Hne.
  destruct (Ascii.eqb_spec c (ascii_of_nat 10)) as [-> | _].
  - destruct (split_on (ascii_of_nat 10) s) as [|line rest];
      [now contradiction Hne|].
    change (String.concat nl (EmptyString :: line :: rest))
      with (String (ascii_of_nat 10) (String.concat nl (line :: rest))).
    now rewrite IH.
  - destruct (split_on (ascii_of_nat 10) s) as [|line rest];
      [now contradiction Hne|].
    destruct rest as [|line2 rest].
    + cbn [String.concat] in IH |- *. now rewrite IH.
    + change (String.concat nl (String c line :: line2 :: rest))
        with (String c (String.concat nl (line :: line2 :: rest))).
      now rewrite IH.
Qed.

(** The thoughts kept from the lines of a reply. *)
Lemma thoughts_shape (lines : list string) (n : Z) :
  Forall (fun line => all_chars not_newline line = true) lines ->
  Forall (fun t => t <> EmptyString /\ strip t = t /\
                   all_chars not_newline t = true)
         (slice_to n (map strip
                        (filter (fun line => nonempty (strip line)) lines))).
Proof.
  intros Hall. apply slice_to_incl. apply Forall_forall. intros t Ht.
  apply in_map_iff in Ht. destruct Ht as (line & <- & Hin).
  apply filter_In in Hin. destruct Hin as [Hin Hne].
  split; [now apply nonempty_true|]. split; [apply strip_idem|].
  apply all_chars_strip. rewrite Forall_forall in Hall. now apply Hall.
Qed.

(** X2. [LLMGenerator.generate_thoughts] returns the lines of the model's
    reply, stripped, without the blank ones, in their order, cut by
    [thoughts[:n]]. What the model raises propagates. Every reply is the
    join of its lines; whenever the reply is the newline-join of [lines]
    that hold no newline, the result is the slice of the stripped non-blank
    [lines]: their first [n] for [n >= 0], all but their last [-n] for a
    negative [n], which the slice does not reject. So each thought is not
    empty, holds no newline and neither starts nor ends with whitespace. *)
Theorem generated_thoughts_are_clean (W : Type) (llm : LLMAdapter W)
  (state problem : string) (n : Z) (w : W) :
  (forall e w',
      llm (generator_prompt state problem n) 0.7%float w = (inr e, w') ->
      LLMGenerator_generate_thoughts llm state problem n w = (inr e, w')) /\
  (forall lines w',
      Forall (fun line => all_chars not_newline line = true) lines ->
      llm (generator_prompt state problem n) 0.7%float w =
        (inl (join nl lines), w') ->
      exists thoughts,
        LLMGenerator_generate_thoughts llm state problem n w =
          (inl thoughts, w') /\
        (0 <= n ->
         thoughts =
           firstn (Z.to_nat n)
             (map strip (filter (fun line => nonempty (strip line)) lines))) /\
        (n < 0 ->
         thoughts =
           firstn (List.length
                     (filter (fun line => nonempty (strip line)) lines)
                   - Z.to_nat (- n))
             (map strip (filter (fun line => nonempty (strip line)) lines))) /\
        Forall (fun t => t <> EmptyString /\ strip t = t /\
                         all_chars not_newline t = true) thoughts) /\
  (forall reply w',
      llm (generator_prompt state problem n) 0.7%float w = (inl reply, w') ->
      exists lines,
        reply = join nl lines /\
        Forall (fun line => all_chars not_newline line = true) lines).
Proof.
  split; [|split].
  - intros e w' H. unfold LLMGenerator_generate_thoughts. now rewrite H.
  - intros lines w' Hall H.
    exists (slice_to n (map strip
                          (filter (fun line => nonempty (strip line)) lines))).
    split; [|split; [|split]].
    + unfold LLMGenerator_generate_thoughts. rewrite H.
      destruct lines as [|x rest]; [reflexivity|].
      rewrite split_lines_join; [reflexivity|discriminate|exact Hall].
    + intros Hn. unfold slice_to.
      now replace (0 <=? n) with true by (symmetry; now apply Z.leb_le).
    + intros Hn. unfold slice_to.
      replace (0 <=? n) with false by (symmetry; apply Z.leb_gt; lia).
      now rewrite length_map.
    + now apply thoughts_shape.
  - intros reply w' _. exists (split_lines reply).
    split; [symmetry; apply join_split_lines|].
    apply (split_on_no_separator (ascii_of_nat 10) reply).
Qed.

(** X2, witness: of four lines, one of them blank, the first two that
    are not. *)
Lemma generated_thoughts_witness :
  LLMGenerator_generate_thoughts
    (llm_reply (join nl ["  first "; ""; " second"; "third  "]%string))
    "" "Plan" 2 tt =
    (inl ["first"; "second"]%string, tt) /\
  exists thoughts,
    LLMGenerator_generate_thoughts
      (llm_reply (join nl ["  first "; ""; " second"; "third  "]%string))
      "" "Plan" 2 tt = (inl thoughts, tt) /\
    (0 <= 2 ->
     thoughts =
       firstn (Z.to_nat 2)
         (map strip (filter (fun line => nonempty (strip line))
                            ["  first "; ""; " second"; "third  "]%string))) /\
    (2 < 0 ->
     thoughts =
       firstn (List.length
                 (filter (fun line => nonempty (strip line))
                         ["  first "; ""; " second"; "third  "]%string)
               - Z.to_nat (- 2))
         (map strip (filter (fun line => nonempty (strip line))
                            ["  first "; ""; " second"; "third  "]%string))) /\
    Forall (fun t => t <> EmptyString /\ strip t = t /\
                     all_chars not_newline t = true) thoughts.
Proof.
  split; [reflexivity|].
  assert (Hall : Forall (fun line => all_chars not_newline line = true)
                   ["  first "; ""; " second"; "third  "]%string)
    by (repeat constructor).
  exact (proj1 (proj2
           (@generated_thoughts_are_clean unit
              (llm_reply (join nl ["  first "; ""; " second"; "third  "]%string))
              "" "Plan" 2 tt))
           ["  first "; ""; " second"; "third  "]%string tt Hall eq_refl).
Defined.


(** ** The score pattern *)

Lemma take_digits_digits (s : string) :
  all_chars is_digit (take_digits s) = true.
Proof.
  induction s as [|c s IH]; simpl; [reflexivity|].
  destruct (is_digit c) eqn:Hc; [|reflexivity]. simpl. now rewrite Hc, IH.
Qed.

Lemma take_digits_prefix (s : string) :
  exists after, s = String.append (take_digits s) after.
Proof.
  induction s as [|c s [after IH]]; simpl; [now exists EmptyString|].
  destruct (is_digit c).
  - exists after. simpl. now rewrite <- IH.
  - now exists (String c s).
Qed.

Lemma prefix_append (a s : string) :
  String.prefix a s = true -> exists after, s = String.append a after.
Proof.
  revert s. induction a as [|c a IH]; intros s H; [now exists s|].
  destruct s as [|d s]; [discriminate|]. simpl in H.
  destruct (ascii_dec c d) as [<- | _]; [|discriminate].
  destruct (IH s H) as [after ->]. now exists after.
Qed.

(** A match at the start of [s] is a score text and a prefix of [s]. *)
Lemma match_here_spec (s m : string) :
  match_here s = Some m ->
  score_text m /\ exists after, s = String.append m after.
Proof.
  destruct s as [|c rest]; [discriminate|]. unfold match_here.
  destruct (Ascii.eqb_spec c "0") as [-> | Hc0].
  - destruct rest as [|d rest']; [discriminate|].
    destruct (Ascii.eqb_spec d ".") as [-> | _]; [|discriminate].
    destruct (take_digits rest') as [|d1 digits] eqn:Ht; [discriminate|].
    intros [= <-]. split.
    + right. right. exists (String d1 digits).
      split; [discriminate|]. split; [|reflexivity].
      rewrite <- Ht. apply take_digits_digits.
    + destruct (take_digits_prefix rest') as [after Hrest].
      rewrite Ht in Hrest. exists after. simpl. now rewrite Hrest at 1.
  - destruct (Ascii.eqb_spec c "1") as [-> | _]; [|discriminate].
    destruct (String.prefix ".0" rest) eqn:Hp; intros [= <-].
    + split; [right; now left|].
      destruct (prefix_append _ _ Hp) as [after ->]. now exists after.
    + split; [now left|]. now exists rest.
Qed.

Lemma occurs_tail (m : string) (c : ascii) (s : string) :
  occurs m s -> occurs m (String c s).
Proof.
  intros (before & after & ->). now exists (String c before), after.
Qed.

Lemma search_score_spec (s m : string) :
  search_score s = Some m -> score_text m /\ occurs m s.
Proof.
  induction s as [|c s IH]; cbn [search_score].
  - discriminate.
  - destruct (match_here (String c s)) as [m'|] eqn:Hm.
    + intros [= <-]. apply match_here_spec in Hm.
      destruct Hm as [Hshape [after Hs]]. split; [exact Hshape|].
      exists EmptyString, after. exact Hs.
    + intros H. destruct (IH H) as [Hshape Hocc].
      split; [exact Hshape|now apply occurs_tail].
Qed.

(** Without a "0" and without a "1" there is nothing to match. *)
Lemma search_score_none (s : string) :
  all_chars (fun c => negb (Ascii.eqb c "0") && negb (Ascii.eqb c "1")) s = true ->
  search_score s = None.
Proof.
  induction s as [|c s IH]; [reflexivity|]. simpl.
  intros H. apply andb_prop in H. destruct H as [Hc Hs].
  apply andb_prop in Hc. destruct Hc as [H0 H1].
  apply negb_true_iff in H0, H1. rewrite H0, H1. now apply IH.
Qed.

Lemma lstrip_suffix (s : string) :
  exists before, s = String.append before (lstrip s).
Proof.
  induction s as [|c s [before IH]]; simpl; [now exists EmptyString|].
  destruct (is_space c).
  - exists (String c before). simpl. now rewrite <- IH.
  - now exists EmptyString.
Qed.

Lemma rstrip_prefix (s : string) :
  exists after, s = String.append (rstrip s) after.
Proof.
  induction s as [|c s [after IH]]; simpl; [now exists EmptyString|].
  destruct (rstrip s) as [|d t].
  - destruct (is_space c).
    + now exists (String c s).
    + exists after. simpl. simpl in IH. now rewrite <- IH.
  - exists after. simpl. simpl in IH. now rewrite <- IH.
Qed.

Lemma occurs_strip (m s : string) : occurs m (strip s) -> occurs m s.
Proof.
  intros (before & after & H). unfold strip in H.
  destruct (lstrip_suffix s) as [b Hb].
  destruct (rstrip_prefix (lstrip s)) as [a Ha].
  exists (String.append b before), (String.append after a).
  rewrite Hb at 1. rewrite Ha at 1. rewrite H.
  now rewrite !append_assoc.
Qed.

(** Where a score text occurs, the search finds one. *)
Lemma match_here_complete (m after : string) :
  score_text m -> match_here (String.append m after) <> None.
Proof.
  intros [-> | [-> | (digits & Hne & Hd & ->)]].
  - cbn [String.append match_here].
    replace (Ascii.eqb "1" "0") with false by reflexivity.
    replace (Ascii.eqb "1" "1") with true by reflexivity.
    destruct (String.prefix ".0" after); discriminate.
  - cbn [String.append match_here].
    replace (Ascii.eqb "1" "0") with false by reflexivity.
    replace (Ascii.eqb "1" "1") with true by reflexivity.
    destruct (String.prefix ".0" (String "." (String "0" after)));
      discriminate.
  - destruct digits as [|d digits]; [now contradiction Hne|].
    cbn [all_chars] in Hd. apply andb_prop in Hd. destruct Hd as [Hd _].
    cbn [String.append match_here take_digits].
    replace (Ascii.eqb "0" "0") with true by reflexivity.
    replace (Ascii.eqb "." ".") with true by reflexivity.
    rewrite Hd. discriminate.
Qed.

Lemma search_score_complete (m s : string) :
  score_text m -> occurs m s -> search_score s <> None.
Proof.
  intros Hm (before & after & ->).
  induction before as [|c before IH].
  - cbn [String.append].
    pose proof (@match_here_complete m after Hm) as Hh.
    destruct (String.append m after) as [|c t] eqn:Hs.
    + now contradiction Hh.
    + cbn [search_score].
      destruct (match_here (String c t)); [discriminate|now contradiction Hh].
  - cbn [String.append search_score].
    destruct (match_here (String c (String.append before
                                      (String.append m after))));
      [discriminate|exact IH].
Qed.

(** X3. [LLMEvaluator.evaluate] and what the model raises: an instance of
    [Exception] is caught and gives the fallback 0.5; anything else
    ([KeyboardInterrupt], [SystemExit]) is not caught and propagates. On a
    reply, the result is the fallback 0.5 exactly when no text of the form
    "1", "1.0" or "0." with one or more digits occurs in the stripped
    reply; otherwise it is the conversion of such a text occurring in
    it. *)
Theorem evaluator_score_or_fallback (W : Type) (to_float : string -> float)
  (llm : LLMAdapter W) (state problem : string) (w : W) :
  (forall class_name message w',
      llm (evaluator_prompt state problem) 0.1%float w =
        (inr (OfException class_name message), w') ->
      LLMEvaluator_evaluate to_float llm state problem w =
        (inl 0.5%float, w')) /\
  (forall class_name w',
      llm (evaluator_prompt state problem) 0.1%float w =
        (inr (OfBaseException class_name), w') ->
      LLMEvaluator_evaluate to_float llm state problem w =
        (inr (OfBaseException class_name), w')) /\
  (forall reply w',
      llm (evaluator_prompt state problem) 0.1%float w = (inl reply, w') ->
      ((forall m, score_text m -> ~ occurs m (strip reply)) ->
       LLMEvaluator_evaluate to_float llm state problem w =
         (inl 0.5%float, w')) /\
      (forall m0,
          score_text m0 -> occurs m0 (strip reply) ->
          exists m,
            score_text m /\ occurs m (strip reply) /\ occurs m reply /\
            LLMEvaluator_evaluate to_float llm state problem w =
              (inl (to_float m), w')) /\
      (all_chars no_score_start reply = true ->
       LLMEvaluator_evaluate to_float llm state problem w =
         (inl 0.5%float, w'))).
Proof.
  unfold LLMEvaluator_evaluate. split; [|split].
  - intros class_name message w' ->. reflexivity.
  - intros class_name w' ->. reflexivity.
  - intros reply w' ->. split; [|split].
    + intros Hnone.
      destruct (search_score (strip reply)) as [m|] eqn:Hs; [|reflexivity].
      apply search_score_spec in Hs. destruct Hs as [Hm Hocc].
      now contradiction (Hnone m Hm).
    + intros m0 Hm0 Hocc0.
      destruct (search_score (strip reply)) as [m|] eqn:Hs.
      * apply search_score_spec in Hs. destruct Hs as [Hm Hocc].
        exists m. split; [exact Hm|]. split; [exact Hocc|].
        split; [now apply occurs_strip|reflexivity].
      * now contradiction (@search_score_complete m0 (strip reply) Hm0 Hocc0).
    + intros Hfree.
      rewrite search_score_none; [reflexivity|].
      now apply all_chars_strip.
Qed.

(** X3, witness: a model that raises [RuntimeError], one that raises
    [KeyboardInterrupt], and a reply without a number. *)
Lemma evaluator_score_or_fallback_witness :
  LLMEvaluator_evaluate decimal_float
    (llm_raises (OfException "RuntimeError" "boom")) "Start" "p" tt =
    (inl 0.5%float, tt) /\
  LLMEvaluator_evaluate decimal_float
    (llm_raises (OfBaseException "KeyboardInterrupt")) "Start" "p" tt =
    (inr (OfBaseException "KeyboardInterrupt"), tt) /\
  LLMEvaluator_evaluate decimal_float (llm_reply "no score") "Start" "p" tt =
    (inl 0.5%float, tt).
Proof.
  split; [|split].
  - exact (proj1 (@evaluator_score_or_fallback unit decimal_float
                    (llm_raises (OfException "RuntimeError" "boom"))
                    "Start" "p" tt)
             "RuntimeError"%string "boom"%string tt eq_refl).
  - exact (proj1 (proj2 (@evaluator_score_or_fallback unit decimal_float
                           (llm_raises (OfBaseException "KeyboardInterrupt"))
                           "Start" "p" tt))
             "KeyboardInterrupt"%string tt eq_refl).
  - exact (proj2 (proj2 (proj2 (proj2
             (@evaluator_score_or_fallback unit decimal_float
                (llm_reply "no score") "Start" "p" tt))
             "no score"%string tt eq_refl)) eq_refl).
Defined.

(** X4. A reply whose text, once stripped, begins with the digit 1 is
    scored as 1, whatever follows: "10", "15" or "1.5" all give the
    conversion of "1", and "1.0..." that of "1.0". *)
Theorem reply_starting_with_one (W : Type) (to_float : string -> float)
  (llm : LLMAdapter W) (state problem : string) (w w' : W)
  (reply rest : string) :
  llm (evaluator_prompt state problem) 0.1%float w = (inl reply, w') ->
  strip reply = String "1" rest ->
  LLMEvaluator_evaluate to_float llm state problem w =
    (inl (to_float (if String.prefix ".0" rest then "1.0" else "1")%string), w').
Proof.
  intros Hl Hs. unfold LLMEvaluator_evaluate. rewrite Hl, Hs.
  cbn [search_score match_here].
  replace (Ascii.eqb "1" "0") with false by reflexivity.
  replace (Ascii.eqb "1" "1") with true by reflexivity.
  now destruct (String.prefix ".0" rest).
Qed.

(** X4, witness: a reply of "10/10" is read as 1. *)
Lemma reply_starting_with_one_witness :
  strip " 10/10 " = String "1" "0/10" /\
  LLMEvaluator_evaluate decimal_float (llm_reply " 10/10 ") "Start" "p" tt =
    (inl 1%float, tt).
Proof.
  split; [reflexivity|].
  exact (@reply_starting_with_one unit decimal_float (llm_reply " 10/10 ")
           "Start" "p" tt tt " 10/10 " "0/10" eq_refl eq_refl).
Defined.


(** ** Over the mock model *)

Lemma evaluator_prompt_says_evaluate (state problem : string) :
  contains "evaluate" (lower (evaluator_prompt state problem)) = true.
Proof. reflexivity. Qed.

(** X5. Over [MockLLM] the evaluator is constant: the prompt of
    [LLMEvaluator] itself contains the word "Evaluate", so the mock model
    always replies "0.8" and every state of every problem is scored
    [float("0.8")]. *)
Theorem mock_evaluator_is_constant (W : Type) (to_float : string -> float)
  (state problem : string) (w : W) :
  LLMEvaluator_evaluate to_float (@MockLLM W) state problem w =
    (inl (to_float "0.8"%string), w).
Proof.
  unfold LLMEvaluator_evaluate, MockLLM, MockLLM_generate.
  rewrite evaluator_prompt_says_evaluate. reflexivity.
Qed.

(** ** Substrings *)

Lemma lower_append (a b : string) :
  lower (String.append a b) = String.append (lower a) (lower b).
Proof. induction a as [|c a IH]; simpl; [reflexivity|now rewrite IH]. Qed.

Lemma all_chars_append (p : ascii -> bool) (a b : string) :
  all_chars p (String.append a b) = all_chars p a && all_chars p b.
Proof.
  induction a as [|c a IH]; simpl; [reflexivity|].
  now rewrite IH, andb_assoc.
Qed.

Lemma occurs_all_chars (p : ascii -> bool) (needle s : string) :
  occurs needle s -> all_chars p s = true -> all_chars p needle = true.
Proof.
  intros (before & after & ->). rewrite !all_chars_append.
  intros H. apply andb_prop in H. destruct H as [_ H].
  apply andb_prop in H. apply H.
Qed.

Lemma occurs_middle (needle a b c : string) :
  occurs needle b -> occurs needle (String.append a (String.append b c)).
Proof.
  intros (before & after & ->).
  exists (String.append a before), (String.append after c).
  now rewrite !append_assoc.
Qed.

Lemma contains_cons (needle : string) (c : ascii) (s : string) :
  contains needle (String c s) =
  String.prefix needle (String c s) || contains needle s.
Proof.
  unfold contains. cbn [String.index].
  destruct (String.prefix needle (String c s)); [reflexivity|].
  now destruct (String.index 0 needle s).
Qed.

Lemma prefix_of_append (a after : string) :
  String.prefix a (String.append a after) = true.
Proof.
  induction a as [|c a IH]; simpl; [now destruct after|].
  destruct (ascii_dec c c) as [_ | H]; [exact IH|now contradiction H].
Qed.

Lemma contains_occurs (needle s : string) :
  contains needle s = true -> occurs needle s.
Proof.
  induction s as [|c s IH].
  - destruct needle; [|discriminate]. intros _.
    now exists EmptyString, EmptyString.
  - rewrite contains_cons. intros H. apply orb_prop in H.
    destruct H as [H | H].
    + apply prefix_append in H. destruct H as [after H].
      now exists EmptyString, after.
    + now apply occurs_tail, IH.
Qed.

Lemma occurs_contains (needle s : string) :
  occurs needle s -> contains needle s = true.
Proof.
  intros (before & after & ->). induction before as [|c before IH].
  - cbn [String.append].
    destruct (String.append needle after) as [|c s] eqn:Hs.
    + destruct needle; [reflexivity|discriminate].
    + rewrite contains_cons, <- Hs, prefix_of_append. reflexivity.
  - cbn [String.append]. rewrite contains_cons, IH. apply orb_true_r.
Qed.

(** A needle without the character [c] that starts inside [a], in
    [a ++ c ++ b], ends inside [a]. *)
Lemma needle_before_separator (c : ascii) (needle : string) :
  all_chars (fun d => negb (Ascii.eqb d c)) needle = true ->
  forall a b after,
    String.append needle after = String.append a (String c b) ->
    exists a', a = String.append needle a'.
Proof.
  intros Hfree. induction needle as [|d needle IH]; intros a b after H.
  - now exists a.
  - cbn [all_chars] in Hfree. apply andb_prop in Hfree.
    destruct Hfree as [Hd Hfree]. apply negb_true_iff in Hd.
    destruct a as [|x a]; cbn [String.append] in H; injection H as -> H.
    + now rewrite Ascii.eqb_refl in Hd.
    + destruct (IH Hfree a b after H) as [a' ->]. now exists a'.
Qed.

(** A needle without the character [c] does not straddle an occurrence of
    [c]. *)
Lemma occurs_separated (c : ascii) (needle a b : string) :
  all_chars (fun d => negb (Ascii.eqb d c)) needle = true ->
  occurs needle (String.append a (String c b)) ->
  occurs needle a \/ occurs needle b.
Proof.
  intros Hfree (before & after & H). revert a H.
  induction before as [|p before IH]; intros a H.
  - left. cbn [String.append] in H. symmetry in H.
    destruct (needle_before_separator c needle Hfree a b after H) as [a' ->].
    now exists EmptyString, a'.
  - destruct a as [|x a]; cbn [String.append] in H; injection H as <- H.
    + right. now exists before, after.
    + destruct (IH a H) as [Ha | Hb]; [left; now apply occurs_tail|now right].
Qed.

(** ** The generator over the mock model *)

Lemma string_of_uint_chars (d : Decimal.uint) :
  all_chars is_int_char (NilEmpty.string_of_uint d) = true.
Proof. induction d; simpl; auto. Qed.

Lemma str_of_int_chars (n : Z) : all_chars is_int_char (str_of_int n) = true.
Proof.
  unfold str_of_int, NilZero.string_of_int, NilZero.string_of_uint.
  destruct (Z.to_int n) as [d | d]; destruct d; simpl;
    auto using string_of_uint_chars.
Qed.

Lemma lower_int_char (c : ascii) : is_int_char c = true -> lower_char c = c.
Proof.
  unfold is_int_char, is_digit, lower_char.
  intros H. apply orb_prop in H. destruct H as [H | H].
  - apply andb_prop in H. destruct H as [H1 H2].
    apply Nat.leb_le in H1, H2.
    replace (65 <=? nat_of_ascii c)%nat with false
      by (symmetry; apply Nat.leb_gt; lia).
    replace (192 <=? nat_of_ascii c)%nat with false
      by (symmetry; apply Nat.leb_gt; lia).
    reflexivity.
  - apply Ascii.eqb_eq in H. now subst c.
Qed.

Lemma lower_int_chars (s : string) :
  all_chars is_int_char s = true -> lower s = s.
Proof.
  induction s as [|c s IH]; simpl; [reflexivity|].
  intros H. apply andb_prop in H. destruct H as [Hc Hs].
  now rewrite (lower_int_char _ Hc), IH.
Qed.

(** The generator prompt, cut at the whitespace around the three
    interpolated values. *)
Lemma generator_prompt_cut (state problem : string) (n : Z) :
  generator_prompt state problem n =
  String.append prompt_to_problem
    (String " "
       (String.append problem
          (String (ascii_of_nat 10)
             (String.append prompt_to_state
                (String " "
                   (String.append state
                      (String (ascii_of_nat 10)
                         (String.append prompt_to_count
                            (String " "
                               (String.append (str_of_int n)
                                  (String " " prompt_rest))))))))))).
Proof.
  unfold generator_prompt. generalize (str_of_int n) as printed.
  intros printed. reflexivity.
Qed.

Lemma occurs_after (needle a : string) (c : ascii) (b : string) :
  occurs needle b -> occurs needle (String.append a (String c b)).
Proof.
  intros (before & after & ->).
  exists (String.append a (String c before)), after.
  rewrite append_assoc. reflexivity.
Qed.

Lemma occurs_before (needle b rest : string) :
  occurs needle b -> occurs needle (String.append b rest).
Proof.
  intros (before & after & ->).
  exists before, (String.append after rest). now rewrite !append_assoc.
Qed.

(** The lowered prompt, with its separators spelled out. *)
Lemma generator_prompt_lowered (state problem : string) (n : Z) :
  lower (generator_prompt state problem n) =
  String.append (lower prompt_to_problem)
    (String " "
       (String.append (lower problem)
          (String (ascii_of_nat 10)
             (String.append (lower prompt_to_state)
                (String " "
                   (String.append (lower state)
                      (String (ascii_of_nat 10)
                         (String.append (lower prompt_to_count)
                            (String " "
                               (String.append (str_of_int n)
                                  (String " " (lower prompt_rest)))))))))))).
Proof.
  rewrite generator_prompt_cut.
  rewrite <- (lower_int_chars _ (str_of_int_chars n)) at 2.
  repeat (rewrite lower_append; cbn [lower]). reflexivity.
Qed.

(** A word without blank and newline that occurs in the lowered prompt
    occurs in one of its seven parts. *)
Lemma occurs_in_generator_prompt (needle state problem : string) (n : Z) :
  all_chars (fun d => negb (Ascii.eqb d " ")) needle = true ->
  all_chars (fun d => negb (Ascii.eqb d (ascii_of_nat 10))) needle = true ->
  occurs needle (lower (generator_prompt state problem n)) ->
  occurs needle (lower prompt_to_problem) \/
  occurs needle (lower problem) \/
  occurs needle (lower prompt_to_state) \/
  occurs needle (lower state) \/
  occurs needle (lower prompt_to_count) \/
  occurs needle (str_of_int n) \/
  occurs needle (lower prompt_rest).
Proof.
  intros Hsp Hnl H. rewrite generator_prompt_lowered in H.
  apply (@occurs_separated " " _ _ _ Hsp) in H. destruct H as [H | H]; [tauto|].
  apply (@occurs_separated (ascii_of_nat 10) _ _ _ Hnl) in H.
  destruct H as [H | H]; [tauto|].
  apply (@occurs_separated " " _ _ _ Hsp) in H. destruct H as [H | H]; [tauto|].
  apply (@occurs_separated (ascii_of_nat 10) _ _ _ Hnl) in H.
  destruct H as [H | H]; [tauto|].
  apply (@occurs_separated " " _ _ _ Hsp) in H. destruct H as [H | H]; [tauto|].
  apply (@occurs_separated " " _ _ _ Hsp) in H. tauto.
Qed.

(** The word "evaluate" reaches the generator prompt through the problem
    or the state only; the word "generate" is always there. *)
Lemma generator_prompt_evaluate (state problem : string) (n : Z) :
  contains "evaluate" (lower (generator_prompt state problem n)) =
  contains "evaluate" (lower problem) || contains "evaluate" (lower state).
Proof.
  destruct (contains "evaluate" (lower problem)) eqn:Hproblem.
  { apply occurs_contains. rewrite generator_prompt_lowered.
    apply contains_occurs in Hproblem.
    apply occurs_after. now apply occurs_before. }
  destruct (contains "evaluate" (lower state)) eqn:Hstate.
  { apply occurs_contains. rewrite generator_prompt_lowered.
    apply contains_occurs in Hstate.
    do 3 apply occurs_after. now apply occurs_before. }
  destruct (contains "evaluate" (lower (generator_prompt state problem n)))
    eqn:Hc; [|reflexivity].
  apply contains_occurs in Hc.
  apply occurs_in_generator_prompt in Hc; try reflexivity.
  destruct Hc as [Hc | [Hc | [Hc | [Hc | [Hc | [Hc | Hc]]]]]];
    try (apply occurs_contains in Hc; vm_compute in Hc; discriminate Hc);
    try (apply occurs_contains in Hc; congruence).
  apply occurs_all_chars with (p := is_int_char) in Hc;
    [vm_compute in Hc; discriminate Hc|apply str_of_int_chars].
Qed.

Lemma generator_prompt_generate (state problem : string) (n : Z) :
  contains "generate" (lower (generator_prompt state problem n)) = true.
Proof.
  apply occurs_contains. rewrite generator_prompt_lowered.
  do 4 apply occurs_after. apply occurs_before.
  apply contains_occurs. reflexivity.
Qed.

(** The generator over [MockLLM] for a problem and a state without the
    word "evaluate". *)
Lemma mock_generator_steps (W : Type) (state problem : string) (n : Z)
  (w : W) :
  contains "evaluate" (lower problem) = false ->
  contains "evaluate" (lower state) = false ->
  LLMGenerator_generate_thoughts (@MockLLM W) state problem n w =
    (inl (slice_to n ["Step 1"; "Step 2"; "Step 3"]%string), w).
Proof.
  intros Hproblem Hstate.
  unfold LLMGenerator_generate_thoughts, MockLLM, MockLLM_generate.
  rewrite generator_prompt_evaluate, Hproblem, Hstate.
  cbn [orb]. rewrite generator_prompt_generate. reflexivity.
Qed.

(** X6. Over [MockLLM] the generator depends on its prompt only through
    two words. When the problem or the state contains "evaluate" in any
    letter case, the mock model takes the generator's prompt for an
    evaluation and the only thought is "0.8"; otherwise the thoughts are
    "Step 1", "Step 2", "Step 3", cut to [n]. *)
Theorem mock_generator_thoughts (W : Type) (state problem : string) (n : Z)
  (w : W) :
  (contains "evaluate" (lower problem) = true \/
   contains "evaluate" (lower state) = true ->
   LLMGenerator_generate_thoughts (@MockLLM W) state problem n w =
     (inl (slice_to n ["0.8"]%string), w)) /\
  (contains "evaluate" (lower problem) = false ->
   contains "evaluate" (lower state) = false ->
   LLMGenerator_generate_thoughts (@MockLLM W) state problem n w =
     (inl (slice_to n ["Step 1"; "Step 2"; "Step 3"]%string), w)).
Proof.
  split; [|apply mock_generator_steps].
  intros H.
  unfold LLMGenerator_generate_thoughts, MockLLM, MockLLM_generate.
  rewrite generator_prompt_evaluate.
  replace (contains "evaluate" (lower problem)
           || contains "evaluate" (lower state)) with true.
  - reflexivity.
  - symmetry. apply orb_true_iff. exact H.
Qed.

(** X6, witness: a problem that mentions an evaluation, and one that does
    not, asked for all but the last thought. *)
Lemma mock_generator_thoughts_witness :
  LLMGenerator_generate_thoughts (@MockLLM unit) "" "Evaluate the plan" 3 tt =
    (inl ["0.8"]%string, tt) /\
  LLMGenerator_generate_thoughts (@MockLLM unit) "" "Plan" (-1) tt =
    (inl ["Step 1"; "Step 2"]%string, tt).
Proof.
  split.
  - exact (proj1 (@mock_generator_thoughts unit "" "Evaluate the plan" 3 tt)
             (or_introl eq_refl)).
  - exact (proj2 (@mock_generator_thoughts unit "" "Plan" (-1) tt)
             eq_refl eq_refl).
Defined.

(** ** The order of nodes *)

(** X7. [SearchNode.__lt__] is a strict order by descending score: no node
    is below itself, two nodes are never below each other, the relation is
    transitive, and a node comes first exactly when its score is the
    greater one, so of two nodes with scores that are not NaN and of which
    neither comes first, the scores tie. *)
Theorem node_lt_strict_order :
  (forall a, node_lt a a = false) /\
  (forall a b, node_lt a b = true -> node_lt b a = false) /\
  (forall a b c,
      node_lt a b = true -> node_lt b c = true -> node_lt a c = true) /\
  (forall a b,
      node_lt a b = true ->
      PrimFloat.leb (score a) (score b) = false /\ ge_score a b) /\
  (forall a b,
      comparable a -> comparable b ->
      node_lt a b = false -> node_lt b a = false ->
      ties (score a) b = true).
Proof.
  unfold node_lt, comparable, ge_score, ties.
  split; [intros a; apply ltb_irrefl|].
  split; [intros a b; apply ltb_asym|].
  split; [intros a b c Hab Hbc; now apply ltb_trans with (y := score b)|].
  split.
  - intros a b H. split; [now apply ltb_not_leb|now apply ltb_leb].
  - intros a b Ha Hb Hab Hba. apply andb_true_intro. split.
    + now apply leb_total.
    + now apply leb_total.
Qed.

(** * Further properties on concrete runs *)

(** X8, witness: two levels, breadth first, with every path scored 0.5. *)
Lemma reported_depth_witness :
  solve gen_echo (eval_const 0.5) 0 (mkSolver "bfs" 2 1 0) "p" tt 0 1 =
    Some (Returns (Solved (join nl ["Start"; "Start"; "Start"]%string) 0.5 2 2 1),
          mkRun (mkSolver "bfs" 2 1 2) tt echo_bfs_trace) /\
  0 <= 2 <= Z.max 0 2.
Proof.
  split; [reflexivity|].
  exact (proj1 (@reported_depth_is_bounded unit gen_echo (eval_const 0.5) 0
                  (mkSolver "bfs" 2 1 0) "p" tt 0 1
                  (join nl ["Start"; "Start"; "Start"]%string) 0.5 2 2 1
                  (mkRun (mkSolver "bfs" 2 1 2) tt echo_bfs_trace) eq_refl)).
Defined.

(** X9, witness: "B" is returned, and "A" was constructed with a lower
    score. *)
Lemma dfs_exhausted_witness :
  solve gen_two eval_many 4 (mkSolver "dfs" 1 2 0) "p" tt 0 1 =
    Some (Returns (Solved (join nl ["Start"; "B"]%string) 0.8 1 2 1),
          mkRun (mkSolver "dfs" 1 2 2) tt best_trace) /\
  constructed best_trace (make_child root "A" 0.4 1) /\
  PrimFloat.ltb 0.8 (score (make_child root "A" 0.4 1)) = false.
Proof.
  split; [reflexivity|].
  assert (Hc : constructed best_trace (make_child root "A" 0.4 1))
    by (do 4 right; left; reflexivity).
  split; [exact Hc|].
  exact (@dfs_exhausted_returns_best unit gen_two eval_many 4
           (mkSolver "dfs" 1 2 0) "p" tt 0 1
           (join nl ["Start"; "B"]%string) 0.8 1 2 1
           (mkRun (mkSolver "dfs" 1 2 2) tt best_trace)
           eq_refl eq_refl eq_refl (make_child root "A" 0.4 1)
           (or_intror Hc) (Z.le_refl 1)).
Defined.

(** X10, witness: depth first with [max_depth = 1], a node is built at
    depth 2. *)
Lemma trace_respects_configuration_witness :
  solve gen_echo (eval_const 0.5) 4 (mkSolver "dfs" 1 1 0) "p" tt 0 1 =
    Some (Returns (Solved "Start" 0.5 0 2 1),
          mkRun (mkSolver "dfs" 1 1 2) tt echo_dfs_trace) /\
  Forall (event_ok "p" 1 2 false) echo_dfs_trace /\
  In (EvNode (make_child echo_child "Start" 0.5 2)) echo_dfs_trace.
Proof.
  split; [reflexivity|]. split.
  - exact (@trace_respects_configuration unit gen_echo (eval_const 0.5) 4
             (mkSolver "dfs" 1 1 0) "p" tt 0 1
             (Returns (Solved "Start" 0.5 0 2 1))
             (mkRun (mkSolver "dfs" 1 1 2) tt echo_dfs_trace) eq_refl).
  - do 5 right. left. reflexivity.
Defined.

(** X11, witness: breadth first with [max_depth = 0], with collaborators
    that would have led to a success. *)
Lemma nothing_to_search_witness :
  max_depth (mkSolver "bfs" 0 2 0) <= 0 /\
  solve gen_two eval_two 2 (mkSolver "bfs" 0 2 0) "p" tt 0 1 =
    Some (Returns (Solved "Start" 0.5 0 0 (PrimFloat.sub 1 0)),
          start (mkSolver "bfs" 0 2 0) tt).
Proof.
  split; [apply Z.le_refl|].
  exact (@nothing_to_search_reports_start unit gen_two eval_two 0
           (mkSolver "bfs" 0 2 0) "p" tt 0 1
           (or_introl (conj eq_refl (Z.le_refl 0)))).
Defined.

(** * The solver constructed without collaborators

    [TreeOfThoughtSolver()] runs [LLMGenerator] and [LLMEvaluator] over
    [MockLLM]. *)

Section DefaultSolver.

Variable to_float : string -> float.
Hypothesis to_float_08 : to_float "0.8" = 0.8%float.
Variable problem : string.
Hypothesis plain_problem : contains "evaluate" (lower problem) = false.

Lemma default_evaluate_08 (full_state p : string) (w : unit) :
  default_evaluate to_float full_state p w = (0.8%float, w).
Proof.
  unfold default_evaluate, LLMEvaluator_evaluate, MockLLM, MockLLM_generate.
  rewrite evaluator_prompt_says_evaluate.
  transitivity (to_float "0.8", w); [reflexivity|].
  now rewrite to_float_08.
Qed.

Lemma default_generate_steps (st : string) (n : Z) (w : unit) :
  contains "evaluate" (lower st) = false ->
  default_generate_thoughts st problem n w = (slice_to n mock_steps, w).
Proof.
  intros Hst. unfold default_generate_thoughts.
  now rewrite (@mock_generator_steps unit st problem n w plain_problem Hst).
Qed.

Lemma plain_child (node : SearchNode) (thought : string) (d : Z) :
  In thought mock_steps -> plain_node (make_child node thought 0.8 d).
Proof.
  intros [<- | [<- | [<- | []]]]; split; reflexivity.
Qed.

Lemma bfs_thoughts_default (node : SearchNode) (level : Z)
  (thoughts : list string) :
  forall (next_queue : list SearchNode) (r r' : Run unit)
         (fl : flow (list SearchNode)),
    bfs_thoughts (default_evaluate to_float) problem node level thoughts
                 next_queue r = (fl, r') ->
    fl = Next (next_queue ++ children_of 0.8 level thoughts node).
Proof.
  induction thoughts as [|thought rest IH]; intros nq r r' fl H.
  - simpl in H. injection H as <- _. now rewrite app_nil_r.
  - cbn [bfs_thoughts] in H.
    destruct (expand_thought (default_evaluate to_float) problem node thought
                (level + 1) r) as [oc r1] eqn:Hex.
    apply expand_thought_spec in Hex.
    destruct Hex as (sc & Hev & _ & _ & Hoc).
    rewrite default_evaluate_08 in Hev. injection Hev as <- _.
    destruct oc as [child|]; [|destruct Hoc as [Hoc _]; discriminate Hoc].
    destruct Hoc as (_ & -> & _).
    change (PrimFloat.leb success_threshold
              (score (make_child node thought 0.8 (level + 1))))
      with false in H.
    apply IH in H. rewrite H. cbn [children_of map].
    now rewrite <- app_assoc.
Qed.

Lemma bfs_queue_default (bf level : Z) (queue : list SearchNode) :
  forall (next_queue : list SearchNode) (r r' : Run unit)
         (fl : flow (list SearchNode)),
    branching_factor (self r) = bf ->
    Forall plain_node queue ->
    bfs_queue default_generate_thoughts (default_evaluate to_float) problem
              level queue next_queue r = (fl, r') ->
    fl = Next (next_queue ++
               flat_map (children_of 0.8 level (slice_to bf mock_steps)) queue) /\
    branching_factor (self r') = bf.
Proof.
  induction queue as [|node rest IH]; intros nq r r' fl Hbf Hq H.
  - simpl in H. injection H as <- <-. now rewrite app_nil_r.
  - cbn [bfs_queue] in H. apply Forall_cons_iff in Hq.
    destruct Hq as [[Hbelow Hstate] Hrest].
    unfold below_success in Hbelow. rewrite Hbelow in H.
    destruct (call_generate default_generate_thoughts (generator_state node)
                problem (branching_factor (self r)) r)
      as [thoughts r1] eqn:Hgen.
    apply call_generate_spec in Hgen. destruct Hgen as (Hth & Hself & _).
    rewrite (@default_generate_steps (generator_state node)
               (branching_factor (self r)) (world r) Hstate) in Hth.
    injection Hth as <- _.
    destruct (bfs_thoughts (default_evaluate to_float) problem node level
                (slice_to (branching_factor (self r)) mock_steps) nq r1)
      as [fl2 r2] eqn:Hbt.
    assert (Hcfg := @bfs_thoughts_config unit (default_evaluate to_float) problem
                      node level _ nq r1 r2 fl2 Hbt).
    apply bfs_thoughts_default in Hbt. subst fl2.
    apply IH in H; [|destruct Hcfg as (_ & _ & Hb); congruence|exact Hrest].
    destruct H as [-> Hbf']. split; [|exact Hbf'].
    cbn [flat_map]. now rewrite Hbf, <- app_assoc.
Qed.

Lemma sort_desc_ties (v : float) (l : list SearchNode) :
  Forall (fun n => score n = v) l -> sort_desc l = l.
Proof.
  induction l as [|x xs IH]; intros H; [reflexivity|].
  apply Forall_cons_iff in H. destruct H as [Hx Hxs].
  cbn [sort_desc]. rewrite (IH Hxs).
  destruct xs as [|y ys]; [reflexivity|].
  apply Forall_cons_iff in Hxs. destruct Hxs as [Hy _].
  cbn [insert_desc]. now rewrite Hx, Hy, ltb_irrefl.
Qed.

Lemma children_scored (v : float) (level : Z) (thoughts : list string)
  (queue : list SearchNode) :
  Forall (fun n => score n = v)
         (flat_map (children_of v level thoughts) queue).
Proof.
  apply Forall_forall. intros c Hc. apply in_flat_map in Hc.
  destruct Hc as (node & _ & Hc). apply in_map_iff in Hc.
  now destruct Hc as (thought & <- & _).
Qed.

Lemma children_plain (level : Z) (thoughts : list string)
  (queue : list SearchNode) :
  incl thoughts mock_steps ->
  Forall plain_node (flat_map (children_of 0.8 level thoughts) queue).
Proof.
  intros Hincl. apply Forall_forall. intros c Hc. apply in_flat_map in Hc.
  destruct Hc as (node & _ & Hc). apply in_map_iff in Hc.
  destruct Hc as (thought & <- & Hin). apply plain_child. now apply Hincl.
Qed.

Lemma slice_of_steps (bf : Z) :
  1 <= bf ->
  exists others,
    slice_to bf mock_steps = "Step 1"%string :: others /\
    incl ("Step 1"%string :: others) mock_steps.
Proof.
  intros Hbf. unfold slice_to.
  replace (0 <=? bf) with true by (symmetry; apply Z.leb_le; lia).
  destruct (Z.to_nat bf) as [|j] eqn:Hj; [lia|].
  exists (firstn j (tl mock_steps)). split; [reflexivity|].
  intros x [<- | Hx]; [now left|].
  right. change (In x (tl mock_steps)).
  rewrite <- (firstn_skipn j (tl mock_steps)).
  apply in_or_app. now left.
Qed.

Lemma bfs_levels_default (bf : Z) (m : nat) :
  forall (k : nat) (rest : list SearchNode) (r r' : Run unit)
         (res : option SearchNode),
    1 <= bf ->
    branching_factor (self r) = bf ->
    Forall plain_node (step_chain 0.8 k :: rest) ->
    bfs_levels default_generate_thoughts (default_evaluate to_float) problem
               (map Z.of_nat (seq k m)) (step_chain 0.8 k :: rest) r =
      (res, r') ->
    res = Some (step_chain 0.8 (k + m)).
Proof.
  induction m as [|m IH]; intros k rest r r' res Hbf Hself Hq H.
  - simpl in H. injection H as <- _. now replace (k + 0)%nat with k by lia.
  - cbn [seq map bfs_levels] in H. unfold bfs_level in H.
    destruct (bfs_queue default_generate_thoughts (default_evaluate to_float)
                problem (Z.of_nat k) (step_chain 0.8 k :: rest) []
                (log (EvPrint (Z.of_nat k)
                        (List.length (step_chain 0.8 k :: rest))) r))
      as [fl r1] eqn:Hbq.
    apply bfs_queue_default with (bf := bf) in Hbq; [|exact Hself|exact Hq].
    destruct Hbq as [-> Hself1]. cbn [app] in H.
    rewrite (@sort_desc_ties 0.8%float _
               (@children_scored 0.8%float (Z.of_nat k) (slice_to bf mock_steps)
                  (step_chain 0.8 k :: rest))) in H.
    destruct (@slice_of_steps bf Hbf) as (others & Hslice & Hincl).
    assert (Hplain := @children_plain (Z.of_nat k) _
                        (step_chain 0.8 k :: rest) Hincl).
    rewrite Hslice in H.
    remember (flat_map (children_of 0.8 (Z.of_nat k) ("Step 1"%string :: others))
                (step_chain 0.8 k :: rest)) as next eqn:Hnext.
    assert (Hhead : exists more, next = step_chain 0.8 (S k) :: more).
    { rewrite Hnext. cbn [flat_map children_of map app step_chain]. eauto. }
    destruct Hhead as [more ->]. clear Hnext.
    unfold beam_width in H. rewrite firstn_cons in H. cbv iota in H.
    apply Forall_cons_iff in Hplain. destruct Hplain as [Hhead Hplain].
    apply (IH (S k)) in H; auto.
    + now replace (k + S m)%nat with (S k + m)%nat by lia.
    + constructor; [exact Hhead|]. now apply Forall_firstn.
Qed.

Lemma step_chain_path (v : float) (k : nat) :
  path_history (step_chain v k) ++ [state (step_chain v k)] =
  "Start"%string :: repeat "Step 1"%string k.
Proof.
  induction k as [|k IH]; [reflexivity|].
  cbn [step_chain make_child path_history state]. rewrite IH.
  cbn [repeat]. rewrite repeat_cons. reflexivity.
Qed.

(** X12. The solver constructed without collaborators cannot reach the
    success threshold: over [MockLLM] every path is scored [float("0.8")].
    For a problem that does not contain the word "evaluate", breadth first,
    with [max_depth >= 1] and [branching_factor >= 1], the search runs
    through all levels and reports the chain of first thoughts: solution
    "Start" followed by [max_depth] lines "Step 1", score 0.8 and depth
    [max_depth]. *)
Theorem default_solver_follows_step_one (fuel : nat)
  (s : TreeOfThoughtSolver) (t0 t1 : float) :
  strategy s = "bfs"%string ->
  1 <= max_depth s ->
  1 <= branching_factor s ->
  exists k r',
    solve default_generate_thoughts (default_evaluate to_float) fuel s
          problem tt t0 t1 =
      Some (Returns
              (Solved (join nl ("Start"%string ::
                                repeat "Step 1"%string (Z.to_nat (max_depth s))))
                      0.8 (max_depth s) k (PrimFloat.sub t1 t0)),
            r').
Proof.
  intros Hs Hd Hbf. unfold solve. rewrite Hs.
  replace (String.eqb "bfs" "bfs") with true by reflexivity.
  destruct (bfs default_generate_thoughts (default_evaluate to_float) root
              problem (start s tt)) as [rn r1] eqn:Hb.
  unfold bfs, range in Hb.
  cbn [start self max_depth set_nodes_explored] in Hb.
  change [root] with (step_chain 0.8 0 :: []) in Hb.
  apply bfs_levels_default with (bf := branching_factor s) in Hb;
    [|exact Hbf|reflexivity|constructor; [split; reflexivity|constructor]].
  subst rn. cbn [Nat.add].
  destruct (Z.to_nat (max_depth s)) as [|j] eqn:Hj; [lia|].
  exists (nodes_explored (self r1)), r1. unfold report, get_full_path.
  rewrite step_chain_path. cbn [step_chain make_child score depth].
  replace (Z.of_nat j + 1) with (max_depth s) by lia. reflexivity.
Qed.

Lemma dfs_push_default (node : SearchNode) (thoughts : list string) :
  forall (stack stack' : list SearchNode) (r r' : Run unit),
    dfs_push (default_evaluate to_float) problem node thoughts stack r =
      (stack', r') ->
    stack' = rev (children_of 0.8 (depth node) thoughts node) ++ stack.
Proof.
  induction thoughts as [|thought rest IH]; intros stack stack' r r' H.
  - simpl in H. now injection H as <- _.
  - cbn [dfs_push] in H.
    destruct (expand_thought (default_evaluate to_float) problem node thought
                (depth node + 1) r) as [oc r1] eqn:Hex.
    apply expand_thought_spec in Hex.
    destruct Hex as (sc & Hev & _ & _ & Hoc).
    rewrite default_evaluate_08 in Hev. injection Hev as <- _.
    destruct oc as [child|]; [|destruct Hoc as [Hoc _]; discriminate Hoc].
    destruct Hoc as (_ & -> & _).
    apply IH in H. rewrite H. cbn [children_of map rev].
    now rewrite <- app_assoc.
Qed.

(** One pass of the [while] of [_dfs] for a plain node within the depth
    limit: its children are pushed, the first generated on top. *)
Lemma dfs_iter_default (node : SearchNode) (stack : list SearchNode)
  (best : SearchNode) (r r' : Run unit)
  (fl : flow (list SearchNode * SearchNode)) :
  plain_node node ->
  depth node <= max_depth (self r) ->
  dfs_iter default_generate_thoughts (default_evaluate to_float) problem
           node stack best r = (fl, r') ->
  fl = Next (children_of 0.8 (depth node)
               (slice_to (branching_factor (self r)) mock_steps) node ++ stack,
             if PrimFloat.ltb (score best) (score node) then node else best).
Proof.
  intros [Hbelow Hstate] Hd H. unfold dfs_iter in H.
  replace (Z.ltb (max_depth (self r)) (depth node)) with false in H
    by (symmetry; apply Z.ltb_ge; exact Hd).
  unfold below_success in Hbelow. rewrite Hbelow in H.
  destruct (call_generate default_generate_thoughts (generator_state node)
              problem (branching_factor (self r)) r)
    as [thoughts r1] eqn:Hgen.
  apply call_generate_spec in Hgen. destruct Hgen as (Hth & _ & _).
  rewrite (@default_generate_steps (generator_state node)
             (branching_factor (self r)) (world r) Hstate) in Hth.
  injection Hth as <- _.
  destruct (dfs_push (default_evaluate to_float) problem node
              (rev (slice_to (branching_factor (self r)) mock_steps)) stack r1)
    as [stack' r2] eqn:Hpush.
  apply dfs_push_default in Hpush. subst stack'.
  injection H as <- _. unfold children_of.
  now rewrite map_rev, rev_involutive.
Qed.

Lemma dfs_loop_default (fuel : nat) :
  forall (stack : list SearchNode) (best n : SearchNode) (r r' : Run unit),
    Forall (fun c => score c = 0.8%float /\ plain_node c) stack ->
    score best = 0.8%float ->
    dfs_loop default_generate_thoughts (default_evaluate to_float) fuel
             problem stack best r = Some (n, r') ->
    n = best.
Proof.
  induction fuel as [|fuel IH]; intros stack best n r r' Hst Hbest H.
  - discriminate.
  - cbn [dfs_loop] in H. destruct stack as [|node stack].
    + now injection H as <- _.
    + apply Forall_cons_iff in Hst. destruct Hst as [[Hscore Hnode] Hst].
      destruct (dfs_iter default_generate_thoughts (default_evaluate to_float)
                  problem node stack best r) as [fl r1] eqn:Hit.
      destruct (Z.ltb (max_depth (self r)) (depth node)) eqn:Hlt.
      * unfold dfs_iter in Hit. rewrite Hlt in Hit. injection Hit as <- <-.
        now apply IH in H.
      * apply Z.ltb_ge in Hlt.
        apply dfs_iter_default in Hit; [|exact Hnode|exact Hlt].
        subst fl. rewrite Hbest, Hscore, ltb_irrefl in H.
        apply IH in H; [exact H| |exact Hbest].
        apply Forall_app. split; [|exact Hst].
        apply Forall_forall. intros c Hc. apply in_map_iff in Hc.
        destruct Hc as (thought & <- & Hin).
        split; [reflexivity|]. apply plain_child.
        revert thought Hin. apply Forall_forall. apply slice_to_incl.
        apply Forall_forall. auto.
Qed.

(** X13. Depth first, the solver constructed without collaborators walks
    the whole tree down to [max_depth + 1] and then reports its first
    node: for a problem that does not contain the word "evaluate", with
    [max_depth >= 1] and [branching_factor >= 1], every node is scored 0.8,
    none outscores the first one popped, and the outcome is solution
    "Start", "Step 1", score 0.8 and depth 1, whatever [max_depth] is. *)
Theorem default_dfs_reports_first_step (s : TreeOfThoughtSolver)
  (t0 t1 : float) :
  strategy s = "dfs"%string ->
  1 <= max_depth s ->
  1 <= branching_factor s ->
  exists fuel, forall extra,
    exists k r',
      solve default_generate_thoughts (default_evaluate to_float)
            (fuel + extra) s problem tt t0 t1 =
        Some (Returns (Solved (join nl ["Start"; "Step 1"]%string) 0.8 1 k
                         (PrimFloat.sub t1 t0)),
              r').
Proof.
  intros Hs Hd Hbf.
  destruct (@dfs_stack_terminates unit default_generate_thoughts
              (default_evaluate to_float) problem (max_depth s) [root] root
              (start s tt) eq_refl) as (fuel & [n r1] & Hres).
  assert (Hn : n = step_chain 0.8 1).
  { destruct fuel as [|f1]; [discriminate|]. cbn [dfs_loop] in Hres.
    destruct (dfs_iter default_generate_thoughts (default_evaluate to_float)
                problem root [] root (start s tt)) as [fl r2] eqn:Hit.
    assert (Hcfg := dfs_iter_config _ _ _ _ _ _ _ Hit).
    destruct Hcfg as (_ & Hmd & Hb).
    apply dfs_iter_default in Hit;
      [|split; reflexivity|cbn [start self max_depth set_nodes_explored root depth]; lia].
    subst fl. cbn [start self branching_factor set_nodes_explored] in Hres.
    destruct (@slice_of_steps (branching_factor s) Hbf)
      as (others & Hslice & Hincl).
    rewrite Hslice in Hres.
    cbn [children_of map app] in Hres. rewrite app_nil_r in Hres.
    change (PrimFloat.ltb (score root) (score root)) with false in Hres.
    destruct f1 as [|f2]; [discriminate|]. cbn [dfs_loop] in Hres.
    destruct (dfs_iter default_generate_thoughts (default_evaluate to_float)
                problem (make_child root "Step 1" 0.8 (depth root + 1))
                (map (fun thought =>
                        make_child root thought 0.8 (depth root + 1)) others)
                root r2) as [fl r3] eqn:Hit2.
    apply dfs_iter_default in Hit2;
      [|now apply plain_child; left
       |cbn [make_child depth root]; cbn [start self max_depth set_nodes_explored] in Hmd; lia].
    subst fl.
    change (PrimFloat.ltb (score root)
              (score (make_child root "Step 1" 0.8 (depth root + 1))))
      with true in Hres.
    apply dfs_loop_default in Hres; [exact Hres| |reflexivity].
    apply Forall_app. split.
    - apply Forall_forall. intros c Hc. apply in_map_iff in Hc.
      destruct Hc as (thought & <- & Hin).
      split; [reflexivity|]. apply plain_child.
      revert thought Hin. apply Forall_forall. apply slice_to_incl.
      apply Forall_forall. auto.
    - apply Forall_forall. intros c Hc. apply in_map_iff in Hc.
      destruct Hc as (thought & <- & Hin).
      split; [reflexivity|]. apply plain_child. apply Hincl. now right. }
  subst n. exists fuel. intros extra.
  apply dfs_loop_fuel_mono with (extra := extra) in Hres.
  exists (nodes_explored (self r1)), r1.
  unfold solve. rewrite Hs.
  replace (String.eqb "dfs" "bfs") with false by reflexivity.
  replace (String.eqb "dfs" "dfs") with true by reflexivity.
  unfold dfs. rewrite Hres. reflexivity.
Qed.

End DefaultSolver.

(** X12, witness: the run of the example at the end of the module, with
    [float] read as the correctly rounded decimal; 14 candidates are
    evaluated. *)
Lemma default_solver_witness :
  decimal_float "0.8" = 0.8%float /\
  contains "evaluate" (lower demo_problem) = false /\
  (exists k r',
      solve default_generate_thoughts (default_evaluate decimal_float) 0
            (mkSolver "bfs" 3 2 0) demo_problem tt 0 1 =
        Some (Returns
                (Solved (join nl ("Start"%string ::
                                  repeat "Step 1"%string (Z.to_nat 3)))
                        0.8 3 k (PrimFloat.sub 1 0)),
              r')) /\
  option_map fst
    (solve default_generate_thoughts (default_evaluate decimal_float) 0
           (mkSolver "bfs" 3 2 0) demo_problem tt 0 1) =
    Some (Returns
            (Solved (join nl ["Start"; "Step 1"; "Step 1"; "Step 1"]%string)
                    0.8 3 14 1)).
Proof.
  assert (Hf : decimal_float "0.8" = 0.8%float) by (vm_compute; reflexivity).
  assert (Hp : contains "evaluate" (lower demo_problem) = false)
    by (vm_compute; reflexivity).
  assert (Hd : 1 <= 3) by discriminate.
  assert (Hb : 1 <= 2) by discriminate.
  split; [exact Hf|]. split; [exact Hp|]. split.
  - exact (@default_solver_follows_step_one decimal_float Hf demo_problem Hp
             0%nat (mkSolver "bfs" 3 2 0) 0%float 1%float eq_refl
             Hd Hb).
  - vm_compute. reflexivity.
Defined.

(** X13, witness: the example solver run depth first; 30 candidates are
    evaluated before the first node is reported. *)
Lemma default_dfs_witness :
  decimal_float "0.8" = 0.8%float /\
  contains "evaluate" (lower demo_problem) = false /\
  (exists fuel, forall extra,
      exists k r',
        solve default_generate_thoughts (default_evaluate decimal_float)
              (fuel + extra) (mkSolver "dfs" 3 2 0) demo_problem tt 0 1 =
          Some (Returns (Solved (join nl ["Start"; "Step 1"]%string) 0.8 1 k
                           (PrimFloat.sub 1 0)),
                r')) /\
  option_map fst
    (solve default_generate_thoughts (default_evaluate decimal_float) 40
           (mkSolver "dfs" 3 2 0) demo_problem tt 0 1) =
    Some (Returns (Solved (join nl ["Start"; "Step 1"]%string) 0.8 1 30 1)).
Proof.
  assert (Hf : decimal_float "0.8" = 0.8%float) by (vm_compute; reflexivity).
  assert (Hp : contains "evaluate" (lower demo_problem) = false)
    by (vm_compute; reflexivity).
  assert (Hd : 1 <= 3) by discriminate.
  assert (Hb : 1 <= 2) by discriminate.
  split; [exact Hf|]. split; [exact Hp|]. split.
  - exact (@default_dfs_reports_first_step decimal_float Hf demo_problem Hp
             (mkSolver "dfs" 3 2 0) 0%float 1%float eq_refl Hd Hb).
  - vm_compute. reflexivity.
Defined.

(** X14, witness: a generator without thoughts empties the first level. *)
Lemma failure_witness :
  bfs_frontier gen_none (eval_const 0.5) "p" (start (mkSolver "bfs" 5 3 0) tt)
    1 [] (mkRun (mkSolver "bfs" 5 3 0) tt
            [EvPrint 0 1; EvGenerate "" "p" 3 []]) /\
  solve gen_none (eval_const 0.5) 0 (mkSolver "bfs" 5 3 0) "p" tt 0 1 =
    Some (Returns (Failed failure_reason 0 (PrimFloat.sub 1 0)),
          mkRun (mkSolver "bfs" 5 3 0) tt
            [EvPrint 0 1; EvGenerate "" "p" 3 []]).
Proof.
  assert (Hf : bfs_frontier gen_none (eval_const 0.5) "p"
                 (start (mkSolver "bfs" 5 3 0) tt) 1 []
                 (mkRun (mkSolver "bfs" 5 3 0) tt
                    [EvPrint 0 1; EvGenerate "" "p" 3 []])).
  { eapply frontier_next;
      [apply frontier_root | reflexivity | discriminate | reflexivity]. }
  split; [exact Hf|].
  exact (proj1 (proj2 (@failure_means_empty_level unit gen_none
                         (eval_const 0.5) 0 (mkSolver "bfs" 5 3 0) "p" tt
                         0%float 1%float))
           eq_refl 0%nat _ Hf).
Defined.

(** X15, witness: one level with two thoughts; the bound is reached. *)
Lemma bfs_explores_linearly_witness :
  generator_honours_n gen_firstn /\
  solve gen_firstn (eval_const 0.5) 0 (mkSolver "bfs" 1 2 0) "p" tt 0 1 =
    Some (Returns (Solved (join nl ["Start"; "A"]%string) 0.5 1 2 1),
          mkRun (mkSolver "bfs" 1 2 2) tt firstn_trace) /\
  2 <= Z.max 0 2 * Z.max 0 (5 * 1 - 4).
Proof.
  assert (Hgen : generator_honours_n gen_firstn).
  { intros st p n w. apply firstn_le_length. }
  split; [exact Hgen|]. split; [reflexivity|].
  exact (@bfs_explores_linearly unit gen_firstn (eval_const 0.5) 0
           (mkSolver "bfs" 1 2 0) "p" tt 0 1
           (Returns (Solved (join nl ["Start"; "A"]%string) 0.5 1 2 1))
           (mkRun (mkSolver "bfs" 1 2 2) tt firstn_trace)
           Hgen eq_refl eq_refl).
Defined.

(** * The first number of a reply *)

Lemma search_score_skip (before s : string) :
  all_chars no_score_start before = true ->
  search_score (String.append before s) = search_score s.
Proof.
  induction before as [|c before IH]; [reflexivity|].
  cbn [all_chars]. intros H. apply andb_prop in H. destruct H as [Hc Hrest].
  unfold no_score_start in Hc. apply andb_prop in Hc. destruct Hc as [H0 H1].
  apply negb_true_iff in H0, H1.
  cbn [String.append search_score match_here]. rewrite H0, H1.
  now apply IH.
Qed.

Lemma take_digits_append (digits rest : string) :
  all_chars is_digit digits = true ->
  digits_end rest = true ->
  take_digits (String.append digits rest) = digits.
Proof.
  intros Hd Hrest. induction digits as [|c digits IH].
  - destruct rest as [|c rest]; [reflexivity|].
    cbn [String.append take_digits]. cbn [digits_end] in Hrest.
    apply negb_true_iff in Hrest. now rewrite Hrest.
  - cbn [all_chars] in Hd. apply andb_prop in Hd. destruct Hd as [Hc Hd].
    cbn [String.append take_digits]. rewrite Hc. now rewrite IH.
Qed.

(** X16. The evaluator reads the first number of the reply: when the
    stripped reply holds neither "0" nor "1" before a text "0." followed by
    one or more digits, the score is the conversion of that text with all
    its digits, whatever follows them. *)
Theorem evaluator_reads_first_number (W : Type) (to_float : string -> float)
  (llm : LLMAdapter W) (state problem : string) (w w' : W)
  (reply before digits rest : string) :
  llm (evaluator_prompt state problem) 0.1%float w = (inl reply, w') ->
  strip reply =
    String.append before (String "0" (String "." (String.append digits rest))) ->
  all_chars no_score_start before = true ->
  digits <> EmptyString ->
  all_chars is_digit digits = true ->
  digits_end rest = true ->
  LLMEvaluator_evaluate to_float llm state problem w =
    (inl (to_float (String "0" (String "." digits))), w').
Proof.
  intros Hl Hs Hbefore Hne Hd Hrest.
  unfold LLMEvaluator_evaluate. rewrite Hl, Hs.
  rewrite (@search_score_skip before _ Hbefore).
  cbn [search_score match_here].
  replace (Ascii.eqb "0" "0") with true by reflexivity.
  replace (Ascii.eqb "." ".") with true by reflexivity.
  rewrite (@take_digits_append digits rest Hd Hrest).
  destruct digits as [|d digits]; [now contradiction Hne|reflexivity].
Qed.

(** X16, witness: a reply with words around the number. *)
Lemma evaluator_reads_first_number_witness :
  strip "Score: 0.75 (good) " =
    String.append "Score: " (String "0" (String "." (String.append "75" " (good)"))) /\
  LLMEvaluator_evaluate decimal_float (llm_reply "Score: 0.75 (good) ")
                        "Start" "p" tt =
    (inl 0.75%float, tt).
Proof.
  assert (Hs : strip "Score: 0.75 (good) " =
               String.append "Score: "
                 (String "0" (String "." (String.append "75" " (good)"))))
    by reflexivity.
  assert (Hne : "75"%string <> EmptyString) by discriminate.
  split; [exact Hs|].
  exact (@evaluator_reads_first_number unit decimal_float
           (llm_reply "Score: 0.75 (good) ") "Start" "p" tt tt
           "Score: 0.75 (good) " "Score: " "75" " (good)"
           eq_refl Hs eq_refl Hne eq_refl eq_refl).
Defined.
